(** * alto-proxy: the field accessor, the classifier, the mapper, the token
    cache and the import loop, embedded from [src/index.js] and from the second
    source variant [src/unnamed/part_000].

    JavaScript values are modelled by an inductive type; the builtins the two
    files call ([parseInt], [parseFloat], [toLowerCase], [includes], [join],
    [split], property lookup, truthiness) are modelled after ECMAScript with
    the following stated limits:
    - a string is a sequence of code units below 256 (Latin-1);
    - a number is a binary64 value, NaN or an infinity; a binary64 value is
      written as the exact decimal it is equal to, and a numeral is rounded
      to the nearest one (ties to even) when it is read.  The sign of zero is
      not modelled: the program never does arithmetic on parsed numbers, it
      only tests, compares and outputs them;
    - an object is the finite map of its own properties, as the XML parser
      makes them: no property is a function.  A lookup sees own properties,
      array indices and [length]; the members a value inherits from its
      prototype ([map], [constructor], ...) are not modelled.  None of the
      keys the two files look up is the name of such a member; for an
      arbitrary path, a property below is stated through the result of the
      lookups rather than through the absence of a key;
    - converting an object to a string gives the text [[object Object]],
      unless the object has an own property named [toString]: then the
      conversion throws a TypeError.  [convertible] tells the two cases
      apart and [ToString] is the text in the first.  The conversions of
      [mapProperty], whose [catch] turns the exception into [null], are
      modelled with the exception; elsewhere in the import loop (the
      classification text, the bedroom count, the url of a detail request,
      the message its [catch] logs) the value converted is taken to be
      convertible. *)

From Stdlib Require Import String Ascii List ZArith QArith Qpower Bool Lia DecimalString.
From Stdlib Require SpecFloat.
Import ListNotations.
Local Open Scope string_scope.
Local Open Scope Z_scope.

(** ** Strings *)

Module JsString.

(** [String.prototype.toLowerCase] on a Latin-1 code unit. *)
Definition lower_char (c : ascii) : ascii :=
  let n := N_of_ascii c in
  if (((65 <=? n) && (n <=? 90))
      || ((192 <=? n) && (n <=? 222) && negb (n =? 215)))%N
  then ascii_of_N (n + 32) else c.

Fixpoint toLowerCase (s : string) : string :=
  match s with
  | EmptyString => EmptyString
  | String c t => String (lower_char c) (toLowerCase t)
  end.

(** [s.includes(sub)] *)
Fixpoint includes (s sub : string) : bool :=
  String.prefix sub s ||
  match s with
  | EmptyString => false
  | String _ t => includes t sub
  end.

(** [s.split(sep)] for a one-character separator: never the empty list. *)
Fixpoint split (sep : ascii) (s : string) : list string :=
  match s with
  | EmptyString => [EmptyString]
  | String c t =>
      if Ascii.eqb c sep then EmptyString :: split sep t
      else match split sep t with
           | h :: r => String c h :: r
           | [] => [String c EmptyString]
           end
  end.

(** White space and line terminators, skipped by [parseInt]/[parseFloat]. *)
Definition is_space (c : ascii) : bool :=
  let n := N_of_ascii c in
  (((9 <=? n) && (n <=? 13)) || (n =? 32) || (n =? 160))%N.

Fixpoint trimStart (s : string) : string :=
  match s with
  | String c t => if is_space c then trimStart t else s
  | EmptyString => EmptyString
  end.

Fixpoint repeat0 (n : nat) : string :=
  match n with
  | O => EmptyString
  | S k => String "0" (repeat0 k)
  end.

Fixpoint rev_onto (s acc : string) : string :=
  match s with
  | EmptyString => acc
  | String c t => rev_onto t (String c acc)
  end.

Definition rev (s : string) : string := rev_onto s EmptyString.

(** Leading ["0"] characters removed, and how many were. *)
Fixpoint drop_zeros (s : string) : string * nat :=
  match s with
  | String "0" t => let '(r, k) := drop_zeros t in (r, S k)
  | _ => (s, O)
  end.

End JsString.

(** ** Numbers *)

(** A number is NaN, an infinity, or a binary64 value written as the exact
    decimal [m * 10^e] it is equal to (every binary64 value has one). *)
Inductive number : Type :=
| NaN
| Infinity (negative : bool)
| Finite (m e : Z).   (* the decimal m * 10^e *)

Module JsNumber.

Definition zero : number := Finite 0 0.
Definition of_Z (z : Z) : number := Finite z 0.
Definition of_nat (n : nat) : number := Finite (Z.of_nat n) 0.

(** ToBoolean on a number: NaN and zero are falsy. *)
Definition truthy (n : number) : bool :=
  match n with
  | NaN => false
  | Infinity _ => true
  | Finite m _ => negb (m =? 0)
  end.

(** Comparison of two decimals by value. *)
Definition cmp_dec (m1 e1 m2 e2 : Z) : comparison :=
  let e := Z.min e1 e2 in
  (m1 * 10 ^ (e1 - e)) ?= (m2 * 10 ^ (e2 - e)).

(** [a <= b]; false as soon as one side is NaN. *)
Definition leb (a b : number) : bool :=
  match a, b with
  | NaN, _ | _, NaN => false
  | Infinity true, _ => true
  | _, Infinity false => true
  | Infinity false, _ => false
  | _, Infinity true => false
  | Finite m1 e1, Finite m2 e2 =>
      match cmp_dec m1 e1 m2 e2 with Gt => false | _ => true end
  end.

(** [a === b] on numbers. *)
Definition eqb (a b : number) : bool :=
  match a, b with
  | Infinity s1, Infinity s2 => Bool.eqb s1 s2
  | Finite m1 e1, Finite m2 e2 =>
      match cmp_dec m1 e1 m2 e2 with Eq => true | _ => false end
  | _, _ => false
  end.

(** The number is one of the integers [lo .. hi]. *)
Definition is_integer_in (lo hi : Z) (n : number) : bool :=
  match n with
  | Finite m e =>
      if 0 <=? e then (lo <=? m * 10 ^ e) && (m * 10 ^ e <=? hi)
      else ((m mod 10 ^ (- e)) =? 0)
           && (lo <=? m / 10 ^ (- e)) && (m / 10 ^ (- e) <=? hi)
  | _ => false
  end.

Definition digits_of_pos (p : positive) : string :=
  NilEmpty.string_of_uint (Pos.to_uint p).

Definition digits_of_Z (z : Z) : string :=
  match z with
  | Z0 => "0"
  | Zpos p => digits_of_pos p
  | Zneg p => "-" ++ digits_of_pos p
  end.

(** Number::toString for a positive decimal whose digit string [s] has no
    trailing zero and stands for [0.s * 10^n]. *)
Definition format (s : string) (n : Z) : string :=
  let k := Z.of_nat (String.length s) in
  if (k <=? n) && (n <=? 21) then s ++ JsString.repeat0 (Z.to_nat (n - k))
  else if (0 <? n) && (n <=? 21) then
    String.substring 0 (Z.to_nat n) s ++ "."
    ++ String.substring (Z.to_nat n) (Z.to_nat (k - n)) s
  else if (-6 <? n) && (n <=? 0) then
    "0." ++ JsString.repeat0 (Z.to_nat (- n)) ++ s
  else
    let ex := (if 0 <=? n - 1 then "+" else "-") ++ digits_of_Z (Z.abs (n - 1)) in
    if k =? 1 then s ++ "e" ++ ex
    else String.substring 0 1 s ++ "."
         ++ String.substring 1 (Z.to_nat (k - 1)) s ++ "e" ++ ex.

Definition signed (neg : bool) (z : Z) : Z := if neg then - z else z.

(** *** Rounding to binary64 *)

(** The binary64 value nearest to the decimal [m * 10^e], for [0 < m], ties
    to even: the rounding of the Standard Library's specification of IEEE 754
    arithmetic (53 bits of precision, exponents below 1024), applied to the
    integer when [0 <= e] and to the quotient [m / 10^(-e)] otherwise. *)
Definition binary64_of_decimal (m e : Z) : SpecFloat.spec_float :=
  if 0 <=? e then SpecFloat.binary_normalize 53 1024 (m * 10 ^ e) 0 false
  else SpecFloat.SFdiv 53 1024
         (SpecFloat.S754_finite false (Z.to_pos m) 0)
         (SpecFloat.S754_finite false (Z.to_pos (10 ^ (- e))) 0).

(** [m * 2^e] with the factors two of [m] moved into a negative [e]. *)
Fixpoint odd_part (m : positive) (e : Z) : positive * Z :=
  match m with
  | xO m' => if e <? 0 then odd_part m' (e + 1) else (m, e)
  | _ => (m, e)
  end.

(** The exact decimal of a binary64 value: [m * 2^e] is the integer itself
    when [0 <= e], and [(m * 5^(-e)) * 10^e] otherwise. *)
Definition decimal_of_binary64 (neg : bool) (x : SpecFloat.spec_float) : number :=
  match x with
  | SpecFloat.S754_zero _ => zero
  | SpecFloat.S754_infinity _ => Infinity neg
  | SpecFloat.S754_nan => NaN
  | SpecFloat.S754_finite _ m e =>
      let '(m, e) := odd_part m e in
      if 0 <=? e then Finite (signed neg (Zpos m * 2 ^ e)) 0
      else Finite (signed neg (Zpos m * 5 ^ (- e))) e
  end.

(** The integer a binary64 value stands for, when it stands for one. *)
Definition integer_of_binary64 (neg : bool) (x : SpecFloat.spec_float) : number :=
  match x with
  | SpecFloat.S754_zero _ => zero
  | SpecFloat.S754_infinity _ => Infinity neg
  | SpecFloat.S754_nan => NaN
  | SpecFloat.S754_finite _ m e =>
      Finite (signed neg (if 0 <=? e then Zpos m * 2 ^ e else Zpos m / 2 ^ (- e))) 0
  end.

(** The Number value for the decimal [(-1)^neg * m * 10^e], [0 <= m]: beyond
    the binary64 range it is an infinity, below half the least positive
    binary64 value it is zero. *)
Definition nearest (neg : bool) (m e : Z) : number :=
  if m <=? 0 then zero else decimal_of_binary64 neg (binary64_of_decimal m e).

(** The Number value for the integer [(-1)^neg * z], [0 <= z]: the nearest
    binary64 value is an integer again. *)
Definition nearest_integer (neg : bool) (z : Z) : number :=
  if z <=? 0 then zero else integer_of_binary64 neg (binary64_of_decimal z 0).

(** *** Number::toString *)

(** The digits of a positive decimal, as [format] wants them. *)
Definition print (p : positive) (e : Z) : string :=
  let '(r, z) := JsString.drop_zeros (JsString.rev (digits_of_pos p)) in
  let s := JsString.rev r in
  format s (Z.of_nat (String.length s) + e + Z.of_nat z).

(** The decimal with the fewest digits whose Number value is the binary64
    value [m * 10^e] (for [0 < m]); of two such decimals with [k] digits, the
    one closer to the value, and the even one when they are as close.
    Seventeen digits always suffice. *)
Fixpoint shortest (fuel : nat) (k m e : Z) : Z * Z :=
  match fuel with
  | O => (m, e)
  | S fuel' =>
      let q := Z.of_nat (String.length (digits_of_Z m)) + e - k in
      if q <=? e then (m, e)
      else
        let p := 10 ^ (q - e) in
        let lo := m / p in
        let hi := lo + 1 in
        let back c := (0 <? c) && eqb (nearest false c q) (Finite m e) in
        match back lo, back hi with
        | true, true =>
            match (m - lo * p) ?= (hi * p - m) with
            | Lt => (lo, q)
            | Gt => (hi, q)
            | Eq => if Z.even lo then (lo, q) else (hi, q)
            end
        | true, false => (lo, q)
        | false, true => (hi, q)
        | false, false => shortest fuel' (k + 1) m e
        end
  end.

Definition to_string (n : number) : string :=
  match n with
  | NaN => "NaN"
  | Infinity false => "Infinity"
  | Infinity true => "-Infinity"
  | Finite m e =>
      let sign := if m <? 0 then "-" else "" in
      match nearest false (Z.abs m) e with
      | Finite (Zpos p) e' =>
          let '(s, q) := shortest 17 1 (Zpos p) e' in
          sign ++ print (Z.to_pos s) q
      | Finite _ _ => "0"
      | Infinity _ => sign ++ "Infinity"
      | NaN => "NaN"
      end
  end.

(** *** Reading numerals *)

Definition digit_of (c : ascii) : option Z :=
  let n := N_of_ascii c in
  if ((48 <=? n) && (n <=? 57))%N then Some (Z.of_N (n - 48)) else None.

Definition hex_digit_of (c : ascii) : option Z :=
  let n := N_of_ascii c in
  if ((48 <=? n) && (n <=? 57))%N then Some (Z.of_N (n - 48))
  else if ((65 <=? n) && (n <=? 70))%N then Some (Z.of_N (n - 55))
  else if ((97 <=? n) && (n <=? 102))%N then Some (Z.of_N (n - 87))
  else None.

(** The longest prefix of digits, and what follows it. *)
Fixpoint span (digit : ascii -> option Z) (s : string) : list Z * string :=
  match s with
  | String c t =>
      match digit c with
      | Some d => let '(ds, r) := span digit t in (d :: ds, r)
      | None => ([], s)
      end
  | EmptyString => ([], EmptyString)
  end.

Definition value_of (radix : Z) (ds : list Z) : Z :=
  fold_left (fun acc d => radix * acc + d) ds 0.

(** An optional sign: [true] for a minus. *)
Definition read_sign (s : string) : bool * string :=
  match s with
  | String "-" t => (true, t)
  | String "+" t => (false, t)
  | _ => (false, s)
  end.

(** [parseInt(s)] with no radix argument: base 10, or 16 after [0x]; the
    Number value for the integer read. *)
Definition parseInt_string (input : string) : number :=
  let '(neg, s) := read_sign (JsString.trimStart input) in
  let '(radix, s) :=
    match s with
    | String "0" (String "x" t) => (16, t)
    | String "0" (String "X" t) => (16, t)
    | _ => (10, s)
    end in
  let '(ds, _) := span (if radix =? 16 then hex_digit_of else digit_of) s in
  match ds with
  | [] => NaN
  | _ => nearest_integer neg (value_of radix ds)
  end.

(** The exponent part [e[+-]digits], counted only when a digit follows. *)
Definition read_exponent (s : string) : Z :=
  let after_e t :=
    let '(neg, t') := read_sign t in
    let '(ds, _) := span digit_of t' in
    match ds with [] => 0 | _ => signed neg (value_of 10 ds) end in
  match s with
  | String "e" t => after_e t
  | String "E" t => after_e t
  | _ => 0
  end.

(** [parseFloat(s)]: the Number value for the longest prefix that is a
    decimal literal. *)
Definition parseFloat_string (input : string) : number :=
  let '(neg, s) := read_sign (JsString.trimStart input) in
  if String.prefix "Infinity" s then Infinity neg
  else
    let '(ip, s1) := span digit_of s in
    let '(fp, s2) :=
      match s1 with
      | String "." t => span digit_of t
      | _ => ([], s1)
      end in
    match ip, fp with
    | [], [] => NaN
    | _, _ =>
        nearest neg (value_of 10 (ip ++ fp))
          (read_exponent s2 - Z.of_nat (List.length fp))
    end.

End JsNumber.

(** ** Values *)

#[local] Set Warnings "-register-all".

Inductive value : Type :=
| VUndefined
| VNull
| VBool (b : bool)
| VNum (n : number)
| VStr (s : string)
| VArr (items : list value)
| VObj (fields : list (string * value)).

(** ToBoolean *)
Definition truthy (v : value) : bool :=
  match v with
  | VUndefined | VNull => false
  | VBool b => b
  | VNum n => JsNumber.truthy n
  | VStr s => negb (String.eqb s "")
  | VArr _ | VObj _ => true
  end.

(** [a || b] *)
Definition js_or (a b : value) : value := if truthy a then a else b.

Definition is_undefined (v : value) : bool :=
  match v with VUndefined => true | _ => false end.

Definition nullish (v : value) : bool :=
  match v with VUndefined | VNull => true | _ => false end.

(** [v === s] for a string literal [s] *)
Definition is_string (v : value) (s : string) : bool :=
  match v with VStr t => String.eqb t s | _ => false end.

(** [Array.isArray(v) ? v : [v]] *)
Definition as_array (v : value) : list value :=
  match v with VArr items => items | _ => [v] end.

(** ToString; an array is its elements joined by commas, where [null] and
    [undefined] elements give the empty string.  This is the text of a value
    that is [convertible], see below. *)
Fixpoint ToString (v : value) : string :=
  match v with
  | VUndefined => "undefined"
  | VNull => "null"
  | VBool true => "true"
  | VBool false => "false"
  | VNum n => JsNumber.to_string n
  | VStr s => s
  | VArr items =>
      (fix joined (l : list value) : string :=
         match l with
         | [] => ""
         | x :: rest =>
             let sx := match x with
                       | VUndefined | VNull => ""
                       | _ => ToString x
                       end in
             match rest with
             | [] => sx
             | _ => sx ++ "," ++ joined rest
             end
         end) items
  | VObj _ => "[object Object]"
  end.

(** [items.join(sep)] *)
Fixpoint join (sep : string) (items : list value) : string :=
  match items with
  | [] => ""
  | x :: rest =>
      let sx := if nullish x then "" else ToString x in
      match rest with
      | [] => sx
      | _ => sx ++ sep ++ join sep rest
      end
  end.

Definition parseInt (v : value) : number := JsNumber.parseInt_string (ToString v).
Definition parseFloat (v : value) : number := JsNumber.parseFloat_string (ToString v).

(** Whether ToString returns: converting an object calls its [toString]
    method, then its [valueOf].  The one inherited from [Object.prototype]
    gives [[object Object]]; an own property [toString] hides it, and as no
    own property is a function, neither method then yields a primitive and
    the conversion throws.  An array converts its elements. *)
Fixpoint convertible (v : value) : bool :=
  match v with
  | VArr items => forallb convertible items
  | VObj fields => negb (existsb (fun kv => String.eqb (fst kv) "toString") fields)
  | _ => true
  end.

(** ** Property lookup *)

Fixpoint assoc (key : string) (fields : list (string * value)) : option value :=
  match fields with
  | [] => None
  | (k, x) :: rest => if String.eqb k key then Some x else assoc key rest
  end.

(** A canonical array index: decimal digits with no superfluous leading zero. *)
Definition array_index (key : string) : option nat :=
  match key with
  | EmptyString => None
  | String "0" EmptyString => Some O
  | String "0" _ => None
  | _ =>
      match JsNumber.span JsNumber.digit_of key with
      | (ds, EmptyString) => Some (Z.to_nat (JsNumber.value_of 10 ds))
      | _ => None
      end
  end.

(** [v[key]] for a value that is neither [null] nor [undefined]. *)
Definition getProp (v : value) (key : string) : value :=
  match v with
  | VObj fields =>
      match assoc key fields with Some x => x | None => VUndefined end
  | VArr items =>
      if String.eqb key "length" then VNum (JsNumber.of_nat (List.length items))
      else match array_index key with
           | Some i => nth i items VUndefined
           | None => VUndefined
           end
  | VStr s =>
      if String.eqb key "length" then VNum (JsNumber.of_nat (String.length s))
      else match array_index key with
           | Some i => match String.get i s with
                       | Some c => VStr (String c EmptyString)
                       | None => VUndefined
                       end
           | None => VUndefined
           end
  | _ => VUndefined
  end.

(** [v?.[key]]: [undefined] on [null] and [undefined]. *)
Definition optMember (v : value) (key : string) : value :=
  if nullish v then VUndefined else getProp v key.

(** ** Exceptions *)

Inductive result (A : Type) : Type :=
| Ok (a : A)
| Throw (message : string).
Arguments Ok {A} a.
Arguments Throw {A} message.

(** [v.key] or [v[key]]: a TypeError on [null] and [undefined]. *)
Definition member (v : value) (key : string) : result value :=
  if nullish v
  then Throw ("Cannot read properties of " ++ ToString v
              ++ " (reading '" ++ key ++ "')")
  else Ok (getProp v key).

Definition result_bind {A B : Type} (r : result A) (k : A -> result B) : result B :=
  match r with
  | Ok a => k a
  | Throw message => Throw message
  end.

Notation "x <~ r ;; k" := (result_bind r (fun x => k))
  (at level 61, r at next level, right associativity).

(** A call [f(v)] of a builtin that starts by converting [v] to a string:
    [parseInt(v)], [parseFloat(v)]. *)
Definition converting {A : Type} (f : value -> A) (v : value) : result A :=
  if convertible v then Ok (f v)
  else Throw "Cannot convert object to primitive value".

(** [const { key } = v], where [source] is the text of the right-hand side. *)
Definition destructure (v : value) (source key : string) : result value :=
  if nullish v
  then Throw ("Cannot destructure property '" ++ key ++ "' of '" ++ source
              ++ "' as it is " ++ ToString v ++ ".")
  else Ok (getProp v key).

(** ** The field accessor (identical in both source files) *)

(** The [for] loop of [get]: [None] is the early [return null]. *)
Fixpoint get_walk (result : value) (keys : list string) : option value :=
  match keys with
  | [] => Some result
  | key :: rest =>
      let result := optMember result key in
      if is_undefined result then None else get_walk result rest
  end.

Definition get (obj : value) (path : string) : value :=
  match get_walk obj (JsString.split "." path) with
  | None => VNull
  | Some result =>
      match result with
      | VArr (first :: _) => first
      | _ => js_or result VNull
      end
  end.

(** [mapType] (identical in both source files) *)
Definition mapType (rmType : number) : string :=
  if JsNumber.leb (JsNumber.of_Z 1) rmType && JsNumber.leb rmType (JsNumber.of_Z 6)
  then "house"
  else if JsNumber.eqb rmType (JsNumber.of_Z 9) then "studio"
  else "flat".

(** [n || d] where both are numbers *)
Definition num_or (n d : number) : number := if JsNumber.truthy n then n else d.

(** [n || null] *)
Definition num_or_null (n : number) : value :=
  if JsNumber.truthy n then VNum n else VNull.

(** [v === undefined ? ... ] helpers of the object literal: a list that is
    empty becomes [undefined]. *)
Definition nonempty_or_undefined (l : list value) : value :=
  match l with [] => VUndefined | _ => VArr l end.

(** [fileList.filter(f => get(f,'type') === code).map(f => get(f,'url')).filter(Boolean)] *)
Definition urls_of_type (code : string) (fileList : list value) : list value :=
  filter truthy
    (map (fun f => get f "url")
       (filter (fun f => is_string (get f "type") code) fileList)).

(** ** State and exceptions threaded through the asynchronous code *)

Definition M (S A : Type) : Type := S -> result A * S.

Definition ret {S A : Type} (a : A) : M S A := fun s => (Ok a, s).

Definition throw {S A : Type} (message : string) : M S A :=
  fun s => (Throw message, s).

Definition lift {S A : Type} (r : result A) : M S A := fun s => (r, s).

Definition bind {S A B : Type} (c : M S A) (k : A -> M S B) : M S B :=
  fun s =>
    match c s with
    | (Ok a, s') => k a s'
    | (Throw message, s') => (Throw message, s')
    end.

(** [try { c } catch (e) { handler }]; the handler gets [e.message]. *)
Definition try_catch {S A : Type} (c : M S A) (handler : string -> M S A) : M S A :=
  fun s =>
    match c s with
    | (Ok a, s') => (Ok a, s')
    | (Throw message, s') => handler message s'
    end.

Declare Scope js_scope.
Delimit Scope js_scope with js.
Notation "x <- c ;; k" := (bind c (fun x => k))
  (at level 61, c at next level, right associativity) : js_scope.
Notation "c ;;; k" := (bind c (fun _ => k))
  (at level 61, right associativity) : js_scope.

(** ** The outside world: configuration, clock, the vendor and the XML parser *)

Module Http.

(** An upstream GET with HTTP Basic credentials ([user:password], before the
    base64 encoding the source applies). *)
Record request : Type := {
  req_url : string;
  req_user : string;
  req_password : string
}.

(** What the code reads of a vendor response: the status, the two header
    lookups of [getToken], and the body text. *)
Record response : Type := {
  status : Z;
  header_token : option string;   (* headers.get('token') / headers['token'] *)
  header_Token : option string;   (* headers.get('Token') / headers['Token'] *)
  body : string
}.

(** [response.ok], which is also the condition under which axios resolves. *)
Definition ok (r : response) : bool :=
  (200 <=? status r) && (status r <=? 299).

Inductive fetched : Type :=
| Rejected (message : string)     (* the request promise rejects *)
| Resolved (r : response).

End Http.

Record world : Type := {
  ALTO_USERNAME : string;
  ALTO_PASSWORD : string;
  ALTO_DATAFEED_ID : string;
  ALTO_BRANCH_ID : string;
  clock : nat -> Z;                       (* the n-th reading of Date.now() *)
  net : nat -> Http.request -> Http.fetched; (* the answer to the n-th request *)
  parseString : string -> result value    (* xml2js, explicitArray: true *)
}.

Definition apiBase (w : world) : string :=
  "https://webservices.vebra.com/export/" ++ ALTO_DATAFEED_ID w ++ "/v13".

(** [parseXml]: the promise around [parseString], the same in both files. *)
Definition parseXml {S : Type} (w : world) (xml : string) : M S value :=
  lift (parseString w xml).

(** The request for a token, the same in both files: the branch endpoint
    with the configured credentials. *)
Definition token_request (w : world) : Http.request :=
  {| Http.req_url := apiBase w ++ "/branch";
     Http.req_user := ALTO_USERNAME w; Http.req_password := ALTO_PASSWORD w |}.

(** [a || b] on values that are a string or [null]. *)
Definition str_or (a b : option string) : option string :=
  match a with
  | Some s => if String.eqb s "" then b else a
  | None => b
  end.

(** Truthiness of a value that is a string or [null]: the string, when it is
    not empty. *)
Definition nonempty (a : option string) : option string :=
  match a with
  | Some s => if String.eqb s "" then None else Some s
  | None => None
  end.

(** ** src/index.js *)

Module IndexJs.

Local Open Scope js_scope.

Definition TOKEN_TTL : Z := 20 * 60 * 1000.

(** The object literal [mapProperty] returns.  A field that holds
    [VUndefined] is left out when the reply is serialised. *)
Record listing : Type := {
  title : value;
  description : value;
  property_type : string;
  street_address : value;
  address : value;
  city : value;
  postcode : value;
  latitude : value;
  longitude : value;
  bedrooms : value;
  bathrooms : value;
  price_monthly : value;
  deposit_amount : value;
  available_from : value;
  furnished : bool;
  bills_included : bool;
  epc_rating : value;
  council_tax_band : value;
  images : value;
  floorplans : value;
  virtual_tours : value;
  amenities : value;
  landlord_email : value;
  landlord_account_type : string;
  status : string;
  external_id : value
}.

(** [mapProperty]: [None] is the [null] of the [catch] branch, taken when
    [property] is [null] or [undefined] and when one of the conversions of
    the object literal throws. *)
Definition mapProperty (property agentEmail : value) : option listing :=
  let attempt : result listing :=
    address_field <~ member property "address" ;;
    let address := js_or (optMember address_field "0") (VObj []) in
    price_field <~ member property "price" ;;
    let price := js_or (optMember price_field "0") (VObj []) in
    files_field <~ member property "files" ;;
    let files := js_or files_field (VArr []) in
    let fileList := as_array files in
    let images := urls_of_type "0" fileList in
    let floorplans := urls_of_type "2" fileList in
    let videos := urls_of_type "3" fileList in
    bullets_field <~ member property "bullets" ;;
    let bullets := js_or bullets_field (VArr []) in
    let bulletList := as_array bullets in
    let amenities := filter truthy (map (fun b => get b "bullet") bulletList) in
    rm_type <~ converting parseFloat (get property "rm_type") ;;
    latitude_read <~ converting parseFloat (get property "latitude") ;;
    longitude_read <~ converting parseFloat (get property "longitude") ;;
    bedrooms_read <~ converting parseInt (get property "bedrooms") ;;
    bathrooms_read <~ converting parseInt (get property "bathrooms") ;;
    price_read <~ converting parseFloat (get price "$t") ;;
    deposit_read <~ converting parseFloat (get property "deposit") ;;
    Ok {|
      title := js_or (js_or (get address "display") (get address "street"))
                 (VStr "Property");
      description := js_or (get property "description") (VStr "");
      property_type := mapType (num_or rm_type JsNumber.zero);
      street_address := js_or (get address "street") (VStr "");
      address := js_or (get address "display") (VStr "");
      city := js_or (get address "town") (VStr "");
      postcode := js_or (get address "postcode") (VStr "");
      latitude := num_or_null latitude_read;
      longitude := num_or_null longitude_read;
      bedrooms := VNum (num_or bedrooms_read JsNumber.zero);
      bathrooms := VNum (num_or bathrooms_read JsNumber.zero);
      price_monthly := num_or_null price_read;
      deposit_amount := num_or_null deposit_read;
      available_from := js_or (get property "available") (VStr "");
      furnished := is_string (get property "furnished") "1";
      bills_included := false;
      epc_rating := get property "epcrating_current";
      council_tax_band := get property "counciltaxband";
      images := nonempty_or_undefined images;
      floorplans := nonempty_or_undefined floorplans;
      virtual_tours := nonempty_or_undefined videos;
      amenities := nonempty_or_undefined amenities;
      landlord_email := js_or agentEmail VUndefined;
      landlord_account_type := "agent";
      status := "available";
      external_id := get property "prop_id"
    |} in
  match attempt with
  | Ok l => Some l
  | Throw _ => None
  end.

(** The keys of a listing in the JSON reply, with the values handed to
    [JSON.stringify]: it drops the properties whose value is [undefined]
    (and writes a number that is not finite as [null]). *)
Definition json_fields (l : listing) : list (string * value) :=
  filter (fun kv => negb (is_undefined (snd kv)))
    [ ("title", title l); ("description", description l);
      ("property_type", VStr (property_type l));
      ("street_address", street_address l); ("address", address l);
      ("city", city l); ("postcode", postcode l);
      ("latitude", latitude l); ("longitude", longitude l);
      ("bedrooms", bedrooms l); ("bathrooms", bathrooms l);
      ("price_monthly", price_monthly l);
      ("deposit_amount", deposit_amount l);
      ("available_from", available_from l);
      ("furnished", VBool (furnished l));
      ("bills_included", VBool (bills_included l));
      ("epc_rating", epc_rating l);
      ("council_tax_band", council_tax_band l);
      ("images", images l); ("floorplans", floorplans l);
      ("virtual_tours", virtual_tours l); ("amenities", amenities l);
      ("landlord_email", landlord_email l);
      ("landlord_account_type", VStr (landlord_account_type l));
      ("status", VStr (status l)); ("external_id", external_id l) ].

(** The classification of the import loop. *)
Definition classification_text (property : value) : string :=
  JsString.toLowerCase
    (join " " [ get property "letting_type"; get property "market";
                get property "description"; get property "title" ]).

Definition bedroom_count (property : value) : number :=
  num_or (parseInt (get property "bedrooms")) JsNumber.zero.

Definition isStudent (property : value) : bool :=
  let text := classification_text property in
  let bedrooms := bedroom_count property in
  JsString.includes text "student"
  || JsNumber.leb (JsNumber.of_Z 3) bedrooms
  || JsString.includes text "letting"
  || JsString.includes text "to let".

Definition isAvailable (property : value) : bool :=
  let webStatus := get property "web_status" in
  negb (truthy webStatus) || is_string webStatus "0" || is_string webStatus "100".

(** The module-level variables, and what the process has done so far. *)
Record state : Type := {
  cachedToken : option string;
  tokenTimestamp : option Z;
  ticks : nat;                   (* readings of Date.now() so far *)
  requests : list Http.request;  (* upstream requests issued, oldest first *)
  mapper_calls : list value      (* the records mapProperty was called on *)
}.

Definition initial : state :=
  {| cachedToken := None; tokenTimestamp := None; ticks := O;
     requests := []; mapper_calls := [] |}.

Definition tick (st : state) : state :=
  {| cachedToken := cachedToken st; tokenTimestamp := tokenTimestamp st;
     ticks := S (ticks st); requests := requests st;
     mapper_calls := mapper_calls st |}.

Definition add_request (r : Http.request) (st : state) : state :=
  {| cachedToken := cachedToken st; tokenTimestamp := tokenTimestamp st;
     ticks := ticks st; requests := requests st ++ [r];
     mapper_calls := mapper_calls st |}.

Definition add_mapper_call (property : value) (st : state) : state :=
  {| cachedToken := cachedToken st; tokenTimestamp := tokenTimestamp st;
     ticks := ticks st; requests := requests st;
     mapper_calls := mapper_calls st ++ [property] |}.

Definition set_token (token : string) (now : Z) (st : state) : state :=
  {| cachedToken := Some token; tokenTimestamp := Some now;
     ticks := ticks st; requests := requests st;
     mapper_calls := mapper_calls st |}.

(** [Date.now()] *)
Definition date_now (w : world) : M state Z :=
  fun st => (Ok (clock w (ticks st)), tick st).

(** [await fetch(url, { headers })] *)
Definition fetch (w : world) (r : Http.request) : M state Http.response :=
  fun st =>
    match net w (List.length (requests st)) r with
    | Http.Resolved resp => (Ok resp, add_request r st)
    | Http.Rejected message => (Throw message, add_request r st)
    end.

(** [cachedToken = token; tokenTimestamp = now] *)
Definition store_token (token : string) (now : Z) : M state unit :=
  fun st => (Ok tt, set_token token now st).

(** Trace only: [mapProperty] is about to be called on [property]. *)
Definition note_mapper_call (property : value) : M state unit :=
  fun st => (Ok tt, add_mapper_call property st).

(** [cachedToken && tokenTimestamp && (now - tokenTimestamp < TOKEN_TTL)]:
    the cached token when the test passes. *)
Definition cached (st : state) (now : Z) : option string :=
  match nonempty (cachedToken st), tokenTimestamp st with
  | Some token, Some timestamp =>
      if negb (timestamp =? 0) && (now - timestamp <? TOKEN_TTL)
      then Some token else None
  | _, _ => None
  end.

Definition getToken (w : world) : M state string :=
  now <- date_now w ;;
  fun st =>
    match cached st now with
    | Some token => ret token st
    | None =>
        (response <- fetch w (token_request w) ;;
         if negb (Http.ok response)
         then throw ("Failed to get token: " ++ JsNumber.digits_of_Z (Http.status response))
         else
           match nonempty (str_or (Http.header_token response) (Http.header_Token response)) with
           | None => throw "No token received from Alto"
           | Some token =>
               store_token token now ;;;
               ret token
           end) st
    end.

Definition fetchWithToken (w : world) (url token : string) : M state Http.response :=
  fetch w {| Http.req_url := url; Http.req_user := token; Http.req_password := "" |}.

(** The three local variables of the import loop. *)
Record tally : Type := {
  processedProperties : list listing;
  skipped : nat;
  errors : nat
}.

Definition skip (t : tally) : tally :=
  {| processedProperties := processedProperties t;
     skipped := S (skipped t); errors := errors t |}.

Definition fail (t : tally) : tally :=
  {| processedProperties := processedProperties t;
     skipped := skipped t; errors := S (errors t) |}.

Definition push (t : tally) (l : listing) : tally :=
  {| processedProperties := processedProperties t ++ [l];
     skipped := skipped t; errors := errors t |}.

(** One turn of [for (const propertyRef of propertyList)]. *)
Definition iteration (w : world) (token : string) (agentEmail : value)
    (t : tally) (propertyRef : value) : M state tally :=
  prop_id_field <- lift (member propertyRef "prop_id") ;;
  let propId := optMember prop_id_field "0" in
  url_field <- lift (member propertyRef "url") ;;
  let propertyUrl := optMember url_field "0" in
  if negb (truthy propId) || negb (truthy propertyUrl) then ret (skip t)
  else
    try_catch
      (propertyResponse <- fetchWithToken w (ToString propertyUrl) token ;;
       if negb (Http.ok propertyResponse) then ret (fail t)
       else
         propertyData <- parseXml w (Http.body propertyResponse) ;;
         property <- lift (member propertyData "property") ;;
         if negb (isStudent property) then ret (skip t)
         else if negb (isAvailable property) then ret (skip t)
         else
           note_mapper_call property ;;;
           match mapProperty property agentEmail with
           | Some kurblyProperty => ret (push t kurblyProperty)
           | None => ret (fail t)
           end)
      (fun _ => ret (fail t)).

Fixpoint loop (w : world) (token : string) (agentEmail : value)
    (t : tally) (propertyList : list value) : M state tally :=
  match propertyList with
  | [] => ret t
  | propertyRef :: rest =>
      t' <- iteration w token agentEmail t propertyRef ;;
      loop w token agentEmail t' rest
  end.

(** The JSON body of a successful reply ([timestamp] is the clock reading,
    before its formatting as an ISO date). *)
Record report : Type := {
  properties : list listing;
  total : nat;
  total_found : nat;
  report_skipped : nat;
  report_errors : nat;
  proxy_ip : value;
  timestamp : Z
}.

Inductive reply : Type :=
| Reply200 (r : report)
| Reply500 (error : string).

(** The handler of [POST /import], once the bearer check has passed. *)
Definition import (w : world) (req_body req_ip : value) : M state reply :=
  try_catch
    (agentEmail <- lift (member req_body "agent_email") ;;
     token <- getToken w ;;
     propertiesResponse <-
       fetchWithToken w (apiBase w ++ "/branch/" ++ ALTO_BRANCH_ID w ++ "/property") token ;;
     if negb (Http.ok propertiesResponse)
     then throw ("Failed to fetch properties: "
                 ++ JsNumber.digits_of_Z (Http.status propertiesResponse))
     else
       propertiesData <- parseXml w (Http.body propertiesResponse) ;;
       let properties :=
         js_or (optMember (optMember propertiesData "properties") "property") (VArr []) in
       let propertyList := as_array properties in
       t <- loop w token agentEmail
              {| processedProperties := []; skipped := O; errors := O |} propertyList ;;
       now <- date_now w ;;
       ret (Reply200
              {| properties := processedProperties t;
                 total := List.length (processedProperties t);
                 total_found := List.length propertyList;
                 report_skipped := skipped t;
                 report_errors := errors t;
                 proxy_ip := js_or req_ip (VStr "unknown");
                 timestamp := now |}))
    (fun message => ret (Reply500 message)).

End IndexJs.

(** ** src/unnamed/part_000, the second variant of the server *)

Module Part000.

Local Open Scope js_scope.

Definition TOKEN_LIFETIME : Z := 10 * 60 * 1000.

Record listing : Type := {
  title : value;
  description : value;
  property_type : string;
  street_address : value;
  address : value;
  city : value;
  postcode : value;
  bedrooms : value;
  bathrooms : value;
  price_monthly : value;
  images : value;
  floorplans : value;
  virtual_tours : value;
  landlord_email : value;
  external_id : value
}.

(** [mapProperty] of the second variant: fewer fields, the same [catch]. *)
Definition mapProperty (property agentEmail : value) : option listing :=
  let attempt : result listing :=
    address_field <~ member property "address" ;;
    let address := js_or (optMember address_field "0") (VObj []) in
    price_field <~ member property "price" ;;
    let price := js_or (optMember price_field "0") (VObj []) in
    files_field <~ member property "files" ;;
    let files := js_or files_field (VArr []) in
    let fileList := as_array files in
    let images := urls_of_type "0" fileList in
    let floorplans := urls_of_type "2" fileList in
    let videos := urls_of_type "3" fileList in
    rm_type <~ converting parseFloat (get property "rm_type") ;;
    bedrooms_read <~ converting parseInt (get property "bedrooms") ;;
    bathrooms_read <~ converting parseInt (get property "bathrooms") ;;
    price_read <~ converting parseFloat (get price "$t") ;;
    Ok {|
      title := js_or (js_or (get address "display") (get address "street"))
                 (VStr "Property");
      description := js_or (get property "description") (VStr "");
      property_type := mapType (num_or rm_type JsNumber.zero);
      street_address := js_or (get address "street") (VStr "");
      address := js_or (get address "display") (VStr "");
      city := js_or (get address "town") (VStr "");
      postcode := js_or (get address "postcode") (VStr "");
      bedrooms := VNum (num_or bedrooms_read JsNumber.zero);
      bathrooms := VNum (num_or bathrooms_read JsNumber.zero);
      price_monthly := num_or_null price_read;
      images := nonempty_or_undefined images;
      floorplans := nonempty_or_undefined floorplans;
      virtual_tours := nonempty_or_undefined videos;
      landlord_email := js_or agentEmail VUndefined;
      external_id := get property "prop_id"
    |} in
  match attempt with
  | Ok l => Some l
  | Throw _ => None
  end.

Definition json_fields (l : listing) : list (string * value) :=
  filter (fun kv => negb (is_undefined (snd kv)))
    [ ("title", title l); ("description", description l);
      ("property_type", VStr (property_type l));
      ("street_address", street_address l); ("address", address l);
      ("city", city l); ("postcode", postcode l);
      ("bedrooms", bedrooms l); ("bathrooms", bathrooms l);
      ("price_monthly", price_monthly l);
      ("images", images l); ("floorplans", floorplans l);
      ("virtual_tours", virtual_tours l);
      ("landlord_email", landlord_email l);
      ("external_id", external_id l) ].

Definition classification_text (property : value) : string :=
  JsString.toLowerCase
    (join " " [ get property "letting_type"; get property "market";
                get property "description"; get property "title" ]).

Definition bedroom_count (property : value) : number :=
  num_or (parseInt (get property "bedrooms")) JsNumber.zero.

Definition isStudent (property : value) : bool :=
  let text := classification_text property in
  let bedrooms := bedroom_count property in
  JsString.includes text "student" || JsNumber.leb (JsNumber.of_Z 3) bedrooms.

Definition isAvailable (property : value) : bool :=
  let webStatus := get property "web_status" in
  negb (truthy webStatus) || is_string webStatus "0" || is_string webStatus "100".

Record state : Type := {
  cachedToken : option string;
  tokenExpiry : option Z;
  ticks : nat;
  requests : list Http.request;
  mapper_calls : list value
}.

Definition initial : state :=
  {| cachedToken := None; tokenExpiry := None; ticks := O;
     requests := []; mapper_calls := [] |}.

Definition tick (st : state) : state :=
  {| cachedToken := cachedToken st; tokenExpiry := tokenExpiry st;
     ticks := S (ticks st); requests := requests st;
     mapper_calls := mapper_calls st |}.

Definition add_request (r : Http.request) (st : state) : state :=
  {| cachedToken := cachedToken st; tokenExpiry := tokenExpiry st;
     ticks := ticks st; requests := requests st ++ [r];
     mapper_calls := mapper_calls st |}.

Definition add_mapper_call (property : value) (st : state) : state :=
  {| cachedToken := cachedToken st; tokenExpiry := tokenExpiry st;
     ticks := ticks st; requests := requests st;
     mapper_calls := mapper_calls st ++ [property] |}.

Definition set_token (token : string) (expiry : Z) (st : state) : state :=
  {| cachedToken := Some token; tokenExpiry := Some expiry;
     ticks := ticks st; requests := requests st;
     mapper_calls := mapper_calls st |}.

Definition date_now (w : world) : M state Z :=
  fun st => (Ok (clock w (ticks st)), tick st).

(** [await axios.get(url, { headers })]: rejects on a network failure and
    on a status outside 200..299. *)
Definition axios_get (w : world) (r : Http.request) : M state Http.response :=
  fun st =>
    match net w (List.length (requests st)) r with
    | Http.Resolved resp =>
        if Http.ok resp then (Ok resp, add_request r st)
        else (Throw ("Request failed with status code "
                     ++ JsNumber.digits_of_Z (Http.status resp)), add_request r st)
    | Http.Rejected message => (Throw message, add_request r st)
    end.

(** [cachedToken = token; tokenExpiry = expiry] *)
Definition store_token (token : string) (expiry : Z) : M state unit :=
  fun st => (Ok tt, set_token token expiry st).

Definition note_mapper_call (property : value) : M state unit :=
  fun st => (Ok tt, add_mapper_call property st).

(** [cachedToken && tokenExpiry && Date.now() < tokenExpiry]: the clock is
    read only when the first two operands are truthy. *)
Definition cached (w : world) : M state (option string) :=
  fun st =>
    match nonempty (cachedToken st), tokenExpiry st with
    | Some token, Some expiry =>
        if negb (expiry =? 0)
        then (now <- date_now w ;;
              ret (if now <? expiry then Some token else None)) st
        else (Ok None, st)
    | _, _ => (Ok None, st)
    end.

Definition getToken (w : world) : M state string :=
  hit <- cached w ;;
  match hit with
  | Some token => ret token
  | None =>
      response <- axios_get w (token_request w) ;;
      match nonempty (str_or (Http.header_token response) (Http.header_Token response)) with
      | None => throw "No token received from Alto"
      | Some token =>
          now <- date_now w ;;
          store_token token (now + TOKEN_LIFETIME) ;;;
          ret token
      end
  end.

(** [fetchFromAlto]: [response.data], the body as axios hands it over; what
    xml2js then makes of it is [parseString]. *)
Definition fetchFromAlto (w : world) (url token : string) : M state string :=
  response <- axios_get w {| Http.req_url := url; Http.req_user := token;
                             Http.req_password := "" |} ;;
  ret (Http.body response).

Record tally : Type := {
  processedProperties : list listing;
  skipped : nat
}.

Definition skip (t : tally) : tally :=
  {| processedProperties := processedProperties t; skipped := S (skipped t) |}.

Definition push (t : tally) (l : listing) : tally :=
  {| processedProperties := processedProperties t ++ [l]; skipped := skipped t |}.

Definition iteration (w : world) (token : string) (agent_email : value)
    (t : tally) (propRef : value) : M state tally :=
  prop_id_field <- lift (member propRef "prop_id") ;;
  let propId := optMember prop_id_field "0" in
  url_field <- lift (member propRef "url") ;;
  let propertyUrl := optMember url_field "0" in
  if negb (truthy propId) || negb (truthy propertyUrl) then ret (skip t)
  else
    try_catch
      (propertyXml <- fetchFromAlto w (ToString propertyUrl) token ;;
       propertyData <- parseXml w propertyXml ;;
       property <- lift (member propertyData "property") ;;
       if negb (isStudent property) then ret (skip t)
       else if negb (isAvailable property) then ret (skip t)
       else
         note_mapper_call property ;;;
         match mapProperty property agent_email with
         | Some mapped => ret (push t mapped)
         | None => ret t
         end)
      (fun _ => ret (skip t)).

Fixpoint loop (w : world) (token : string) (agent_email : value)
    (t : tally) (propertyList : list value) : M state tally :=
  match propertyList with
  | [] => ret t
  | propRef :: rest =>
      t' <- iteration w token agent_email t propRef ;;
      loop w token agent_email t' rest
  end.

Record report : Type := {
  properties : list listing;
  total_found : nat;
  total : nat;
  report_skipped : nat;
  proxy_ip : value
}.

Inductive reply : Type :=
| Reply200 (r : report)
| Reply500 (error : string).

(** The handler of [POST /import], after [authenticate]. *)
Definition import (w : world) (req_body forwarded_for remoteAddress : value)
    : M state reply :=
  try_catch
    (agent_email <- lift (destructure req_body "req.body" "agent_email") ;;
     token <- getToken w ;;
     propertiesXml <-
       fetchFromAlto w (apiBase w ++ "/branch/" ++ ALTO_BRANCH_ID w ++ "/property") token ;;
     propertiesData <- parseXml w propertiesXml ;;
     let properties :=
       js_or (optMember (optMember propertiesData "properties") "property") (VArr []) in
     let propertyList := as_array properties in
     t <- loop w token agent_email
            {| processedProperties := []; skipped := O |} propertyList ;;
     ret (Reply200
            {| properties := processedProperties t;
               total_found := List.length propertyList;
               total := List.length (processedProperties t);
               report_skipped := skipped t;
               proxy_ip := js_or forwarded_for remoteAddress |}))
    (fun message => ret (Reply500 message)).

End Part000.

(** ** Notions used to state the properties *)

(** The chain of plain optional lookups [obj?.[k1]?.[k2]...], with no early
    exit and no array substitution. *)
Definition resolve (obj : value) (keys : list string) : value :=
  fold_left optMember keys obj.

(** What [get] does with the value the path resolves to. *)
Definition finish (reached : value) : value :=
  match reached with
  | VArr (first :: _) => first
  | _ => js_or reached VNull
  end.

(** A non-empty array stands for its first element. *)
Definition first_of_array (v : value) : value :=
  match v with
  | VArr (first :: _) => first
  | _ => v
  end.

(** The accessor as the specification words it: a non-empty array is replaced
    by its first element before each descent. *)
Fixpoint walk_as_specified (current : value) (keys : list string) : option value :=
  match keys with
  | [] => Some current
  | key :: rest =>
      let next := optMember (first_of_array current) key in
      if is_undefined next then None else walk_as_specified next rest
  end.

Definition get_as_specified (obj : value) (path : string) : value :=
  match walk_as_specified obj (JsString.split "." path) with
  | None => VNull
  | Some reached => finish reached
  end.



(** The rational a finite number stands for. *)
Definition rational (m e : Z) : Q := (inject_Z m * inject_Z 10 ^ e)%Q.

(** A parse result with its default 0 on failure. *)
Definition or_zero (n : number) : number :=
  match n with
  | NaN => JsNumber.zero
  | _ => n
  end.

(** [mapType] as the specification words it: only the integers 1..6 give a house. *)
Definition mapType_as_specified (rmType : number) : string :=
  if JsNumber.is_integer_in 1 6 rmType then "house"
  else if JsNumber.eqb rmType (JsNumber.of_Z 9) then "studio"
  else "flat".

(** A floating-point field as the specification words it: the parsed number
    whenever the vendor value parses, [null] otherwise. *)
Definition float_as_specified (v : value) : value :=
  match parseFloat v with
  | NaN => VNull
  | n => VNum n
  end.

(** A floating-point field of the listing: [null] when the vendor value does
    not parse or parses to zero, the parsed number otherwise. *)
Definition float_field (v : value) : value :=
  match parseFloat v with
  | NaN => VNull
  | Finite Z0 _ => VNull
  | n => VNum n
  end.

(** An integer field of the listing: the parsed integer, 0 when the vendor
    value does not parse. *)
Definition int_field (v : value) : value := VNum (or_zero (parseInt v)).

(** [property.price?.[0] || {}] of a record that is an object. *)
Definition price_of (property : value) : value :=
  js_or (optMember (getProp property "price") "0") (VObj []).

(** [property.address?.[0] || {}] of a record that is an object. *)
Definition address_of (property : value) : value :=
  js_or (optMember (getProp property "address") "0") (VObj []).

(** The values the object literal of [mapProperty] converts to numbers, in
    the order in which it does: src/index.js, then the second variant. *)
Definition IndexJs_numeric_inputs (property : value) : list value :=
  [ get property "rm_type"; get property "latitude"; get property "longitude";
    get property "bedrooms"; get property "bathrooms";
    get (price_of property) "$t"; get property "deposit" ].

Definition Part000_numeric_inputs (property : value) : list value :=
  [ get property "rm_type"; get property "bedrooms"; get property "bathrooms";
    get (price_of property) "$t" ].

(** [mapProperty] makes a listing of the record: it is neither [null] nor
    [undefined], and every value the object literal converts to a number
    can be converted. *)
Definition IndexJs_mappable (property : value) : bool :=
  negb (nullish property) && forallb convertible (IndexJs_numeric_inputs property).

Definition Part000_mappable (property : value) : bool :=
  negb (nullish property) && forallb convertible (Part000_numeric_inputs property).

(** A text field of the listing: the value read when it is truthy, the empty
    string otherwise. *)
Definition read_or_empty (field read : value) : Prop :=
  (truthy read = true -> field = read) /\ (truthy read = false -> field = VStr "").

(** The entries of the [files] field of a record that is an object. *)
Definition file_entries (property : value) : list value :=
  as_array (js_or (getProp property "files") (VArr [])).

(** How a list of attachments shows in the listing and in its JSON: the
    array when there is an item, no key at all when there is none. *)
Definition emitted (found : list value) (field : value) (json : option value) : Prop :=
  match found with
  | [] => field = VUndefined /\ json = None
  | _ :: _ => field = VArr found /\ json = Some (VArr found)
  end.

(** No string occurs twice. *)
Fixpoint distinct (keys : list string) : bool :=
  match keys with
  | [] => true
  | k :: rest => negb (existsb (String.eqb k) rest) && distinct rest
  end.


(** [propertyRef.prop_id?.[0]] and [propertyRef.url?.[0]] of an entry that is
    neither [null] nor [undefined]. *)
Definition ref_id (propertyRef : value) : value :=
  optMember (getProp propertyRef "prop_id") "0".

Definition ref_url (propertyRef : value) : value :=
  optMember (getProp propertyRef "url") "0".

Definition detail_request (url : value) (token : string) : Http.request :=
  {| Http.req_url := ToString url; Http.req_user := token; Http.req_password := "" |}.



(** The record a detail fetch yields when the vendor answers the [n]-th
    request with a 2xx status and a body that parses. *)
Definition fetched_property (w : world) (n : nat) (url : value) (token : string)
    : option value :=
  match net w n (detail_request url token) with
  | Http.Resolved resp =>
      if Http.ok resp then
        match parseString w (Http.body resp) with
        | Ok propertyData =>
            match member propertyData "property" with
            | Ok property => Some property
            | Throw _ => None
            end
        | Throw _ => None
        end
      else None
  | Http.Rejected _ => None
  end.

(** The token the vendor grants in its answer to the [n]-th request: the
    answer is 2xx and its token header is a non-empty string. *)
Definition granted (w : world) (n : nat) : option string :=
  match net w n (token_request w) with
  | Http.Resolved resp =>
      if Http.ok resp
      then nonempty (str_or (Http.header_token resp) (Http.header_Token resp))
      else None
  | Http.Rejected _ => None
  end.

(** In src/index.js: a cached token exists and its age at [now] is below the
    TTL. *)
Definition IndexJs_cache_valid (st : IndexJs.state) (now : Z) (token : string) : Prop :=
  exists timestamp,
    IndexJs.cachedToken st = Some token /\ token <> ""
    /\ IndexJs.tokenTimestamp st = Some timestamp /\ timestamp <> 0
    /\ now - timestamp < IndexJs.TOKEN_TTL.

(** In the second variant: a cached token exists and [now] is before its
    expiry. *)
Definition Part000_cache_valid (st : Part000.state) (now : Z) (token : string) : Prop :=
  exists expiry,
    Part000.cachedToken st = Some token /\ token <> ""
    /\ Part000.tokenExpiry st = Some expiry /\ expiry <> 0
    /\ now < expiry.

(** ** A sample vendor, for concrete runs *)

Module Sample.

Definition house : value :=
  VObj [ ("prop_id", VArr [VStr "101"]);
         ("address", VArr [VObj [("display", VArr [VStr "1 High Street, Leeds"]);
                                 ("street", VArr [VStr "1 High Street"]);
                                 ("town", VArr [VStr "Leeds"]);
                                 ("postcode", VArr [VStr "LS1 1AA"])]]);
         ("bedrooms", VArr [VStr "4"]);
         ("web_status", VArr [VStr "0"]);
         ("rm_type", VArr [VStr "2"]);
         ("latitude", VArr [VStr "53.8"]);
         ("files", VArr [VObj [("type", VStr "0"); ("url", VStr "http://x/img.jpg")];
                         VObj [("type", VStr "0")];
                         VObj [("type", VStr "2"); ("url", VStr "http://x/plan.pdf")]]) ].

(** One bedroom, marketed to let, withdrawn from the web. *)
Definition withdrawn : value :=
  VObj [ ("prop_id", VArr [VStr "102"]);
         ("title", VArr [VStr "Flat To Let"]);
         ("bedrooms", VArr [VStr "1"]);
         ("web_status", VArr [VStr "1"]) ].

Definition listing_xml : value :=
  VObj [("properties",
         VObj [("property",
                VArr [ VObj [("prop_id", VArr [VStr "101"]);
                             ("url", VArr [VStr "https://vendor/property/101"])];
                       VObj [("prop_id", VArr [VStr "102"])];
                       VObj [("prop_id", VArr [VStr "103"]);
                             ("url", VArr [VStr "https://vendor/property/103"])];
                       VObj [("prop_id", VArr [VStr "104"]);
                             ("url", VArr [VStr "https://vendor/property/104"])] ])])].

Definition answer (code : Z) (token : option string) (text : string) : Http.fetched :=
  Http.Resolved {| Http.status := code; Http.header_token := token;
                   Http.header_Token := None; Http.body := text |}.

Definition vendor : world :=
  {| ALTO_USERNAME := "user"; ALTO_PASSWORD := "secret";
     ALTO_DATAFEED_ID := "FEED"; ALTO_BRANCH_ID := "44928";
     clock := fun n => 1700000000000 + Z.of_nat n;
     net := fun _ r =>
       let url := Http.req_url r in
       if String.eqb url "https://webservices.vebra.com/export/FEED/v13/branch"
       then answer 200 (Some "TOKEN-1") ""
       else if String.eqb url "https://webservices.vebra.com/export/FEED/v13/branch/44928/property"
       then answer 200 None "<properties/>"
       else if String.eqb url "https://vendor/property/101" then answer 200 None "<house/>"
       else if String.eqb url "https://vendor/property/103" then answer 200 None "<withdrawn/>"
       else answer 404 None "";
     parseString := fun text =>
       if String.eqb text "<properties/>" then Ok listing_xml
       else if String.eqb text "<house/>" then Ok (VObj [("property", house)])
       else if String.eqb text "<withdrawn/>" then Ok (VObj [("property", withdrawn)])
       else Throw "Unexpected end" |}.

(** Three bedrooms, and an [rm_type] element with a child element named
    [toString]: the record passes both predicates and cannot be mapped. *)
Definition unmappable : value :=
  VObj [ ("prop_id", VArr [VStr "105"]);
         ("bedrooms", VArr [VStr "3"]);
         ("rm_type", VArr [VObj [("toString", VArr [VStr "1"])]]) ].

(** A [latitude] element with a child element named [toString]: only
    src/index.js reads the latitude. *)
Definition unlocated : value :=
  VObj [ ("prop_id", VArr [VStr "106"]);
         ("bedrooms", VArr [VStr "3"]);
         ("latitude", VArr [VObj [("toString", VArr [VStr "1"])]]) ].

(** A vendor whose list has that record only. *)
Definition odd_vendor : world :=
  {| ALTO_USERNAME := "user"; ALTO_PASSWORD := "secret";
     ALTO_DATAFEED_ID := "FEED"; ALTO_BRANCH_ID := "44928";
     clock := fun n => 1700000000000 + Z.of_nat n;
     net := fun _ r =>
       let url := Http.req_url r in
       if String.eqb url "https://webservices.vebra.com/export/FEED/v13/branch"
       then answer 200 (Some "TOKEN-1") ""
       else if String.eqb url "https://webservices.vebra.com/export/FEED/v13/branch/44928/property"
       then answer 200 None "<properties/>"
       else answer 200 None "<unmappable/>";
     parseString := fun text =>
       if String.eqb text "<properties/>"
       then Ok (VObj [("properties",
                       VObj [("property",
                              VArr [ VObj [("prop_id", VArr [VStr "105"]);
                                           ("url", VArr [VStr "https://vendor/property/105"])] ])])])
       else Ok (VObj [("property", unmappable)]) |}.

(** A vendor that refuses the credentials. *)
Definition refusing : world :=
  {| ALTO_USERNAME := "user"; ALTO_PASSWORD := "wrong";
     ALTO_DATAFEED_ID := "FEED"; ALTO_BRANCH_ID := "44928";
     clock := fun n => 1700000000000 + Z.of_nat n;
     net := fun _ _ => answer 401 None "";
     parseString := fun _ => Throw "Unexpected end" |}.

End Sample.

(** ** The HTTP surface of the two servers *)

Module Req.

(** What the middleware and the handlers read of an incoming request. *)
Record incoming : Type := {
  path : string;            (* req.path *)
  authorization : value;    (* req.headers.authorization *)
  body : value;             (* req.body *)
  ip : value;               (* req.ip *)
  forwarded_for : value;    (* req.headers['x-forwarded-for'] *)
  remoteAddress : value     (* req.connection.remoteAddress *)
}.

End Req.

(** src/index.js: the middleware registered with [app.use] runs before both
    routes. *)
Module IndexJsApp.

Local Open Scope js_scope.

Inductive answer : Type :=
| Unauthorized                 (* 401 { error: 'Unauthorized' } *)
| Health (timestamp : Z)       (* 200 { status: 'ok', service, timestamp } *)
| Imported (r : IndexJs.reply).

(** [app.use((req, res, next) => ...)]; [next] is the rest of the chain. *)
Definition guard (PROXY_SECRET : value) (req : Req.incoming)
    (next : M IndexJs.state answer) : M IndexJs.state answer :=
  if String.eqb (Req.path req) "/health" then next
  else
    let authHeader := Req.authorization req in
    let expectedAuth := "Bearer " ++ ToString PROXY_SECRET in
    if negb (truthy authHeader) || negb (is_string authHeader expectedAuth)
    then ret Unauthorized
    else next.

(** [app.get('/health', ...)] *)
Definition health (w : world) : M IndexJs.state answer :=
  now <- IndexJs.date_now w ;;
  ret (Health now).

(** A request that Express routes to the handler of [GET /health]. *)
Definition get_health (w : world) (PROXY_SECRET : value) (req : Req.incoming)
    : M IndexJs.state answer :=
  guard PROXY_SECRET req (health w).

(** A request that Express routes to the handler of [POST /import]. *)
Definition post_import (w : world) (PROXY_SECRET : value) (req : Req.incoming)
    : M IndexJs.state answer :=
  guard PROXY_SECRET req
    (r <- IndexJs.import w (Req.body req) (Req.ip req) ;;
     ret (Imported r)).

End IndexJsApp.

(** src/unnamed/part_000: [authenticate] is attached to [POST /import] only. *)
Module Part000App.

Local Open Scope js_scope.

Inductive answer : Type :=
| Unauthorized                 (* 401 { success: false, error: 'Unauthorized' } *)
| Health (server_ip : value)   (* 200 { status: 'ok', message, server_ip } *)
| Imported (r : Part000.reply).

Definition authenticate (PROXY_SECRET : value) (req : Req.incoming)
    (next : M Part000.state answer) : M Part000.state answer :=
  let authHeader := Req.authorization req in
  if negb (truthy authHeader)
     || negb (is_string authHeader ("Bearer " ++ ToString PROXY_SECRET))
  then ret Unauthorized
  else next.

Definition get_health (req : Req.incoming) : M Part000.state answer :=
  ret (Health (js_or (Req.forwarded_for req) (Req.remoteAddress req))).

Definition post_import (w : world) (PROXY_SECRET : value) (req : Req.incoming)
    : M Part000.state answer :=
  authenticate PROXY_SECRET req
    (r <- Part000.import w (Req.body req) (Req.forwarded_for req)
            (Req.remoteAddress req) ;;
     ret (Imported r)).

End Part000App.

(** ** Notions used to state the further properties *)

(** The request for the property list of the branch, made with a token. *)
Definition list_request (w : world) (token : string) : Http.request :=
  {| Http.req_url := apiBase w ++ "/branch/" ++ ALTO_BRANCH_ID w ++ "/property";
     Http.req_user := token; Http.req_password := "" |}.

(** A request made the vendor's way with [token]: the token as user name and
    an empty password. *)
Definition carries (token : string) (r : Http.request) : Prop :=
  Http.req_user r = token /\ Http.req_password r = "".

(** A record that passed both predicates of the loop. *)
Definition IndexJs_passed (property : value) : Prop :=
  IndexJs.isStudent property = true /\ IndexJs.isAvailable property = true.

Definition Part000_passed (property : value) : Prop :=
  Part000.isStudent property = true /\ Part000.isAvailable property = true.

(** The listings [mapProperty] makes of the records it is called on, in
    order; a call that returns [null] contributes none. *)
Definition IndexJs_mapped (agentEmail : value) (calls : list value)
    : list IndexJs.listing :=
  flat_map (fun property =>
              match IndexJs.mapProperty property agentEmail with
              | Some l => [l]
              | None => []
              end) calls.

Definition Part000_mapped (agent_email : value) (calls : list value)
    : list Part000.listing :=
  flat_map (fun property =>
              match Part000.mapProperty property agent_email with
              | Some l => [l]
              | None => []
              end) calls.

(** The token cache of src/index.js never holds an empty token, and holds a
    time whenever it holds a token. *)
Definition IndexJs_cache_ok (st : IndexJs.state) : Prop :=
  match IndexJs.cachedToken st with
  | None => True
  | Some token => token <> "" /\ IndexJs.tokenTimestamp st <> None
  end.

Definition Part000_cache_ok (st : Part000.state) : Prop :=
  match Part000.cachedToken st with
  | None => True
  | Some token => token <> "" /\ Part000.tokenExpiry st <> None
  end.

(** The entries of a parsed property list:
    [propertiesData?.properties?.property || []], made an array. *)
Definition entries_of (propertiesData : value) : list value :=
  as_array (js_or (optMember (optMember propertiesData "properties") "property")
              (VArr [])).

(** The entries of the [bullets] field of a record that is an object. *)
Definition bullet_entries (property : value) : list value :=
  as_array (js_or (getProp property "bullets") (VArr [])).

(** The counters of src/index.js before the first turn of the loop. *)
Definition IndexJs_start : IndexJs.tally :=
  {| IndexJs.processedProperties := []; IndexJs.skipped := O; IndexJs.errors := O |}.

Definition Part000_start : Part000.tally :=
  {| Part000.processedProperties := []; Part000.skipped := O |}.

(** The successful reply of src/index.js for final counters [t], a list of
    [found] entries, the caller's address and the time read at the end. *)
Definition IndexJs_report (t : IndexJs.tally) (found : nat) (req_ip : value) (now : Z)
    : IndexJs.reply :=
  IndexJs.Reply200
    {| IndexJs.properties := IndexJs.processedProperties t;
       IndexJs.total := List.length (IndexJs.processedProperties t);
       IndexJs.total_found := found;
       IndexJs.report_skipped := IndexJs.skipped t;
       IndexJs.report_errors := IndexJs.errors t;
       IndexJs.proxy_ip := js_or req_ip (VStr "unknown");
       IndexJs.timestamp := now |}.

Definition Part000_report (t : Part000.tally) (found : nat)
    (forwarded_for remoteAddress : value) : Part000.reply :=
  Part000.Reply200
    {| Part000.properties := Part000.processedProperties t;
       Part000.total_found := found;
       Part000.total := List.length (Part000.processedProperties t);
       Part000.report_skipped := Part000.skipped t;
       Part000.proxy_ip := js_or forwarded_for remoteAddress |}.

(** * Properties *)

(** ** Numerals *)

(** Numerals are rounded to binary64 when they are read: beyond seventeen
    digits the last ones are lost, a numeral above the range is an infinity
    and one below it is zero. *)
Example numerals_are_rounded :
  parseFloat (VStr "6.0000000000000001") = Finite 6 0
  /\ parseFloat (VStr "0.1")
     = Finite 1000000000000000055511151231257827021181583404541015625 (-55)
  /\ parseFloat (VStr "1e-400") = Finite 0 0
  /\ parseFloat (VStr "1e400") = Infinity false
  /\ parseFloat (VStr "-2.50 pcm") = Finite (-25) (-1)
  /\ parseInt (VStr "9007199254740993") = Finite 9007199254740992 0
  /\ parseInt (VStr "0x1F") = Finite 31 0
  /\ parseInt (VStr "12.7") = Finite 12 0
  /\ parseInt (VStr "three") = NaN.
Proof. repeat split; vm_compute; reflexivity. Qed.

(** A number is printed with the fewest digits that read back as the same
    binary64 value. *)
Example numbers_are_printed_shortest :
  ToString (VNum (parseFloat (VStr "0.1"))) = "0.1"
  /\ ToString (VNum (parseFloat (VStr "53.80"))) = "53.8"
  /\ ToString (VNum (parseFloat (VStr "0.30000000000000004"))) = "0.30000000000000004"
  /\ ToString (VNum (parseFloat (VStr "-1e21"))) = "-1e+21"
  /\ ToString (VNum (parseFloat (VStr "0.000001"))) = "0.000001"
  /\ ToString (VNum (parseFloat (VStr "1e-7"))) = "1e-7".
Proof. repeat split; vm_compute; reflexivity. Qed.

(** Conversion to a string throws on an object with an own [toString], also
    inside an array; any other object gives [[object Object]]. *)
Example conversion_of_objects :
  convertible (VObj [("_", VStr "1"); ("toString", VArr [VStr "x"])]) = false
  /\ convertible (VArr [VStr "a"; VObj [("toString", VArr [VStr "x"])]]) = false
  /\ convertible (VObj [("_", VStr "1")]) = true
  /\ ToString (VObj [("_", VStr "1")]) = "[object Object]"
  /\ ToString (VArr [VStr "a"; VNull; VObj []]) = "a,,[object Object]"
  /\ converting parseFloat (VObj [("toString", VArr [VStr "1"])])
     = Throw "Cannot convert object to primitive value"
  /\ converting parseFloat (VStr "1.5") = Ok (Finite 15 (-1)).
Proof. repeat split; reflexivity. Qed.

(** ** The field accessor *)

Lemma resolve_undefined (keys : list string) : resolve VUndefined keys = VUndefined.
Proof.
  unfold resolve. induction keys as [|key rest IH]; simpl; [reflexivity|exact IH].
Qed.

Lemma resolve_app (obj : value) (before after : list string) :
  resolve obj (before ++ after) = resolve (resolve obj before) after.
Proof. unfold resolve. apply fold_left_app. Qed.

Lemma resolve_cut (obj : value) (before after : list string) :
  resolve obj before = VUndefined -> resolve obj (before ++ after) = VUndefined.
Proof.
  intros H. rewrite resolve_app, H. apply resolve_undefined.
Qed.

Lemma is_undefined_true (v : value) : is_undefined v = true -> v = VUndefined.
Proof. destruct v; simpl; intros H; try discriminate; reflexivity. Qed.

(** The loop of [get] stops exactly when the chain of lookups is undefined. *)
Lemma get_walk_resolve (keys : list string) :
  keys <> [] ->
  forall obj,
    get_walk obj keys =
    if is_undefined (resolve obj keys) then None else Some (resolve obj keys).
Proof.
  induction keys as [|key rest IH]; intros Hne obj; [congruence|].
  simpl. destruct (is_undefined (optMember obj key)) eqn:Hu.
  - apply is_undefined_true in Hu.
    change (resolve obj (key :: rest)) with (resolve (optMember obj key) rest).
    rewrite Hu, resolve_undefined. reflexivity.
  - destruct rest as [|key' rest'].
    + simpl. unfold resolve. simpl. rewrite Hu. reflexivity.
    + change (resolve obj (key :: key' :: rest'))
        with (resolve (optMember obj key) (key' :: rest')).
      apply IH. discriminate.
Qed.

Lemma split_nonempty (sep : ascii) (s : string) : JsString.split sep s <> [].
Proof.
  induction s as [|c t IH]; simpl; [discriminate|].
  destruct (Ascii.eqb c sep); [discriminate|].
  destruct (JsString.split sep t); discriminate.
Qed.

Lemma get_finish_resolve (obj : value) (path : string) :
  get obj path = finish (resolve obj (JsString.split "." path)).
Proof.
  unfold get. rewrite get_walk_resolve by apply split_nonempty.
  destruct (is_undefined (resolve obj (JsString.split "." path))) eqn:Hu.
  - apply is_undefined_true in Hu. rewrite Hu. reflexivity.
  - reflexivity.
Qed.

Lemma finish_falsy (v : value) : truthy v = false -> finish v = VNull.
Proof.
  destruct v; simpl; intros H; try discriminate; try reflexivity;
    unfold js_or; simpl; rewrite H; reflexivity.
Qed.

(** Reading one key. *)
Lemma get_single (obj : value) (key : string) :
  JsString.split "." key = [key] -> get obj key = finish (optMember obj key).
Proof. intros H. rewrite get_finish_resolve, H. reflexivity. Qed.

(** C1 (amended): [get] walks the path segment by segment by optional
    lookups made on the value reached itself, with no substitution between
    segments: it returns what [finish] makes of the value the chain of lookups
    reaches (the first element when that last value is a non-empty array);
    it returns [null] as soon as the lookups up to some segment give
    [undefined]; from an array met before a further segment it goes on with
    what the lookup of that segment gives on the array, not on its first
    element; and on [null] or [undefined] it returns [null] rather than
    throwing. *)
Theorem get_walks_plain_lookups (obj : value) (path : string) :
  let keys := JsString.split "." path in
  get obj path = finish (resolve obj keys)
  /\ (forall before after,
        keys = (before ++ after)%list -> resolve obj before = VUndefined ->
        get obj path = VNull)
  /\ (forall before key after items,
        keys = (before ++ key :: after)%list -> resolve obj before = VArr items ->
        get obj path = finish (resolve (optMember (VArr items) key) after))
  /\ (nullish obj = true -> get obj path = VNull).
Proof.
  intros keys. pose proof (get_finish_resolve obj path) as Hget. fold keys in Hget.
  assert (Hcut : forall before after,
             keys = (before ++ after)%list -> resolve obj before = VUndefined ->
             get obj path = VNull).
  { intros before after Hk Hu. rewrite Hget, Hk, (resolve_cut _ _ _ Hu). reflexivity. }
  repeat split.
  - exact Hget.
  - exact Hcut.
  - intros before key after items Hk Harr.
    rewrite Hget, Hk, resolve_app, Harr. reflexivity.
  - intros Hn. destruct keys as [|k rest] eqn:Hk.
    + exfalso. apply (split_nonempty "." path). exact Hk.
    + apply (Hcut [k] rest); [reflexivity|].
      unfold resolve, optMember; simpl. rewrite Hn. reflexivity.
Qed.

Lemma get_walks_plain_lookups_witness :
  get Sample.house "address.display" = VNull.
Proof.
  exact (proj1 (proj2 (get_walks_plain_lookups Sample.house "address.display"))
           ["address"; "display"] [] eq_refl eq_refl).
Defined.

(** C1, as stated, fails: the address of the sample record is held in a
    one-element array; descending through it gives [null], where the accessor
    of the specification would give the display line.  The source reaches the
    line only through the explicit index. *)
Lemma get_does_not_unwrap_between_segments :
  get Sample.house "address.display" = VNull
  /\ get_as_specified Sample.house "address.display" = VStr "1 High Street, Leeds"
  /\ get Sample.house "address.0.display" = VStr "1 High Street, Leeds".
Proof. repeat split; reflexivity. Qed.

(** ** The JSON of a listing *)

Lemma assoc_filter_absent (keep : string * value -> bool) (key : string)
    (fields : list (string * value)) :
  existsb (String.eqb key) (map fst fields) = false ->
  assoc key (filter keep fields) = None.
Proof.
  induction fields as [|[k x] rest IH]; simpl; [reflexivity|].
  intros H. apply orb_false_iff in H. destruct H as [Hk Hrest].
  destruct (keep (k, x)); simpl.
  - rewrite String.eqb_sym, Hk. apply IH. exact Hrest.
  - apply IH. exact Hrest.
Qed.

(** Serialisation keeps a property exactly when its value is defined. *)
Lemma assoc_defined_fields (key : string) (fields : list (string * value)) :
  distinct (map fst fields) = true ->
  assoc key (filter (fun kv => negb (is_undefined (snd kv))) fields) =
  match assoc key fields with
  | Some x => if is_undefined x then None else Some x
  | None => None
  end.
Proof.
  induction fields as [|[k x] rest IH]; simpl; [reflexivity|].
  intros H. apply andb_true_iff in H. destruct H as [Hk Hrest].
  apply negb_true_iff in Hk.
  destruct (String.eqb k key) eqn:E.
  - apply String.eqb_eq in E. subst k.
    destruct (is_undefined x); simpl.
    + apply assoc_filter_absent. exact Hk.
    + rewrite String.eqb_refl. reflexivity.
  - destruct (is_undefined x); simpl.
    + apply IH. exact Hrest.
    + rewrite E. apply IH. exact Hrest.
Qed.

Lemma IndexJs_json_field (l : IndexJs.listing) (key : string) :
  assoc key (IndexJs.json_fields l) =
  match assoc key
          [ ("title", IndexJs.title l); ("description", IndexJs.description l);
            ("property_type", VStr (IndexJs.property_type l));
            ("street_address", IndexJs.street_address l);
            ("address", IndexJs.address l); ("city", IndexJs.city l);
            ("postcode", IndexJs.postcode l); ("latitude", IndexJs.latitude l);
            ("longitude", IndexJs.longitude l); ("bedrooms", IndexJs.bedrooms l);
            ("bathrooms", IndexJs.bathrooms l);
            ("price_monthly", IndexJs.price_monthly l);
            ("deposit_amount", IndexJs.deposit_amount l);
            ("available_from", IndexJs.available_from l);
            ("furnished", VBool (IndexJs.furnished l));
            ("bills_included", VBool (IndexJs.bills_included l));
            ("epc_rating", IndexJs.epc_rating l);
            ("council_tax_band", IndexJs.council_tax_band l);
            ("images", IndexJs.images l); ("floorplans", IndexJs.floorplans l);
            ("virtual_tours", IndexJs.virtual_tours l);
            ("amenities", IndexJs.amenities l);
            ("landlord_email", IndexJs.landlord_email l);
            ("landlord_account_type", VStr (IndexJs.landlord_account_type l));
            ("status", VStr (IndexJs.status l));
            ("external_id", IndexJs.external_id l) ] with
  | Some x => if is_undefined x then None else Some x
  | None => None
  end.
Proof. unfold IndexJs.json_fields. apply assoc_defined_fields. reflexivity. Qed.

Lemma Part000_json_field (l : Part000.listing) (key : string) :
  assoc key (Part000.json_fields l) =
  match assoc key
          [ ("title", Part000.title l); ("description", Part000.description l);
            ("property_type", VStr (Part000.property_type l));
            ("street_address", Part000.street_address l);
            ("address", Part000.address l); ("city", Part000.city l);
            ("postcode", Part000.postcode l); ("bedrooms", Part000.bedrooms l);
            ("bathrooms", Part000.bathrooms l);
            ("price_monthly", Part000.price_monthly l);
            ("images", Part000.images l); ("floorplans", Part000.floorplans l);
            ("virtual_tours", Part000.virtual_tours l);
            ("landlord_email", Part000.landlord_email l);
            ("external_id", Part000.external_id l) ] with
  | Some x => if is_undefined x then None else Some x
  | None => None
  end.
Proof. unfold Part000.json_fields. apply assoc_defined_fields. reflexivity. Qed.

(** ** When the mapper returns a listing *)

Lemma IndexJs_mapProperty_defined (property agentEmail : value) :
  nullish property = false ->
  forallb convertible (IndexJs_numeric_inputs property) = true ->
  exists l, IndexJs.mapProperty property agentEmail = Some l.
Proof.
  intros Hn Hc. unfold IndexJs_numeric_inputs in Hc. cbn [forallb] in Hc.
  rewrite !andb_true_iff in Hc.
  destruct Hc as [H1 [H2 [H3 [H4 [H5 [H6 [H7 _]]]]]]].
  unfold IndexJs.mapProperty, member, converting. rewrite Hn. cbn [result_bind].
  fold (price_of property). rewrite H1, H2, H3, H4, H5, H6, H7. cbn [result_bind].
  eexists. reflexivity.
Qed.

Lemma Part000_mapProperty_defined (property agentEmail : value) :
  nullish property = false ->
  forallb convertible (Part000_numeric_inputs property) = true ->
  exists l, Part000.mapProperty property agentEmail = Some l.
Proof.
  intros Hn Hc. unfold Part000_numeric_inputs in Hc. cbn [forallb] in Hc.
  rewrite !andb_true_iff in Hc.
  destruct Hc as [H1 [H2 [H3 [H4 _]]]].
  unfold Part000.mapProperty, member, converting. rewrite Hn. cbn [result_bind].
  fold (price_of property). rewrite H1, H2, H3, H4. cbn [result_bind].
  eexists. reflexivity.
Qed.

Lemma IndexJs_mapProperty_null (property agentEmail : value) :
  nullish property = true -> IndexJs.mapProperty property agentEmail = None.
Proof.
  intros Hn. unfold IndexJs.mapProperty, member. rewrite Hn. reflexivity.
Qed.

Lemma Part000_mapProperty_null (property agentEmail : value) :
  nullish property = true -> Part000.mapProperty property agentEmail = None.
Proof.
  intros Hn. unfold Part000.mapProperty, member. rewrite Hn. reflexivity.
Qed.

(** One conversion of the object literal, in a hypothesis that the mapper
    returned a listing: it did not throw. *)
Ltac conversion_of H key :=
  match type of H with
  | context [convertible (get ?p key)] =>
      let E := fresh "Hconv" in
      destruct (convertible (get p key)) eqn:E;
      cbn [result_bind] in H; [|discriminate H]
  | _ => idtac
  end.

(** From [mapProperty property agentEmail = Some l] to the object literal. *)
Ltac listing_of H :=
  let Hn := fresh "Hobject" in
  unfold IndexJs.mapProperty, Part000.mapProperty, member, converting in H;
  match type of H with
  | context [nullish ?p] => destruct (nullish p) eqn:Hn
  end;
  cbn [result_bind] in H; [discriminate H|];
  conversion_of H "rm_type"; conversion_of H "latitude";
  conversion_of H "longitude"; conversion_of H "bedrooms";
  conversion_of H "bathrooms"; conversion_of H "$t";
  conversion_of H "deposit";
  injection H as H; subst.

(** The mapper returns a listing only of a record that is an object and
    whose numeric fields convert. *)
Lemma IndexJs_mapProperty_some (property agentEmail : value) (l : IndexJs.listing) :
  IndexJs.mapProperty property agentEmail = Some l ->
  nullish property = false
  /\ forallb convertible (IndexJs_numeric_inputs property) = true.
Proof.
  intros H. listing_of H. split; [reflexivity|].
  unfold IndexJs_numeric_inputs, price_of. cbn [forallb].
  rewrite Hconv, Hconv0, Hconv1, Hconv2, Hconv3, Hconv4, Hconv5. reflexivity.
Qed.

Lemma Part000_mapProperty_some (property agentEmail : value) (l : Part000.listing) :
  Part000.mapProperty property agentEmail = Some l ->
  nullish property = false
  /\ forallb convertible (Part000_numeric_inputs property) = true.
Proof.
  intros H. listing_of H. split; [reflexivity|].
  unfold Part000_numeric_inputs, price_of. cbn [forallb].
  rewrite Hconv, Hconv0, Hconv1, Hconv2. reflexivity.
Qed.

Lemma IndexJs_mapProperty_none (property agentEmail : value) :
  IndexJs.mapProperty property agentEmail = None <->
  nullish property = true
  \/ forallb convertible (IndexJs_numeric_inputs property) = false.
Proof.
  split.
  - intros H. destruct (nullish property) eqn:Hn; [left; reflexivity|]. right.
    destruct (forallb convertible (IndexJs_numeric_inputs property)) eqn:Hc;
      [|reflexivity].
    destruct (IndexJs_mapProperty_defined property agentEmail Hn Hc) as [l Hl].
    congruence.
  - intros Hno.
    destruct (IndexJs.mapProperty property agentEmail) as [l|] eqn:H; [|reflexivity].
    apply IndexJs_mapProperty_some in H. destruct H as [Hn Hc].
    destruct Hno; congruence.
Qed.

Lemma Part000_mapProperty_none (property agentEmail : value) :
  Part000.mapProperty property agentEmail = None <->
  nullish property = true
  \/ forallb convertible (Part000_numeric_inputs property) = false.
Proof.
  split.
  - intros H. destruct (nullish property) eqn:Hn; [left; reflexivity|]. right.
    destruct (forallb convertible (Part000_numeric_inputs property)) eqn:Hc;
      [|reflexivity].
    destruct (Part000_mapProperty_defined property agentEmail Hn Hc) as [l Hl].
    congruence.
  - intros Hno.
    destruct (Part000.mapProperty property agentEmail) as [l|] eqn:H; [|reflexivity].
    apply Part000_mapProperty_some in H. destruct H as [Hn Hc].
    destruct Hno; congruence.
Qed.

Lemma IndexJs_mappable_iff (property agentEmail : value) :
  IndexJs_mappable property = true <->
  exists l, IndexJs.mapProperty property agentEmail = Some l.
Proof.
  unfold IndexJs_mappable. rewrite andb_true_iff, negb_true_iff. split.
  - intros [Hn Hc]. apply IndexJs_mapProperty_defined; assumption.
  - intros [l H]. exact (IndexJs_mapProperty_some _ _ _ H).
Qed.

Lemma Part000_mappable_iff (property agentEmail : value) :
  Part000_mappable property = true <->
  exists l, Part000.mapProperty property agentEmail = Some l.
Proof.
  unfold Part000_mappable. rewrite andb_true_iff, negb_true_iff. split.
  - intros [Hn Hc]. apply Part000_mapProperty_defined; assumption.
  - intros [l H]. exact (Part000_mapProperty_some _ _ _ H).
Qed.

(** What src/index.js converts, the second variant converts too. *)
Lemma mappable_in_both (property : value) :
  IndexJs_mappable property = true -> Part000_mappable property = true.
Proof.
  unfold IndexJs_mappable, Part000_mappable, IndexJs_numeric_inputs,
    Part000_numeric_inputs.
  cbn [forallb]. rewrite !andb_true_iff. tauto.
Qed.

(** ** Falsy values *)

(** C10 (amended): whenever the value the path resolves to is falsy (in
    particular the empty string, the number 0 or [false]) [get] returns
    [null]; but the first-element rule comes first: when the path resolves to
    a non-empty array, [get] returns its first element, falsy or not.  So a
    [web_status] that is the empty string reads as [null], like an absent
    one, and one held in an array, as the parser holds it, reads as the empty
    string: all three count as available.  A record that can be mapped gets a
    listing whose [epc_rating] is [null] when [epcrating_current] is the
    empty string itself, and the empty string when it is an array that starts
    with the empty string, which is what the parser makes of an empty
    element. *)
Theorem get_returns_null_for_falsy_values :
  (forall obj path,
     truthy (resolve obj (JsString.split "." path)) = false -> get obj path = VNull)
  /\ (forall obj path,
        let reached := resolve obj (JsString.split "." path) in
        reached = VStr "" \/ (exists e, reached = VNum (Finite 0 e)) \/ reached = VBool false ->
        get obj path = VNull)
  /\ (forall obj path first rest,
        resolve obj (JsString.split "." path) = VArr (first :: rest) ->
        get obj path = first)
  /\ (forall property,
        optMember property "web_status" = VStr ""
        \/ optMember property "web_status" = VUndefined ->
        get property "web_status" = VNull
        /\ IndexJs.isAvailable property = true
        /\ Part000.isAvailable property = true)
  /\ (forall property rest,
        optMember property "web_status" = VArr (VStr "" :: rest) ->
        get property "web_status" = VStr ""
        /\ IndexJs.isAvailable property = true
        /\ Part000.isAvailable property = true)
  /\ (forall property agentEmail,
        IndexJs_mappable property = true ->
        exists l,
          IndexJs.mapProperty property agentEmail = Some l
          /\ (getProp property "epcrating_current" = VStr "" ->
              IndexJs.epc_rating l = VNull
              /\ assoc "epc_rating" (IndexJs.json_fields l) = Some VNull)
          /\ (forall rest,
                getProp property "epcrating_current" = VArr (VStr "" :: rest) ->
                IndexJs.epc_rating l = VStr ""
                /\ assoc "epc_rating" (IndexJs.json_fields l) = Some (VStr ""))).
Proof.
  assert (Hfalsy : forall obj path,
             truthy (resolve obj (JsString.split "." path)) = false ->
             get obj path = VNull).
  { intros obj path H. rewrite get_finish_resolve. apply finish_falsy. exact H. }
  assert (Hfirst : forall obj path first rest,
             resolve obj (JsString.split "." path) = VArr (first :: rest) ->
             get obj path = first).
  { intros obj path first rest H. rewrite get_finish_resolve, H. reflexivity. }
  split; [exact Hfalsy|]. split; [|split; [exact Hfirst|split; [|split]]].
  - intros obj path reached [H | [[e H] | H]]; apply Hfalsy; fold reached;
      rewrite H; reflexivity.
  - intros property H.
    assert (Hw : get property "web_status" = VNull).
    { destruct H as [H | H]; apply Hfalsy; simpl; unfold resolve; simpl;
        rewrite H; reflexivity. }
    unfold IndexJs.isAvailable, Part000.isAvailable. rewrite Hw. repeat split.
  - intros property rest H.
    assert (Hw : get property "web_status" = VStr "").
    { apply (Hfirst property "web_status" (VStr "") rest). exact H. }
    unfold IndexJs.isAvailable, Part000.isAvailable. rewrite Hw. repeat split.
  - intros property agentEmail Hm.
    destruct (proj1 (IndexJs_mappable_iff property agentEmail) Hm) as [l H].
    exists l. split; [exact H|].
    pose proof (IndexJs_json_field l "epc_rating") as Hjson.
    listing_of H. cbn [IndexJs.epc_rating] in Hjson |- *. simpl assoc in Hjson.
    assert (Hread : get property "epcrating_current"
                    = finish (getProp property "epcrating_current")).
    { rewrite (get_single property "epcrating_current" eq_refl).
      unfold optMember. rewrite Hobject. reflexivity. }
    split.
    + intros Hepc. rewrite Hjson, Hread, Hepc. split; reflexivity.
    + intros rest Hepc. rewrite Hjson, Hread, Hepc. split; reflexivity.
Qed.

Lemma get_returns_null_for_falsy_values_witness :
  exists l,
    IndexJs.mapProperty (VObj [("epcrating_current", VArr [VStr ""])]) VNull = Some l
    /\ IndexJs.epc_rating l = VStr ""
    /\ assoc "epc_rating" (IndexJs.json_fields l) = Some (VStr "").
Proof.
  destruct (proj2 (proj2 (proj2 (proj2 (proj2 get_returns_null_for_falsy_values))))
              (VObj [("epcrating_current", VArr [VStr ""])]) VNull eq_refl)
    as [l [Hl [_ Hwrapped]]].
  exists l. split; [exact Hl|]. exact (Hwrapped [] eq_refl).
Defined.

(** C10, as stated, fails on a record as the parser yields it: an empty
    [epcrating_current] element is held as the one-element array of the empty
    string; [get] returns its first element, the empty string, and the
    listing carries the empty string, not [null]. *)
Lemma empty_epc_rating_element_is_emitted_as_empty_string :
  let property := VObj [("epcrating_current", VArr [VStr ""])] in
  get property "epcrating_current" = VStr ""
  /\ option_map IndexJs.epc_rating (IndexJs.mapProperty property VNull)
     = Some (VStr "")
  /\ option_map (fun l => assoc "epc_rating" (IndexJs.json_fields l))
       (IndexJs.mapProperty property VNull) = Some (Some (VStr "")).
Proof. repeat split; reflexivity. Qed.

(** ** The classifier *)




Lemma pow10_pos (k : Z) : 0 <= k -> 0 < 10 ^ k.
Proof. intros H. apply Z.pow_pos_nonneg; lia. Qed.

(** No positive integer is below a zero, whatever its exponent. *)
Lemma leb_positive_zero (z e : Z) :
  0 < z -> JsNumber.leb (JsNumber.of_Z z) (Finite 0 e) = false.
Proof.
  intros Hz. unfold JsNumber.leb, JsNumber.of_Z, JsNumber.cmp_dec.
  rewrite Z.mul_0_l.
  assert (H : 0 < z * 10 ^ (0 - Z.min 0 e)) by (apply Z.mul_pos_pos; [lia | apply pow10_pos; lia]).
  apply Z.compare_gt_iff in H. rewrite H. reflexivity.
Qed.





(** ** One turn of the import loop *)

(** On an entry that is an object, a turn of the loop of src/index.js is a
    function of the two reference fields, of what the detail fetch yields and
    of the two predicates. *)
Lemma IndexJs_iteration_cases (w : world) (token : string) (agentEmail : value)
    (t : IndexJs.tally) (propertyRef : value) (st : IndexJs.state) :
  nullish propertyRef = false ->
  IndexJs.iteration w token agentEmail t propertyRef st =
  if negb (truthy (ref_id propertyRef)) || negb (truthy (ref_url propertyRef))
  then (Ok (IndexJs.skip t), st)
  else
    let st1 := IndexJs.add_request (detail_request (ref_url propertyRef) token) st in
    match fetched_property w (List.length (IndexJs.requests st))
            (ref_url propertyRef) token with
    | None => (Ok (IndexJs.fail t), st1)
    | Some property =>
        if IndexJs.isStudent property && IndexJs.isAvailable property then
          match IndexJs.mapProperty property agentEmail with
          | Some l => (Ok (IndexJs.push t l), IndexJs.add_mapper_call property st1)
          | None => (Ok (IndexJs.fail t), IndexJs.add_mapper_call property st1)
          end
        else (Ok (IndexJs.skip t), st1)
    end.
Proof.
  intros Hn. unfold IndexJs.iteration, parseXml, bind, lift, member. rewrite Hn.
  fold (ref_id propertyRef). fold (ref_url propertyRef).
  destruct (negb (truthy (ref_id propertyRef)) || negb (truthy (ref_url propertyRef)));
    [reflexivity|].
  unfold try_catch, IndexJs.fetchWithToken, IndexJs.fetch, fetched_property,
    detail_request, IndexJs.note_mapper_call, ret.
  cbv zeta.
  destruct (net w _ _) as [message|resp]; [reflexivity|].
  destruct (Http.ok resp); [|reflexivity]. cbn [negb].
  destruct (parseString w (Http.body resp)) as [propertyData|message]; [|reflexivity].
  unfold member.
  destruct (nullish propertyData); [reflexivity|].
  destruct (IndexJs.isStudent (getProp propertyData "property")); [|reflexivity].
  destruct (IndexJs.isAvailable (getProp propertyData "property")); [|reflexivity].
  cbn [negb andb].
  destruct (IndexJs.mapProperty (getProp propertyData "property") agentEmail);
    reflexivity.
Qed.

Lemma Part000_iteration_cases (w : world) (token : string) (agent_email : value)
    (t : Part000.tally) (propRef : value) (st : Part000.state) :
  nullish propRef = false ->
  Part000.iteration w token agent_email t propRef st =
  if negb (truthy (ref_id propRef)) || negb (truthy (ref_url propRef))
  then (Ok (Part000.skip t), st)
  else
    let st1 := Part000.add_request (detail_request (ref_url propRef) token) st in
    match fetched_property w (List.length (Part000.requests st))
            (ref_url propRef) token with
    | None => (Ok (Part000.skip t), st1)
    | Some property =>
        if Part000.isStudent property && Part000.isAvailable property then
          match Part000.mapProperty property agent_email with
          | Some l => (Ok (Part000.push t l), Part000.add_mapper_call property st1)
          | None => (Ok t, Part000.add_mapper_call property st1)
          end
        else (Ok (Part000.skip t), st1)
    end.
Proof.
  intros Hn. unfold Part000.iteration, parseXml, bind, lift, member. rewrite Hn.
  fold (ref_id propRef). fold (ref_url propRef).
  destruct (negb (truthy (ref_id propRef)) || negb (truthy (ref_url propRef)));
    [reflexivity|].
  unfold try_catch, Part000.fetchFromAlto, Part000.axios_get, fetched_property,
    detail_request, Part000.note_mapper_call, ret, bind.
  cbv zeta.
  destruct (net w _ _) as [message|resp]; [reflexivity|].
  destruct (Http.ok resp); [|reflexivity].
  destruct (parseString w (Http.body resp)) as [propertyData|message]; [|reflexivity].
  unfold member.
  destruct (nullish propertyData); [reflexivity|].
  destruct (Part000.isStudent (getProp propertyData "property")); [|reflexivity].
  destruct (Part000.isAvailable (getProp propertyData "property")); [|reflexivity].
  cbn [negb andb].
  destruct (Part000.mapProperty (getProp propertyData "property") agent_email);
    reflexivity.
Qed.

(** An entry that is [null] or [undefined] makes the turn throw, outside the
    inner [try]. *)
Lemma IndexJs_iteration_nullish (w : world) (token : string) (agentEmail : value)
    (t : IndexJs.tally) (propertyRef : value) (st : IndexJs.state) :
  nullish propertyRef = true ->
  exists message,
    IndexJs.iteration w token agentEmail t propertyRef st = (Throw message, st).
Proof.
  intros Hn. unfold IndexJs.iteration, bind, lift, member. rewrite Hn.
  eexists. reflexivity.
Qed.

(** ** Availability *)

Lemma is_string_iff (v : value) (s : string) : is_string v s = true <-> v = VStr s.
Proof.
  destruct v; simpl; try (split; [discriminate|congruence]).
  rewrite String.eqb_eq. split; congruence.
Qed.





(** ** The property type *)

(** The order of finite numbers is the order of the rationals they stand for. *)
Lemma ten_nonzero : ~ (inject_Z 10 == 0)%Q.
Proof. discriminate. Qed.

Lemma rational_scaled (m e k : Z) :
  k <= e -> (rational m e == inject_Z (m * 10 ^ (e - k)) * inject_Z 10 ^ k)%Q.
Proof.
  intros H. unfold rational.
  rewrite inject_Z_mult, Zpower_Qpower by lia.
  rewrite <- Qmult_assoc, <- Qpower_plus by apply ten_nonzero.
  replace (e - k + k) with e by lia. reflexivity.
Qed.

Lemma scaled_le (x y k : Z) :
  (inject_Z x * inject_Z 10 ^ k <= inject_Z y * inject_Z 10 ^ k)%Q <-> x <= y.
Proof.
  rewrite Qmult_le_r by (apply Qpower_0_lt; reflexivity).
  rewrite <- Zle_Qle. reflexivity.
Qed.

Lemma leb_rational (m1 e1 m2 e2 : Z) :
  JsNumber.leb (Finite m1 e1) (Finite m2 e2) = true <->
  (rational m1 e1 <= rational m2 e2)%Q.
Proof.
  rewrite (rational_scaled m1 e1 (Z.min e1 e2)) by lia.
  rewrite (rational_scaled m2 e2 (Z.min e1 e2)) by lia.
  rewrite scaled_le. unfold JsNumber.leb, JsNumber.cmp_dec, Z.le.
  destruct (_ ?= _); split; intros H; try reflexivity; try discriminate; congruence.
Qed.

Lemma eqb_rational (m1 e1 m2 e2 : Z) :
  JsNumber.eqb (Finite m1 e1) (Finite m2 e2) = true <->
  (rational m1 e1 == rational m2 e2)%Q.
Proof.
  rewrite (rational_scaled m1 e1 (Z.min e1 e2)) by lia.
  rewrite (rational_scaled m2 e2 (Z.min e1 e2)) by lia.
  rewrite Qmult_inj_r by (apply Qpower_not_0, ten_nonzero).
  rewrite inject_Z_injective. unfold JsNumber.eqb, JsNumber.cmp_dec.
  rewrite <- Z.compare_eq_iff.
  destruct (_ ?= _); split; intros H; try reflexivity; discriminate.
Qed.

Lemma rational_whole (z : Z) : (rational z 0 == inject_Z z)%Q.
Proof. unfold rational. simpl. apply Qmult_1_r. Qed.

(** Nine is not in the range of houses. *)
Lemma nine_is_above_six (n : number) :
  JsNumber.eqb n (JsNumber.of_Z 9) = true -> JsNumber.leb n (JsNumber.of_Z 6) = false.
Proof.
  destruct n as [|neg|m e]; simpl; try discriminate.
  unfold JsNumber.cmp_dec.
  set (k := 0 - Z.min e 0). set (x := m * 10 ^ (e - Z.min e 0)).
  assert (Hk : 0 < 10 ^ k) by (apply pow10_pos; subst k; lia).
  destruct (x ?= 9 * 10 ^ k) eqn:E9; try discriminate. intros _.
  apply Z.compare_eq in E9.
  assert (H : 6 * 10 ^ k < x) by lia.
  apply Z.compare_gt_iff in H. rewrite H. reflexivity.
Qed.

Lemma eqb_zero_positive (z e : Z) :
  0 < z -> JsNumber.eqb (Finite 0 e) (JsNumber.of_Z z) = false.
Proof.
  intros Hz. unfold JsNumber.eqb, JsNumber.of_Z, JsNumber.cmp_dec.
  rewrite Z.mul_0_l.
  assert (H : 0 < z * 10 ^ (0 - Z.min e 0)) by (apply Z.mul_pos_pos; [lia | apply pow10_pos; lia]).
  apply Z.compare_lt_iff in H. rewrite H. reflexivity.
Qed.

Lemma mapType_default (n : number) :
  mapType (num_or n JsNumber.zero) = mapType (or_zero n).
Proof.
  destruct n as [|neg|m e]; try reflexivity.
  unfold num_or, or_zero. simpl JsNumber.truthy.
  destruct (m =? 0) eqn:E; [|reflexivity].
  apply Z.eqb_eq in E. subst m. simpl negb. cbv iota.
  unfold mapType. rewrite leb_positive_zero, eqb_zero_positive by lia. reflexivity.
Qed.

(** C4 (amended): property_type is the image under [mapType] of rm_type parsed
    as a float (the binary64 value nearest to the numeral), 0 when the parse
    fails or the field is absent; [mapType] gives "house" exactly on the
    closed interval from 1 to 6 (whole numbers or not), "studio" exactly on 9
    and "flat" on everything else, parse failures included.  Both files make
    such a listing of every record they can map. *)
Theorem property_type_characterised :
  (forall rmType,
     let in_range := JsNumber.leb (JsNumber.of_Z 1) rmType
                     && JsNumber.leb rmType (JsNumber.of_Z 6) in
     (mapType rmType = "house" <-> in_range = true)
     /\ (mapType rmType = "studio" <-> JsNumber.eqb rmType (JsNumber.of_Z 9) = true)
     /\ (mapType rmType = "flat" <->
           in_range = false /\ JsNumber.eqb rmType (JsNumber.of_Z 9) = false))
  /\ (forall m e,
        (mapType (Finite m e) = "house" <->
           (1 <= rational m e)%Q /\ (rational m e <= 6)%Q)
        /\ (mapType (Finite m e) = "studio" <-> (rational m e == 9)%Q))
  /\ (forall property agentEmail l,
        IndexJs.mapProperty property agentEmail = Some l ->
        IndexJs.property_type l = mapType (or_zero (parseFloat (get property "rm_type"))))
  /\ (forall property agentEmail l,
        Part000.mapProperty property agentEmail = Some l ->
        Part000.property_type l = mapType (or_zero (parseFloat (get property "rm_type"))))
  /\ (forall property,
        parseFloat (get property "rm_type") = NaN
        \/ optMember property "rm_type" = VUndefined ->
        mapType (or_zero (parseFloat (get property "rm_type"))) = "flat")
  /\ (forall property agentEmail,
        (IndexJs_mappable property = true <->
         exists l, IndexJs.mapProperty property agentEmail = Some l)
        /\ (Part000_mappable property = true <->
            exists l, Part000.mapProperty property agentEmail = Some l)).
Proof.
  assert (Hmap : forall rmType,
            let in_range := JsNumber.leb (JsNumber.of_Z 1) rmType
                            && JsNumber.leb rmType (JsNumber.of_Z 6) in
            (mapType rmType = "house" <-> in_range = true)
            /\ (mapType rmType = "studio" <-> JsNumber.eqb rmType (JsNumber.of_Z 9) = true)
            /\ (mapType rmType = "flat" <->
                  in_range = false /\ JsNumber.eqb rmType (JsNumber.of_Z 9) = false)).
  { intros rmType in_range. unfold mapType. fold in_range.
    pose proof (nine_is_above_six rmType) as H96.
    assert (Hr : in_range = true -> JsNumber.leb rmType (JsNumber.of_Z 6) = true).
    { intros H. apply andb_true_iff in H. tauto. }
    destruct in_range; destruct (JsNumber.eqb rmType (JsNumber.of_Z 9)).
    + specialize (H96 eq_refl). specialize (Hr eq_refl). congruence.
    + repeat split; intros; try discriminate; try reflexivity; intuition discriminate.
    + repeat split; intros; try discriminate; try reflexivity; intuition discriminate.
    + repeat split; intros; try discriminate; try reflexivity; intuition discriminate. }
  split; [exact Hmap|]. split; [|split; [|split; [|split]]].
  - intros m e. destruct (Hmap (Finite m e)) as [Hhouse [Hstudio _]].
    rewrite Hhouse, Hstudio, andb_true_iff.
    unfold JsNumber.of_Z. rewrite !leb_rational, eqb_rational, !rational_whole.
    split; reflexivity.
  - intros property agentEmail l H. listing_of H.
    cbn [IndexJs.property_type]. apply mapType_default.
  - intros property agentEmail l H. listing_of H.
    cbn [Part000.property_type]. apply mapType_default.
  - intros property [H | H].
    + rewrite H. reflexivity.
    + rewrite (get_single property "rm_type" eq_refl), H. reflexivity.
  - intros property agentEmail. split.
    + apply IndexJs_mappable_iff.
    + apply Part000_mappable_iff.
Qed.

Lemma property_type_characterised_witness :
  (exists l, IndexJs.mapProperty Sample.house VNull = Some l
             /\ IndexJs.property_type l = "house")
  /\ (exists l, Part000.mapProperty
                  (VObj [("rm_type", VArr [VStr "6.0000000000000001"])]) VNull = Some l
                /\ Part000.property_type l = "house")
  /\ mapType (or_zero (parseFloat (get (VObj []) "rm_type"))) = "flat".
Proof.
  pose proof property_type_characterised as [_ [_ [Hindex [Hpart [Hflat Hsome]]]]].
  split; [|split].
  - destruct (proj1 (proj1 (Hsome Sample.house VNull)) eq_refl) as [l E].
    exists l. split; [exact E|]. rewrite (Hindex _ _ _ E). reflexivity.
  - destruct (proj1 (proj2 (Hsome (VObj [("rm_type", VArr [VStr "6.0000000000000001"])])
                              VNull)) eq_refl) as [l E].
    exists l. split; [exact E|]. rewrite (Hpart _ _ _ E). reflexivity.
  - apply Hflat. right. reflexivity.
Defined.

(** C4, as stated, fails: an rm_type of "2.5" parses to a number that is not
    one of the integers 1..6, and the listing is a house all the same. *)
Lemma fractional_rm_type_is_a_house :
  let property := VObj [("rm_type", VArr [VStr "2.5"])] in
  parseFloat (get property "rm_type") = Finite 25 (-1)
  /\ option_map IndexJs.property_type (IndexJs.mapProperty property VNull) = Some "house"
  /\ option_map Part000.property_type (Part000.mapProperty property VNull) = Some "house"
  /\ mapType_as_specified (Finite 25 (-1)) = "flat".
Proof. repeat split; reflexivity. Qed.

(** ** Attachments *)

Lemma urls_of_type_In (code : string) (fileList : list value) (u : value) :
  In u (urls_of_type code fileList) <->
  exists f, In f fileList /\ get f "type" = VStr code
            /\ get f "url" = u /\ truthy u = true.
Proof.
  unfold urls_of_type. rewrite filter_In, in_map_iff. split.
  - intros [[f [Hu Hf]] Ht]. apply filter_In in Hf. destruct Hf as [Hin Hty].
    exists f. rewrite is_string_iff in Hty. auto.
  - intros [f [Hin [Hty [Hu Ht]]]]. split; [|exact Ht].
    exists f. split; [exact Hu|]. apply filter_In. split; [exact Hin|].
    apply is_string_iff. exact Hty.
Qed.

Lemma urls_of_type_app (code : string) (l1 l2 : list value) :
  urls_of_type code (l1 ++ l2) = (urls_of_type code l1 ++ urls_of_type code l2)%list.
Proof. unfold urls_of_type. rewrite filter_app, map_app, filter_app. reflexivity. Qed.

(** An entry without a usable url leaves no trace, whatever its type. *)
Lemma urls_of_type_drops (code : string) (before after : list value) (f : value) :
  truthy (get f "url") = false ->
  urls_of_type code (before ++ f :: after) = urls_of_type code (before ++ after).
Proof.
  intros Hu. rewrite !urls_of_type_app. f_equal.
  unfold urls_of_type. simpl.
  destruct (is_string (get f "type") code); [|reflexivity].
  simpl. rewrite Hu. reflexivity.
Qed.

Lemma emitted_nonempty_or_undefined (found : list value) (json : option value) :
  json = (if is_undefined (nonempty_or_undefined found) then None
          else Some (nonempty_or_undefined found)) ->
  emitted found (nonempty_or_undefined found) json.
Proof. intros ->. destruct found; simpl; split; reflexivity. Qed.

(** C5: the files of a record form a list even when the field is a single
    object; an url is among the images, the floorplans or the virtual tours
    exactly when an entry of type "0", "2" or "3" carries it; an entry without
    url changes none of the three lists; and a list with no item is left out
    of the listing (the field is undefined and the JSON has no such key).
    Both files make a listing with these three lists of every record they
    can map. *)
Theorem files_are_partitioned_by_type :
  (forall property,
     (forall items, getProp property "files" = VArr items -> file_entries property = items)
     /\ (forall fields, getProp property "files" = VObj fields ->
         file_entries property = [VObj fields])
     /\ (getProp property "files" = VUndefined -> file_entries property = []))
  /\ (forall code fileList u,
        In u (urls_of_type code fileList) <->
        exists f, In f fileList /\ get f "type" = VStr code
                  /\ get f "url" = u /\ truthy u = true)
  /\ (forall code before f after,
        truthy (get f "url") = false ->
        urls_of_type code (before ++ f :: after) = urls_of_type code (before ++ after))
  /\ (forall property agentEmail,
        IndexJs_mappable property = true ->
        exists l,
          IndexJs.mapProperty property agentEmail = Some l
          /\ emitted (urls_of_type "0" (file_entries property))
               (IndexJs.images l) (assoc "images" (IndexJs.json_fields l))
          /\ emitted (urls_of_type "2" (file_entries property))
               (IndexJs.floorplans l) (assoc "floorplans" (IndexJs.json_fields l))
          /\ emitted (urls_of_type "3" (file_entries property))
               (IndexJs.virtual_tours l) (assoc "virtual_tours" (IndexJs.json_fields l)))
  /\ (forall property agentEmail,
        Part000_mappable property = true ->
        exists l,
          Part000.mapProperty property agentEmail = Some l
          /\ emitted (urls_of_type "0" (file_entries property))
               (Part000.images l) (assoc "images" (Part000.json_fields l))
          /\ emitted (urls_of_type "2" (file_entries property))
               (Part000.floorplans l) (assoc "floorplans" (Part000.json_fields l))
          /\ emitted (urls_of_type "3" (file_entries property))
               (Part000.virtual_tours l) (assoc "virtual_tours" (Part000.json_fields l)))
  /\ (forall property agentEmail,
        (IndexJs_mappable property = true <->
         exists l, IndexJs.mapProperty property agentEmail = Some l)
        /\ (Part000_mappable property = true <->
            exists l, Part000.mapProperty property agentEmail = Some l)).
Proof.
  split; [|split; [|split; [|split; [|split]]]].
  - intros property. unfold file_entries. repeat split.
    + intros items H. rewrite H. reflexivity.
    + intros fields H. rewrite H. reflexivity.
    + intros H. rewrite H. reflexivity.
  - intros code fileList u. apply urls_of_type_In.
  - intros code before f after. apply urls_of_type_drops.
  - intros property agentEmail Hm.
    destruct (proj1 (IndexJs_mappable_iff property agentEmail) Hm) as [l H].
    exists l. split; [exact H|].
    pose proof (IndexJs_json_field l) as Hjson.
    listing_of H. fold (file_entries property) in Hjson |- *.
    repeat split; apply emitted_nonempty_or_undefined; rewrite Hjson; reflexivity.
  - intros property agentEmail Hm.
    destruct (proj1 (Part000_mappable_iff property agentEmail) Hm) as [l H].
    exists l. split; [exact H|].
    pose proof (Part000_json_field l) as Hjson.
    listing_of H. fold (file_entries property) in Hjson |- *.
    repeat split; apply emitted_nonempty_or_undefined; rewrite Hjson; reflexivity.
  - intros property agentEmail. split.
    + apply IndexJs_mappable_iff.
    + apply Part000_mappable_iff.
Qed.

Lemma files_are_partitioned_by_type_witness :
  (exists l,
     IndexJs.mapProperty Sample.house VNull = Some l
     /\ IndexJs.images l = VArr [VStr "http://x/img.jpg"]
     /\ IndexJs.floorplans l = VArr [VStr "http://x/plan.pdf"]
     /\ IndexJs.virtual_tours l = VUndefined
     /\ assoc "virtual_tours" (IndexJs.json_fields l) = None)
  /\ (exists l,
        Part000.mapProperty Sample.house VNull = Some l
        /\ Part000.images l = VArr [VStr "http://x/img.jpg"]
        /\ Part000.floorplans l = VArr [VStr "http://x/plan.pdf"]
        /\ Part000.virtual_tours l = VUndefined
        /\ assoc "virtual_tours" (Part000.json_fields l) = None).
Proof.
  pose proof files_are_partitioned_by_type as [_ [_ [_ [Hindex [Hpart _]]]]].
  split.
  - destruct (Hindex Sample.house VNull eq_refl)
      as [l [E [[Himages _] [[Hplans _] [Htours Hjson]]]]].
    exists l. repeat split; assumption.
  - destruct (Hpart Sample.house VNull eq_refl)
      as [l [E [[Himages _] [[Hplans _] [Htours Hjson]]]]].
    exists l. repeat split; assumption.
Defined.

(** ** Numeric fields *)

(** [parseInt] gives NaN, an infinity (on a numeral beyond the binary64
    range) or a whole number. *)
Lemma parseInt_whole (v : value) :
  parseInt v = NaN
  \/ (exists neg, parseInt v = Infinity neg)
  \/ (exists z, parseInt v = Finite z 0).
Proof.
  unfold parseInt, JsNumber.parseInt_string.
  destruct (JsNumber.read_sign _) as [neg text].
  match goal with
  | |- context [let '(_, _) := ?c in _] => destruct c as [radix digits]
  end.
  destruct (JsNumber.span _ digits) as [ds rest].
  destruct ds as [|d ds]; [left; reflexivity|].
  unfold JsNumber.nearest_integer.
  destruct (JsNumber.value_of radix (d :: ds) <=? 0).
  - right. right. exists 0. reflexivity.
  - destruct (JsNumber.binary64_of_decimal _ _) as [sign|sign| |sign m e];
      cbn [JsNumber.integer_of_binary64].
    + right. right. exists 0. reflexivity.
    + right. left. eexists. reflexivity.
    + left. reflexivity.
    + right. right. eexists. reflexivity.
Qed.

Lemma int_field_spec (v : value) :
  VNum (num_or (parseInt v) JsNumber.zero) = int_field v.
Proof.
  unfold int_field. destruct (parseInt_whole v) as [H | [[neg H] | [z H]]]; rewrite H.
  - reflexivity.
  - reflexivity.
  - unfold num_or. simpl. destruct z; reflexivity.
Qed.

Lemma float_field_spec (v : value) : num_or_null (parseFloat v) = float_field v.
Proof.
  unfold float_field, num_or_null. destruct (parseFloat v) as [|neg|m e]; try reflexivity.
  destruct m; reflexivity.
Qed.

(** C6 (amended): price_monthly, deposit_amount, latitude and longitude are
    parsed as floats (the binary64 value nearest to the numeral) and are null
    when the vendor value is absent, does not parse, or parses to zero, and
    the parsed number otherwise; bedrooms and bathrooms are parsed as integers
    and are 0 when the value is absent or does not parse, and the parsed
    integer otherwise.  The second variant has price_monthly, bedrooms and
    bathrooms only.  Both files make a listing with these fields of every
    record they can map. *)
Theorem numeric_fields_characterised :
  (forall property agentEmail,
     IndexJs_mappable property = true ->
     exists l,
       IndexJs.mapProperty property agentEmail = Some l
       /\ IndexJs.price_monthly l = float_field (get (price_of property) "$t")
       /\ IndexJs.deposit_amount l = float_field (get property "deposit")
       /\ IndexJs.latitude l = float_field (get property "latitude")
       /\ IndexJs.longitude l = float_field (get property "longitude")
       /\ IndexJs.bedrooms l = int_field (get property "bedrooms")
       /\ IndexJs.bathrooms l = int_field (get property "bathrooms"))
  /\ (forall property agentEmail,
        Part000_mappable property = true ->
        exists l,
          Part000.mapProperty property agentEmail = Some l
          /\ Part000.price_monthly l = float_field (get (price_of property) "$t")
          /\ Part000.bedrooms l = int_field (get property "bedrooms")
          /\ Part000.bathrooms l = int_field (get property "bathrooms"))
  /\ (forall v,
        (parseFloat v = NaN -> float_field v = VNull)
        /\ (forall e, parseFloat v = Finite 0 e -> float_field v = VNull)
        /\ (forall n, parseFloat v = n -> JsNumber.truthy n = true -> float_field v = VNum n)
        /\ (parseInt v = NaN -> int_field v = VNum JsNumber.zero)
        /\ (forall z, parseInt v = Finite z 0 -> int_field v = VNum (Finite z 0)))
  /\ (forall property name,
        JsString.split "." name = [name] ->
        optMember property name = VUndefined ->
        float_field (get property name) = VNull
        /\ int_field (get property name) = VNum JsNumber.zero)
  /\ (forall property agentEmail,
        (IndexJs_mappable property = true <->
         exists l, IndexJs.mapProperty property agentEmail = Some l)
        /\ (Part000_mappable property = true <->
            exists l, Part000.mapProperty property agentEmail = Some l)).
Proof.
  split; [|split; [|split; [|split]]].
  - intros property agentEmail Hm.
    destruct (proj1 (IndexJs_mappable_iff property agentEmail) Hm) as [l H].
    exists l. split; [exact H|]. listing_of H.
    cbn [IndexJs.price_monthly IndexJs.deposit_amount IndexJs.latitude
         IndexJs.longitude IndexJs.bedrooms IndexJs.bathrooms].
    fold (price_of property).
    rewrite !float_field_spec, !int_field_spec. repeat split.
  - intros property agentEmail Hm.
    destruct (proj1 (Part000_mappable_iff property agentEmail) Hm) as [l H].
    exists l. split; [exact H|]. listing_of H.
    cbn [Part000.price_monthly Part000.bedrooms Part000.bathrooms].
    fold (price_of property).
    rewrite !float_field_spec, !int_field_spec. repeat split.
  - intros v. unfold float_field, int_field. repeat split.
    + intros H. rewrite H. reflexivity.
    + intros e H. rewrite H. reflexivity.
    + intros n H Hn. rewrite H. destruct n as [|neg|m e]; try discriminate; try reflexivity.
      destruct m; try reflexivity. discriminate.
    + intros H. rewrite H. reflexivity.
    + intros z H. rewrite H. reflexivity.
  - intros property name Hs Habsent.
    rewrite (get_single property name Hs), Habsent. split; reflexivity.
  - intros property agentEmail. split.
    + apply IndexJs_mappable_iff.
    + apply Part000_mappable_iff.
Qed.

Lemma numeric_fields_characterised_witness :
  (exists l,
     IndexJs.mapProperty Sample.house VNull = Some l
     /\ IndexJs.latitude l
        = VNum (Finite 537999999999999971578290569595992565155029296875 (-46))
     /\ IndexJs.longitude l = VNull
     /\ IndexJs.bedrooms l = VNum (Finite 4 0)
     /\ IndexJs.bathrooms l = VNum (Finite 0 0))
  /\ (exists l,
        Part000.mapProperty
          (VObj [("bedrooms", VArr [VStr "9007199254740993"]);
                 ("price", VArr [VObj [("$t", VStr "1e-400")]])]) VNull = Some l
        /\ Part000.bedrooms l = VNum (Finite 9007199254740992 0)
        /\ Part000.price_monthly l = VNull).
Proof.
  pose proof numeric_fields_characterised as [Hindex [Hpart _]].
  split.
  - destruct (Hindex Sample.house VNull eq_refl)
      as [l [E [_ [_ [Hlat [Hlong [Hbed Hbath]]]]]]].
    exists l. split; [exact E|].
    rewrite Hlat, Hlong, Hbed, Hbath. repeat split; reflexivity.
  - destruct (Hpart (VObj [("bedrooms", VArr [VStr "9007199254740993"]);
                           ("price", VArr [VObj [("$t", VStr "1e-400")]])]) VNull eq_refl)
      as [l [E [Hprice [Hbed _]]]].
    exists l. split; [exact E|]. rewrite Hprice, Hbed. split; reflexivity.
Defined.

(** C6, as stated, fails: a latitude of "0" parses (to zero), and the listing
    carries [null], not the parsed number. *)
Lemma zero_latitude_is_emitted_as_null :
  let property := VObj [("latitude", VArr [VStr "0"])] in
  parseFloat (get property "latitude") = Finite 0 0
  /\ float_as_specified (get property "latitude") = VNum (Finite 0 0)
  /\ option_map IndexJs.latitude (IndexJs.mapProperty property VNull) = Some VNull.
Proof. repeat split; reflexivity. Qed.

(** ** The import loop *)









(** ** The reply of src/index.js *)





(** ** The token cache *)

Lemma nonempty_Some (a : option string) (s : string) :
  nonempty a = Some s <-> a = Some s /\ s <> "".
Proof.
  unfold nonempty. destruct a as [t|]; [|split; [discriminate | intros [H _]; discriminate]].
  destruct (String.eqb t "") eqn:E.
  - apply String.eqb_eq in E. subst t.
    split; [discriminate | intros [H Hs]; congruence].
  - apply String.eqb_neq in E. split.
    + intros H. injection H as <-. auto.
    + intros [H _]. exact H.
Qed.

Lemma IndexJs_cached_valid (st : IndexJs.state) (now : Z) (token : string) :
  IndexJs.cached st now = Some token <-> IndexJs_cache_valid st now token.
Proof.
  unfold IndexJs.cached, IndexJs_cache_valid. split.
  - destruct (nonempty (IndexJs.cachedToken st)) as [tok|] eqn:Htok; [|discriminate].
    destruct (IndexJs.tokenTimestamp st) as [timestamp|]; [|discriminate].
    destruct (negb (timestamp =? 0) && (now - timestamp <? IndexJs.TOKEN_TTL)) eqn:Hb;
      [|discriminate].
    intros H. injection H as <-. apply nonempty_Some in Htok. destruct Htok as [Hc Hne].
    apply andb_true_iff in Hb. destruct Hb as [Hz Hlt].
    apply negb_true_iff, Z.eqb_neq in Hz. apply Z.ltb_lt in Hlt.
    exists timestamp. auto.
  - intros [timestamp [Hc [Hne [Hts [Hz Hlt]]]]].
    assert (Htok : nonempty (IndexJs.cachedToken st) = Some token)
      by (apply nonempty_Some; auto).
    rewrite Htok, Hts.
    apply Z.eqb_neq in Hz. apply Z.ltb_lt in Hlt. rewrite Hz, Hlt. reflexivity.
Qed.

Lemma IndexJs_getToken_hit (w : world) (st : IndexJs.state) (token : string) :
  IndexJs.cached st (clock w (IndexJs.ticks st)) = Some token ->
  IndexJs.getToken w st = (Ok token, IndexJs.tick st).
Proof.
  intros H. unfold IndexJs.getToken, bind, IndexJs.date_now.
  change (IndexJs.cached (IndexJs.tick st)) with (IndexJs.cached st).
  rewrite H. reflexivity.
Qed.

Lemma IndexJs_getToken_miss (w : world) (st : IndexJs.state) :
  IndexJs.cached st (clock w (IndexJs.ticks st)) = None ->
  let st1 := IndexJs.add_request (token_request w) (IndexJs.tick st) in
  match granted w (List.length (IndexJs.requests st)) with
  | Some token =>
      IndexJs.getToken w st
      = (Ok token, IndexJs.set_token token (clock w (IndexJs.ticks st)) st1)
  | None => exists message, IndexJs.getToken w st = (Throw message, st1)
  end.
Proof.
  intros H st1. unfold IndexJs.getToken, bind, IndexJs.date_now.
  change (IndexJs.cached (IndexJs.tick st)) with (IndexJs.cached st).
  rewrite H. unfold granted, IndexJs.fetch, IndexJs.store_token, ret, throw.
  change (IndexJs.requests (IndexJs.tick st)) with (IndexJs.requests st).
  destruct (net w _ _) as [message|resp].
  - eexists. reflexivity.
  - destruct (Http.ok resp); cbn [negb].
    + destruct (nonempty _) as [token|]; [reflexivity | eexists; reflexivity].
    + eexists. reflexivity.
Qed.

Lemma Part000_cached_hit (w : world) (st : Part000.state) (token : string) :
  Part000_cache_valid st (clock w (Part000.ticks st)) token ->
  Part000.cached w st = (Ok (Some token), Part000.tick st).
Proof.
  intros [expiry [Hc [Hne [Hex [Hz Hlt]]]]]. unfold Part000.cached.
  assert (Htok : nonempty (Part000.cachedToken st) = Some token)
    by (apply nonempty_Some; auto).
  rewrite Htok, Hex. apply Z.eqb_neq in Hz. rewrite Hz. cbn [negb].
  unfold bind, Part000.date_now, ret. apply Z.ltb_lt in Hlt. rewrite Hlt. reflexivity.
Qed.

(** Without a valid cached token the test fails, after reading the clock or
    not. *)
Lemma Part000_cached_miss (w : world) (st : Part000.state) :
  (forall token, ~ Part000_cache_valid st (clock w (Part000.ticks st)) token) ->
  exists st0,
    Part000.cached w st = (Ok None, st0)
    /\ (st0 = st \/ st0 = Part000.tick st).
Proof.
  intros Hinvalid. unfold Part000.cached.
  destruct (nonempty (Part000.cachedToken st)) as [tok|] eqn:Htok; [|eauto].
  destruct (Part000.tokenExpiry st) as [expiry|] eqn:Hex; [|eauto].
  destruct (expiry =? 0) eqn:Hz; cbn [negb]; [eauto|].
  unfold bind, Part000.date_now, ret.
  destruct (clock w (Part000.ticks st) <? expiry) eqn:Hlt; [|eauto].
  exfalso. apply (Hinvalid tok). exists expiry.
  apply nonempty_Some in Htok. destruct Htok as [Hc Hne].
  apply Z.eqb_neq in Hz. apply Z.ltb_lt in Hlt. auto.
Qed.

Lemma Part000_getToken_hit (w : world) (st : Part000.state) (token : string) :
  Part000_cache_valid st (clock w (Part000.ticks st)) token ->
  Part000.getToken w st = (Ok token, Part000.tick st).
Proof.
  intros H. unfold Part000.getToken, bind.
  rewrite (Part000_cached_hit w st token H). reflexivity.
Qed.

Lemma Part000_getToken_miss (w : world) (st : Part000.state) :
  (forall token, ~ Part000_cache_valid st (clock w (Part000.ticks st)) token) ->
  exists st0,
    (st0 = st \/ st0 = Part000.tick st)
    /\ let st1 := Part000.add_request (token_request w) st0 in
       match granted w (List.length (Part000.requests st)) with
       | Some token =>
           Part000.getToken w st
           = (Ok token,
              Part000.set_token token
                (clock w (Part000.ticks st0) + Part000.TOKEN_LIFETIME)
                (Part000.tick st1))
       | None => exists message, Part000.getToken w st = (Throw message, st1)
       end.
Proof.
  intros Hinvalid.
  destruct (Part000_cached_miss w st Hinvalid) as [st0 [Hcached Hst0]].
  exists st0. split; [exact Hst0|].
  assert (Hreq : Part000.requests st0 = Part000.requests st)
    by (destruct Hst0 as [-> | ->]; reflexivity).
  cbv zeta. unfold Part000.getToken, bind. rewrite Hcached.
  unfold granted, Part000.axios_get, Part000.store_token, Part000.date_now, ret, throw.
  rewrite Hreq.
  destruct (net w _ _) as [message|resp].
  - eexists. reflexivity.
  - destruct (Http.ok resp).
    + destruct (nonempty _) as [token|]; [reflexivity | eexists; reflexivity].
    + eexists. reflexivity.
Qed.

Lemma IndexJs_cached_none (st : IndexJs.state) (now : Z) :
  (forall token, ~ IndexJs_cache_valid st now token) -> IndexJs.cached st now = None.
Proof.
  intros H. destruct (IndexJs.cached st now) as [token|] eqn:E; [|reflexivity].
  exfalso. apply (H token). apply IndexJs_cached_valid. exact E.
Qed.

(** C8: in both files a call of [getToken] made while a cached token exists
    and is within its lifetime returns that token and issues no request, so
    that two calls in a row, the first of which had to fetch, issue exactly
    one request; without a valid cached token the call issues exactly one
    request to the branch endpoint, and either the vendor grants a token,
    which is returned and stored with the time read from the clock, or the
    call throws (a status outside 2xx, no token header, a rejected request)
    with the cache left as it was. *)
Theorem token_is_reused_within_its_lifetime :
  (forall w st token,
     IndexJs_cache_valid st (clock w (IndexJs.ticks st)) token ->
     exists st',
       IndexJs.getToken w st = (Ok token, st')
       /\ IndexJs.requests st' = IndexJs.requests st
       /\ IndexJs.cachedToken st' = IndexJs.cachedToken st
       /\ IndexJs.tokenTimestamp st' = IndexJs.tokenTimestamp st)
  /\ (forall w st,
        (forall token, ~ IndexJs_cache_valid st (clock w (IndexJs.ticks st)) token) ->
        exists st',
          IndexJs.requests st' = (IndexJs.requests st ++ [token_request w])%list
          /\ match granted w (List.length (IndexJs.requests st)) with
             | Some token =>
                 IndexJs.getToken w st = (Ok token, st')
                 /\ IndexJs.cachedToken st' = Some token
                 /\ IndexJs.tokenTimestamp st' = Some (clock w (IndexJs.ticks st))
             | None =>
                 (exists message, IndexJs.getToken w st = (Throw message, st'))
                 /\ IndexJs.cachedToken st' = IndexJs.cachedToken st
                 /\ IndexJs.tokenTimestamp st' = IndexJs.tokenTimestamp st
             end)
  /\ (forall w st token st1 token',
        (forall t, ~ IndexJs_cache_valid st (clock w (IndexJs.ticks st)) t) ->
        IndexJs.getToken w st = (Ok token, st1) ->
        IndexJs_cache_valid st1 (clock w (IndexJs.ticks st1)) token' ->
        exists st2,
          IndexJs.getToken w st1 = (Ok token', st2)
          /\ token' = token
          /\ IndexJs.requests st2 = (IndexJs.requests st ++ [token_request w])%list)
  /\ (forall w st token,
        Part000_cache_valid st (clock w (Part000.ticks st)) token ->
        exists st',
          Part000.getToken w st = (Ok token, st')
          /\ Part000.requests st' = Part000.requests st
          /\ Part000.cachedToken st' = Part000.cachedToken st
          /\ Part000.tokenExpiry st' = Part000.tokenExpiry st)
  /\ (forall w st,
        (forall token, ~ Part000_cache_valid st (clock w (Part000.ticks st)) token) ->
        exists st',
          Part000.requests st' = (Part000.requests st ++ [token_request w])%list
          /\ match granted w (List.length (Part000.requests st)) with
             | Some token =>
                 Part000.getToken w st = (Ok token, st')
                 /\ Part000.cachedToken st' = Some token
                 /\ Part000.tokenExpiry st'
                    = Some (clock w (Nat.pred (Part000.ticks st')) + Part000.TOKEN_LIFETIME)
             | None =>
                 (exists message, Part000.getToken w st = (Throw message, st'))
                 /\ Part000.cachedToken st' = Part000.cachedToken st
                 /\ Part000.tokenExpiry st' = Part000.tokenExpiry st
             end)
  /\ (forall w st token st1 token',
        (forall t, ~ Part000_cache_valid st (clock w (Part000.ticks st)) t) ->
        Part000.getToken w st = (Ok token, st1) ->
        Part000_cache_valid st1 (clock w (Part000.ticks st1)) token' ->
        exists st2,
          Part000.getToken w st1 = (Ok token', st2)
          /\ token' = token
          /\ Part000.requests st2 = (Part000.requests st ++ [token_request w])%list).
Proof.
  split; [|split; [|split; [|split; [|split]]]].
  - intros w st token Hvalid. exists (IndexJs.tick st).
    split; [|repeat split].
    apply IndexJs_getToken_hit, IndexJs_cached_valid. exact Hvalid.
  - intros w st Hinvalid.
    pose proof (IndexJs_getToken_miss w st (IndexJs_cached_none _ _ Hinvalid)) as H.
    cbv zeta in H.
    destruct (granted w (List.length (IndexJs.requests st))) as [token|].
    + eexists. split; [|split; [exact H|split; reflexivity]]. reflexivity.
    + destruct H as [message H].
      eexists. split; [|split; [exists message; exact H|split; reflexivity]]. reflexivity.
  - intros w st token st1 token' Hinvalid Hfirst Hvalid.
    pose proof (IndexJs_getToken_miss w st (IndexJs_cached_none _ _ Hinvalid)) as H.
    cbv zeta in H.
    destruct (granted w (List.length (IndexJs.requests st))) as [token0|].
    + rewrite H in Hfirst. injection Hfirst as -> <-.
      exists (IndexJs.tick
                (IndexJs.set_token token (clock w (IndexJs.ticks st))
                   (IndexJs.add_request (token_request w) (IndexJs.tick st)))).
      destruct Hvalid as [timestamp [Hc Hrest]]. simpl in Hc.
      injection Hc as <-. split; [|split; reflexivity].
      apply IndexJs_getToken_hit, IndexJs_cached_valid.
      exists timestamp. exact (conj eq_refl Hrest).
    + destruct H as [message H]. rewrite H in Hfirst. discriminate Hfirst.
  - intros w st token Hvalid. exists (Part000.tick st).
    split; [|repeat split].
    apply Part000_getToken_hit. exact Hvalid.
  - intros w st Hinvalid.
    destruct (Part000_getToken_miss w st Hinvalid) as [st0 [Hst0 H]].
    assert (Hreq : Part000.requests st0 = Part000.requests st)
      by (destruct Hst0 as [-> | ->]; reflexivity).
    assert (Hcache : Part000.cachedToken st0 = Part000.cachedToken st
                     /\ Part000.tokenExpiry st0 = Part000.tokenExpiry st)
      by (destruct Hst0 as [-> | ->]; split; reflexivity).
    cbv zeta in H.
    destruct (granted w (List.length (Part000.requests st))) as [token|].
    + eexists. split; [|split; [exact H|split; reflexivity]].
      simpl. rewrite Hreq. reflexivity.
    + destruct H as [message H].
      eexists. split; [|split; [exists message; exact H|exact Hcache]].
      simpl. rewrite Hreq. reflexivity.
  - intros w st token st1 token' Hinvalid Hfirst Hvalid.
    destruct (Part000_getToken_miss w st Hinvalid) as [st0 [Hst0 H]].
    assert (Hreq : Part000.requests st0 = Part000.requests st)
      by (destruct Hst0 as [-> | ->]; reflexivity).
    cbv zeta in H.
    destruct (granted w (List.length (Part000.requests st))) as [token0|].
    + rewrite H in Hfirst. injection Hfirst as -> <-.
      eexists. split; [apply Part000_getToken_hit; exact Hvalid|].
      destruct Hvalid as [expiry [Hc _]]. simpl in Hc. injection Hc as <-.
      split; [reflexivity|]. simpl. rewrite Hreq. reflexivity.
    + destruct H as [message H]. rewrite H in Hfirst. discriminate Hfirst.
Qed.

Lemma token_is_reused_within_its_lifetime_witness :
  exists st2,
    IndexJs.getToken Sample.vendor
      (snd (IndexJs.getToken Sample.vendor IndexJs.initial))
    = (Ok "TOKEN-1", st2)
    /\ "TOKEN-1" = "TOKEN-1"
    /\ IndexJs.requests st2 = [token_request Sample.vendor].
Proof.
  apply (proj1 (proj2 (proj2 token_is_reused_within_its_lifetime))
           Sample.vendor IndexJs.initial "TOKEN-1"
           (snd (IndexJs.getToken Sample.vendor IndexJs.initial)) "TOKEN-1").
  - intros t [timestamp [Hc _]]. discriminate Hc.
  - reflexivity.
  - exists 1700000000000. repeat split; try discriminate; reflexivity.
Defined.

(** A vendor that answers 401 makes [getToken] throw after a single request,
    in both files. *)
Example refused_credentials :
  IndexJs.getToken Sample.refusing IndexJs.initial
  = (Throw "Failed to get token: 401",
     IndexJs.add_request (token_request Sample.refusing) (IndexJs.tick IndexJs.initial))
  /\ Part000.getToken Sample.refusing Part000.initial
     = (Throw "Request failed with status code 401",
        Part000.add_request (token_request Sample.refusing) Part000.initial).
Proof. split; reflexivity. Qed.

(** The end-to-end example of the specification: four bedrooms, an empty
    web_status, rm_type 2 and one image. *)
Example end_to_end :
  let property :=
    VObj [ ("bedrooms", VStr "4"); ("web_status", VStr ""); ("rm_type", VStr "2");
           ("files", VArr [VObj [("type", VStr "0"); ("url", VStr "http://x/img.jpg")]]) ] in
  IndexJs.isStudent property = true
  /\ IndexJs.isAvailable property = true
  /\ option_map IndexJs.property_type (IndexJs.mapProperty property VNull) = Some "house"
  /\ option_map IndexJs.images (IndexJs.mapProperty property VNull)
     = Some (VArr [VStr "http://x/img.jpg"])
  /\ option_map IndexJs.bathrooms (IndexJs.mapProperty property VNull)
     = Some (VNum (Finite 0 0)).
Proof. repeat split; reflexivity. Qed.

(** * Further properties of the two files *)

(** ** Records the mapper refuses *)

Lemma forallb_false {A : Type} (f : A -> bool) (l : list A) :
  forallb f l = false <-> exists x, In x l /\ f x = false.
Proof.
  induction l as [|a rest IH]; simpl.
  - split; [discriminate | intros [x [[] _]]].
  - rewrite andb_false_iff, IH. split.
    + intros [H | [x [Hin Hx]]]; [exists a; auto | exists x; auto].
    + intros [x [[<- | Hin] Hx]]; [left; exact Hx | right; exists x; auto].
Qed.

(** X9: [mapProperty] returns [null] exactly when the record is [null] or
    [undefined] (reading its fields throws) or when one of the values the
    object literal converts to a number cannot be converted (an object with
    an own property [toString], which is what the parser makes of an element
    with a child element of that name).  The second variant converts fewer
    values: where it returns [null], so does src/index.js. *)
Theorem mapProperty_null_iff (property agentEmail : value) :
  (IndexJs.mapProperty property agentEmail = None <->
     nullish property = true
     \/ exists v, In v (IndexJs_numeric_inputs property) /\ convertible v = false)
  /\ (Part000.mapProperty property agentEmail = None <->
        nullish property = true
        \/ exists v, In v (Part000_numeric_inputs property) /\ convertible v = false)
  /\ (Part000.mapProperty property agentEmail = None ->
      IndexJs.mapProperty property agentEmail = None).
Proof.
  split; [|split].
  - rewrite IndexJs_mapProperty_none, forallb_false. reflexivity.
  - rewrite Part000_mapProperty_none, forallb_false. reflexivity.
  - intros H.
    destruct (IndexJs.mapProperty property agentEmail) as [l|] eqn:Hl; [|reflexivity].
    assert (Hm : IndexJs_mappable property = true).
    { apply (IndexJs_mappable_iff property agentEmail). exists l. exact Hl. }
    apply mappable_in_both in Hm.
    apply (Part000_mappable_iff property agentEmail) in Hm.
    destruct Hm as [l2 Hl2]. congruence.
Qed.

Lemma mapProperty_null_iff_witness :
  IndexJs.mapProperty Sample.unmappable (VStr "a@b.c") = None
  /\ Part000.mapProperty VUndefined (VStr "a@b.c") = None
  /\ Part000.mapProperty
       (VObj [("bathrooms", VArr [VArr [VStr "1"; VObj [("toString", VStr "x")]]])])
       VNull = None.
Proof.
  split; [|split].
  - apply (proj2 (proj1 (mapProperty_null_iff Sample.unmappable (VStr "a@b.c")))).
    right. exists (VObj [("toString", VArr [VStr "1"])]).
    split; [left; reflexivity | reflexivity].
  - apply (proj2 (proj1 (proj2 (mapProperty_null_iff VUndefined (VStr "a@b.c"))))).
    left. reflexivity.
  - apply (proj2 (proj1 (proj2 (mapProperty_null_iff _ VNull)))).
    right. exists (VArr [VStr "1"; VObj [("toString", VStr "x")]]).
    split; [right; right; left; reflexivity | reflexivity].
Defined.

(** ** What a turn of the loop changes *)

Lemma IndexJs_iteration_effect (w : world) (token : string) (agentEmail : value)
    (t : IndexJs.tally) (propertyRef : value) (st st' : IndexJs.state)
    (out : result IndexJs.tally) :
  IndexJs.iteration w token agentEmail t propertyRef st = (out, st') ->
  IndexJs.cachedToken st' = IndexJs.cachedToken st
  /\ IndexJs.tokenTimestamp st' = IndexJs.tokenTimestamp st
  /\ IndexJs.ticks st' = IndexJs.ticks st
  /\ (IndexJs.requests st' = IndexJs.requests st
      \/ IndexJs.requests st'
         = (IndexJs.requests st ++ [detail_request (ref_url propertyRef) token])%list)
  /\ match out with
     | Throw _ => st' = st
     | Ok t' =>
         ((t' = IndexJs.skip t \/ t' = IndexJs.fail t)
          /\ IndexJs.mapper_calls st' = IndexJs.mapper_calls st)
         \/ exists property,
              IndexJs_passed property
              /\ IndexJs.mapper_calls st' = (IndexJs.mapper_calls st ++ [property])%list
              /\ t' = match IndexJs.mapProperty property agentEmail with
                      | Some l => IndexJs.push t l
                      | None => IndexJs.fail t
                      end
     end.
Proof.
  intros Hrun. destruct (nullish propertyRef) eqn:Hn.
  - destruct (IndexJs_iteration_nullish w token agentEmail t propertyRef st Hn)
      as [message Hthrow].
    rewrite Hthrow in Hrun. injection Hrun as <- <-. repeat split; auto.
  - rewrite IndexJs_iteration_cases in Hrun by exact Hn.
    destruct (negb (truthy (ref_id propertyRef)) || negb (truthy (ref_url propertyRef))).
    + injection Hrun as <- <-. repeat split; auto.
    + cbv zeta in Hrun.
      destruct (fetched_property w _ _ _) as [property|].
      * destruct (IndexJs.isStudent property) eqn:Hs;
          [destruct (IndexJs.isAvailable property) eqn:Ha|]; cbn [andb] in Hrun.
        -- assert (Hpassed : IndexJs_passed property) by (split; assumption).
           destruct (IndexJs.mapProperty property agentEmail) as [l|] eqn:Hm;
             injection Hrun as <- <-; repeat split; auto;
             right; exists property; rewrite Hm; auto.
        -- injection Hrun as <- <-. repeat split; auto.
        -- injection Hrun as <- <-. repeat split; auto.
      * injection Hrun as <- <-. repeat split; auto.
Qed.

Lemma Part000_iteration_nullish (w : world) (token : string) (agent_email : value)
    (t : Part000.tally) (propRef : value) (st : Part000.state) :
  nullish propRef = true ->
  exists message,
    Part000.iteration w token agent_email t propRef st = (Throw message, st).
Proof.
  intros Hn. unfold Part000.iteration, bind, lift, member. rewrite Hn.
  eexists. reflexivity.
Qed.

Lemma Part000_iteration_effect (w : world) (token : string) (agent_email : value)
    (t : Part000.tally) (propRef : value) (st st' : Part000.state)
    (out : result Part000.tally) :
  Part000.iteration w token agent_email t propRef st = (out, st') ->
  Part000.cachedToken st' = Part000.cachedToken st
  /\ Part000.tokenExpiry st' = Part000.tokenExpiry st
  /\ Part000.ticks st' = Part000.ticks st
  /\ (Part000.requests st' = Part000.requests st
      \/ Part000.requests st'
         = (Part000.requests st ++ [detail_request (ref_url propRef) token])%list)
  /\ match out with
     | Throw _ => st' = st
     | Ok t' =>
         (t' = Part000.skip t /\ Part000.mapper_calls st' = Part000.mapper_calls st)
         \/ exists property,
              Part000_passed property
              /\ Part000.mapper_calls st' = (Part000.mapper_calls st ++ [property])%list
              /\ t' = match Part000.mapProperty property agent_email with
                      | Some l => Part000.push t l
                      | None => t
                      end
     end.
Proof.
  intros Hrun. destruct (nullish propRef) eqn:Hn.
  - destruct (Part000_iteration_nullish w token agent_email t propRef st Hn)
      as [message Hthrow].
    rewrite Hthrow in Hrun. injection Hrun as <- <-. repeat split; auto.
  - rewrite Part000_iteration_cases in Hrun by exact Hn.
    destruct (negb (truthy (ref_id propRef)) || negb (truthy (ref_url propRef))).
    + injection Hrun as <- <-. repeat split; auto.
    + cbv zeta in Hrun.
      destruct (fetched_property w _ _ _) as [property|].
      * destruct (Part000.isStudent property) eqn:Hs;
          [destruct (Part000.isAvailable property) eqn:Ha|]; cbn [andb] in Hrun.
        -- assert (Hpassed : Part000_passed property) by (split; assumption).
           destruct (Part000.mapProperty property agent_email) as [l|] eqn:Hm;
             injection Hrun as <- <-; repeat split; auto;
             right; exists property; rewrite Hm; auto.
        -- injection Hrun as <- <-. repeat split; auto.
        -- injection Hrun as <- <-. repeat split; auto.
      * injection Hrun as <- <-. repeat split; auto.
Qed.

(** ** What the loop changes *)

Lemma IndexJs_mapped_cons (agentEmail property : value) (calls : list value) :
  IndexJs_mapped agentEmail (property :: calls)
  = (match IndexJs.mapProperty property agentEmail with
     | Some l => [l]
     | None => []
     end ++ IndexJs_mapped agentEmail calls)%list.
Proof. reflexivity. Qed.

Lemma Part000_mapped_cons (agent_email property : value) (calls : list value) :
  Part000_mapped agent_email (property :: calls)
  = (match Part000.mapProperty property agent_email with
     | Some l => [l]
     | None => []
     end ++ Part000_mapped agent_email calls)%list.
Proof. reflexivity. Qed.

Lemma IndexJs_mapped_In (agentEmail : value) (calls : list value) (l : IndexJs.listing) :
  In l (IndexJs_mapped agentEmail calls) <->
  exists property, In property calls /\ IndexJs.mapProperty property agentEmail = Some l.
Proof.
  unfold IndexJs_mapped. rewrite in_flat_map. split.
  - intros [property [Hin Hl]]. exists property. split; [exact Hin|].
    destruct (IndexJs.mapProperty property agentEmail) as [l'|]; [|destruct Hl].
    destruct Hl as [<- | []]. reflexivity.
  - intros [property [Hin Hl]]. exists property. split; [exact Hin|].
    rewrite Hl. left. reflexivity.
Qed.

Lemma Part000_mapped_In (agent_email : value) (calls : list value) (l : Part000.listing) :
  In l (Part000_mapped agent_email calls) <->
  exists property, In property calls /\ Part000.mapProperty property agent_email = Some l.
Proof.
  unfold Part000_mapped. rewrite in_flat_map. split.
  - intros [property [Hin Hl]]. exists property. split; [exact Hin|].
    destruct (Part000.mapProperty property agent_email) as [l'|]; [|destruct Hl].
    destruct Hl as [<- | []]. reflexivity.
  - intros [property [Hin Hl]]. exists property. split; [exact Hin|].
    rewrite Hl. left. reflexivity.
Qed.

(** The mapper makes at most one listing of each record, and one of each
    exactly when it refuses none. *)
Lemma Part000_mapped_length (agent_email : value) (calls : list value) :
  (List.length (Part000_mapped agent_email calls) <= List.length calls)%nat
  /\ (List.length (Part000_mapped agent_email calls) = List.length calls <->
      Forall (fun property => Part000_mappable property = true) calls).
Proof.
  induction calls as [|property rest [IHle IHeq]].
  - split; [apply Nat.le_refl|]. split; [constructor | reflexivity].
  - rewrite Part000_mapped_cons, length_app.
    destruct (Part000.mapProperty property agent_email) as [l|] eqn:Hl.
    + assert (Hm : Part000_mappable property = true).
      { apply (Part000_mappable_iff property agent_email). exists l. exact Hl. }
      simpl. split; [lia|]. split.
      * intros H. constructor; [exact Hm|]. apply IHeq. lia.
      * intros H. inversion H; subst. f_equal. apply IHeq. assumption.
    + simpl. split; [lia|]. split.
      * intros H. lia.
      * intros H. inversion H as [|p r Hm Hrest]; subst.
        apply (Part000_mappable_iff property agent_email) in Hm.
        destruct Hm as [l Hl']. congruence.
Qed.

Lemma IndexJs_loop_effect (w : world) (token : string) (agentEmail : value)
    (propertyList : list value) :
  forall (t : IndexJs.tally) (st st' : IndexJs.state) (out : result IndexJs.tally),
    IndexJs.loop w token agentEmail t propertyList st = (out, st') ->
    IndexJs.cachedToken st' = IndexJs.cachedToken st
    /\ IndexJs.tokenTimestamp st' = IndexJs.tokenTimestamp st
    /\ IndexJs.ticks st' = IndexJs.ticks st
    /\ exists details calls,
         IndexJs.requests st' = (IndexJs.requests st ++ details)%list
         /\ Forall (carries token) details
         /\ IndexJs.mapper_calls st' = (IndexJs.mapper_calls st ++ calls)%list
         /\ Forall IndexJs_passed calls
         /\ match out with
            | Throw _ => True
            | Ok t' =>
                IndexJs.processedProperties t'
                = (IndexJs.processedProperties t ++ IndexJs_mapped agentEmail calls)%list
            end.
Proof.
  induction propertyList as [|propertyRef rest IH]; intros t st st' out Hloop.
  - simpl in Hloop. injection Hloop as <- <-. repeat split.
    exists [], []. rewrite !app_nil_r. repeat split; constructor.
  - simpl in Hloop. unfold bind in Hloop.
    destruct (IndexJs.iteration w token agentEmail t propertyRef st)
      as [[t1|message] st1] eqn:Hrun.
    + destruct (IndexJs_iteration_effect _ _ _ _ _ _ _ _ Hrun)
        as [Hc [Hts [Htk [Hreq Hout]]]].
      destruct (IH _ _ _ _ Hloop)
        as [Hc' [Hts' [Htk' [details [calls [Hreq' [Hall [Hcalls [Hpass Hout']]]]]]]]].
      split; [congruence|]. split; [congruence|]. split; [congruence|].
      assert (Hdet : exists d, IndexJs.requests st1 = (IndexJs.requests st ++ d)%list
                               /\ Forall (carries token) d).
      { destruct Hreq as [Hreq | Hreq].
        - exists []. rewrite app_nil_r. split; [exact Hreq | constructor].
        - eexists. split; [exact Hreq|]. constructor; [split; reflexivity | constructor]. }
      destruct Hdet as [d [Hd Hdall]].
      destruct Hout as [[Hstep Hsame] | [property [Hpassed [Hadd Hstep]]]].
      * exists (d ++ details)%list, calls. split; [|split; [|split; [|split]]].
        -- rewrite Hreq', Hd, app_assoc. reflexivity.
        -- apply Forall_app. auto.
        -- rewrite Hcalls, Hsame. reflexivity.
        -- exact Hpass.
        -- destruct out as [t'|]; [|exact I].
           rewrite Hout'. destruct Hstep as [-> | ->]; reflexivity.
      * exists (d ++ details)%list, (property :: calls).
        split; [|split; [|split; [|split]]].
        -- rewrite Hreq', Hd, app_assoc. reflexivity.
        -- apply Forall_app. auto.
        -- rewrite Hcalls, Hadd, <- app_assoc. reflexivity.
        -- constructor; assumption.
        -- destruct out as [t'|]; [|exact I].
           rewrite Hout', Hstep, IndexJs_mapped_cons.
           destruct (IndexJs.mapProperty property agentEmail) as [l|]; simpl.
           ++ rewrite <- app_assoc. reflexivity.
           ++ reflexivity.
    + injection Hloop as <- <-.
      destruct (IndexJs_iteration_effect _ _ _ _ _ _ _ _ Hrun)
        as [_ [_ [_ [_ Hsame]]]].
      simpl in Hsame. subst st1. repeat split.
      exists [], []. rewrite !app_nil_r. repeat split; constructor.
Qed.

Lemma Part000_loop_effect (w : world) (token : string) (agent_email : value)
    (propertyList : list value) :
  forall (t : Part000.tally) (st st' : Part000.state) (out : result Part000.tally),
    Part000.loop w token agent_email t propertyList st = (out, st') ->
    Part000.cachedToken st' = Part000.cachedToken st
    /\ Part000.tokenExpiry st' = Part000.tokenExpiry st
    /\ Part000.ticks st' = Part000.ticks st
    /\ exists details calls,
         Part000.requests st' = (Part000.requests st ++ details)%list
         /\ Forall (carries token) details
         /\ Part000.mapper_calls st' = (Part000.mapper_calls st ++ calls)%list
         /\ Forall Part000_passed calls
         /\ match out with
            | Throw _ => True
            | Ok t' =>
                Part000.processedProperties t'
                = (Part000.processedProperties t ++ Part000_mapped agent_email calls)%list
                /\ (Part000.skipped t' + List.length calls
                    = Part000.skipped t + List.length propertyList)%nat
            end.
Proof.
  induction propertyList as [|propRef rest IH]; intros t st st' out Hloop.
  - simpl in Hloop. injection Hloop as <- <-. repeat split.
    exists [], []. rewrite !app_nil_r. repeat split; constructor.
  - simpl in Hloop. unfold bind in Hloop.
    destruct (Part000.iteration w token agent_email t propRef st)
      as [[t1|message] st1] eqn:Hrun.
    + destruct (Part000_iteration_effect _ _ _ _ _ _ _ _ Hrun)
        as [Hc [Hts [Htk [Hreq Hout]]]].
      destruct (IH _ _ _ _ Hloop)
        as [Hc' [Hts' [Htk' [details [calls [Hreq' [Hall [Hcalls [Hpass Hout']]]]]]]]].
      split; [congruence|]. split; [congruence|]. split; [congruence|].
      assert (Hdet : exists d, Part000.requests st1 = (Part000.requests st ++ d)%list
                               /\ Forall (carries token) d).
      { destruct Hreq as [Hreq | Hreq].
        - exists []. rewrite app_nil_r. split; [exact Hreq | constructor].
        - eexists. split; [exact Hreq|]. constructor; [split; reflexivity | constructor]. }
      destruct Hdet as [d [Hd Hdall]].
      destruct Hout as [[Hstep Hsame] | [property [Hpassed [Hadd Hstep]]]].
      * exists (d ++ details)%list, calls. split; [|split; [|split; [|split]]].
        -- rewrite Hreq', Hd, app_assoc. reflexivity.
        -- apply Forall_app. auto.
        -- rewrite Hcalls, Hsame. reflexivity.
        -- exact Hpass.
        -- destruct out as [t'|]; [|exact I].
           destruct Hout' as [Hpp Hcount]. subst t1. simpl in Hpp, Hcount.
           split; [exact Hpp | simpl; lia].
      * exists (d ++ details)%list, (property :: calls).
        split; [|split; [|split; [|split]]].
        -- rewrite Hreq', Hd, app_assoc. reflexivity.
        -- apply Forall_app. auto.
        -- rewrite Hcalls, Hadd, <- app_assoc. reflexivity.
        -- constructor; assumption.
        -- destruct out as [t'|]; [|exact I].
           destruct Hout' as [Hpp Hcount]. rewrite Hpp, Part000_mapped_cons.
           subst t1.
           destruct (Part000.mapProperty property agent_email) as [l|];
             simpl in Hcount |- *.
           ++ rewrite <- app_assoc. split; [reflexivity | lia].
           ++ split; [reflexivity | lia].
    + injection Hloop as <- <-.
      destruct (Part000_iteration_effect _ _ _ _ _ _ _ _ Hrun)
        as [_ [_ [_ [_ Hsame]]]].
      simpl in Hsame. subst st1. repeat split.
      exists [], []. rewrite !app_nil_r. repeat split; constructor.
Qed.

(** ** What [getToken] changes *)

Lemma granted_nonempty (w : world) (n : nat) (token : string) :
  granted w n = Some token -> token <> "".
Proof.
  unfold granted. destruct (net w n _) as [|resp]; [discriminate|].
  destruct (Http.ok resp); [|discriminate].
  intros H. apply nonempty_Some in H. tauto.
Qed.

Lemma IndexJs_getToken_effect (w : world) (st st' : IndexJs.state)
    (out : result string) :
  IndexJs.getToken w st = (out, st') ->
  IndexJs.ticks st' = S (IndexJs.ticks st)
  /\ IndexJs.mapper_calls st' = IndexJs.mapper_calls st
  /\ match IndexJs.cached st (clock w (IndexJs.ticks st)) with
     | Some token =>
         out = Ok token
         /\ IndexJs.requests st' = IndexJs.requests st
         /\ IndexJs.cachedToken st' = IndexJs.cachedToken st
         /\ IndexJs.tokenTimestamp st' = IndexJs.tokenTimestamp st
     | None =>
         IndexJs.requests st' = (IndexJs.requests st ++ [token_request w])%list
         /\ match out with
            | Ok token =>
                granted w (List.length (IndexJs.requests st)) = Some token
                /\ IndexJs.cachedToken st' = Some token
                /\ IndexJs.tokenTimestamp st' = Some (clock w (IndexJs.ticks st))
            | Throw _ =>
                granted w (List.length (IndexJs.requests st)) = None
                /\ IndexJs.cachedToken st' = IndexJs.cachedToken st
                /\ IndexJs.tokenTimestamp st' = IndexJs.tokenTimestamp st
            end
     end.
Proof.
  intros Hrun.
  destruct (IndexJs.cached st (clock w (IndexJs.ticks st))) as [token|] eqn:Hc.
  - rewrite (IndexJs_getToken_hit w st token Hc) in Hrun.
    injection Hrun as <- <-. repeat split.
  - pose proof (IndexJs_getToken_miss w st Hc) as Hmiss. cbv zeta in Hmiss.
    destruct (granted w (List.length (IndexJs.requests st))) as [token|].
    + rewrite Hmiss in Hrun. injection Hrun as <- <-. repeat split.
    + destruct Hmiss as [message Hmiss]. rewrite Hmiss in Hrun.
      injection Hrun as <- <-. repeat split.
Qed.

Lemma Part000_valid_or_not (st : Part000.state) (now : Z) :
  (exists token, Part000_cache_valid st now token)
  \/ (forall token, ~ Part000_cache_valid st now token).
Proof.
  unfold Part000_cache_valid.
  destruct (Part000.cachedToken st) as [tok|];
    [|right; intros token [e [H _]]; discriminate H].
  destruct (String.eqb tok "") eqn:Ht.
  { apply String.eqb_eq in Ht. right. intros token [e [H [Hne _]]]. congruence. }
  apply String.eqb_neq in Ht.
  destruct (Part000.tokenExpiry st) as [expiry|];
    [|right; intros token [e [_ [_ [H _]]]]; discriminate H].
  destruct (Z.eq_dec expiry 0) as [Hz|Hz].
  { right. intros token [e [_ [_ [H [Hne _]]]]]. congruence. }
  destruct (Z_lt_dec now expiry) as [Hlt|Hge].
  - left. exists tok, expiry. auto.
  - right. intros token [e [_ [_ [H [_ Hlt]]]]]. injection H as <-. contradiction.
Qed.

Lemma Part000_getToken_effect (w : world) (st st' : Part000.state)
    (out : result string) :
  Part000.getToken w st = (out, st') ->
  Part000.mapper_calls st' = Part000.mapper_calls st
  /\ ((exists token,
         Part000_cache_valid st (clock w (Part000.ticks st)) token
         /\ out = Ok token
         /\ Part000.requests st' = Part000.requests st
         /\ Part000.cachedToken st' = Part000.cachedToken st
         /\ Part000.tokenExpiry st' = Part000.tokenExpiry st)
      \/ ((forall token, ~ Part000_cache_valid st (clock w (Part000.ticks st)) token)
          /\ Part000.requests st' = (Part000.requests st ++ [token_request w])%list
          /\ match out with
             | Ok token =>
                 granted w (List.length (Part000.requests st)) = Some token
                 /\ Part000.cachedToken st' = Some token
                 /\ Part000.tokenExpiry st' <> None
             | Throw _ =>
                 granted w (List.length (Part000.requests st)) = None
                 /\ Part000.cachedToken st' = Part000.cachedToken st
                 /\ Part000.tokenExpiry st' = Part000.tokenExpiry st
             end)).
Proof.
  intros Hrun.
  destruct (Part000_valid_or_not st (clock w (Part000.ticks st))) as [[token Hv] | Hinv].
  - rewrite (Part000_getToken_hit w st token Hv) in Hrun.
    injection Hrun as <- <-. split; [reflexivity|]. left. exists token. repeat split. exact Hv.
  - destruct (Part000_getToken_miss w st Hinv) as [st0 [Hst0 Hmiss]].
    assert (Hframe : Part000.requests st0 = Part000.requests st
                     /\ Part000.mapper_calls st0 = Part000.mapper_calls st
                     /\ Part000.cachedToken st0 = Part000.cachedToken st
                     /\ Part000.tokenExpiry st0 = Part000.tokenExpiry st)
      by (destruct Hst0 as [-> | ->]; repeat split).
    destruct Hframe as [Hreq [Hmap [Hc He]]].
    cbv zeta in Hmiss.
    destruct (granted w (List.length (Part000.requests st))) as [token|].
    + rewrite Hmiss in Hrun. injection Hrun as <- <-. split; [exact Hmap|].
      right. split; [exact Hinv|]. simpl. rewrite Hreq. repeat split. discriminate.
    + destruct Hmiss as [message Hmiss]. rewrite Hmiss in Hrun.
      injection Hrun as <- <-. split; [exact Hmap|].
      right. split; [exact Hinv|]. simpl. rewrite Hreq. repeat split; assumption.
Qed.

(** ** The import handlers, case by case *)

Lemma IndexJs_import_cases (w : world) (req_body req_ip : value) (st : IndexJs.state) :
  nullish req_body = false ->
  IndexJs.import w req_body req_ip st =
  match IndexJs.getToken w st with
  | (Throw message, st1) => (Ok (IndexJs.Reply500 message), st1)
  | (Ok token, st1) =>
      let st2 := IndexJs.add_request (list_request w token) st1 in
      match net w (List.length (IndexJs.requests st1)) (list_request w token) with
      | Http.Rejected message => (Ok (IndexJs.Reply500 message), st2)
      | Http.Resolved resp =>
          if Http.ok resp then
            match parseString w (Http.body resp) with
            | Throw message => (Ok (IndexJs.Reply500 message), st2)
            | Ok propertiesData =>
                match IndexJs.loop w token (getProp req_body "agent_email")
                        IndexJs_start (entries_of propertiesData) st2 with
                | (Throw message, st3) => (Ok (IndexJs.Reply500 message), st3)
                | (Ok t, st3) =>
                    (Ok (IndexJs_report t (List.length (entries_of propertiesData))
                           req_ip (clock w (IndexJs.ticks st3))),
                     IndexJs.tick st3)
                end
            end
          else (Ok (IndexJs.Reply500
                      ("Failed to fetch properties: "
                       ++ JsNumber.digits_of_Z (Http.status resp))), st2)
      end
  end.
Proof.
  intros Hn.
  unfold IndexJs.import, parseXml, try_catch, bind, lift, member,
    IndexJs.fetchWithToken, IndexJs.fetch, throw, ret, IndexJs.date_now.
  rewrite Hn.
  destruct (IndexJs.getToken w st) as [[token|message] st1]; [|reflexivity].
  fold (list_request w token). cbv zeta.
  destruct (net w _ _) as [message|resp]; [reflexivity|].
  destruct (Http.ok resp); cbn [negb]; [|reflexivity].
  destruct (parseString w (Http.body resp)) as [propertiesData|message]; [|reflexivity].
  fold (entries_of propertiesData). fold IndexJs_start.
  destruct (IndexJs.loop w token _ _ _ _) as [[t|message] st3]; reflexivity.
Qed.

Lemma Part000_import_cases (w : world) (req_body forwarded_for remoteAddress : value)
    (st : Part000.state) :
  nullish req_body = false ->
  Part000.import w req_body forwarded_for remoteAddress st =
  match Part000.getToken w st with
  | (Throw message, st1) => (Ok (Part000.Reply500 message), st1)
  | (Ok token, st1) =>
      let st2 := Part000.add_request (list_request w token) st1 in
      match net w (List.length (Part000.requests st1)) (list_request w token) with
      | Http.Rejected message => (Ok (Part000.Reply500 message), st2)
      | Http.Resolved resp =>
          if Http.ok resp then
            match parseString w (Http.body resp) with
            | Throw message => (Ok (Part000.Reply500 message), st2)
            | Ok propertiesData =>
                match Part000.loop w token (getProp req_body "agent_email")
                        Part000_start (entries_of propertiesData) st2 with
                | (Throw message, st3) => (Ok (Part000.Reply500 message), st3)
                | (Ok t, st3) =>
                    (Ok (Part000_report t (List.length (entries_of propertiesData))
                           forwarded_for remoteAddress), st3)
                end
            end
          else (Ok (Part000.Reply500
                      ("Request failed with status code "
                       ++ JsNumber.digits_of_Z (Http.status resp))), st2)
      end
  end.
Proof.
  intros Hn.
  unfold Part000.import, parseXml, try_catch, Part000.fetchFromAlto, bind,
    lift, destructure, Part000.axios_get, throw, ret.
  rewrite Hn.
  destruct (Part000.getToken w st) as [[token|message] st1]; [|reflexivity].
  fold (list_request w token). cbv zeta.
  destruct (net w _ _) as [message|resp]; [reflexivity|].
  destruct (Http.ok resp); [|reflexivity].
  destruct (parseString w (Http.body resp)) as [propertiesData|message]; [|reflexivity].
  fold (entries_of propertiesData). fold Part000_start.
  destruct (Part000.loop w token _ _ _ _) as [[t|message] st3]; reflexivity.
Qed.

(** A body that is [null] or [undefined] ends the handler before any work. *)
Lemma import_without_body (w : world) (req_body : value) :
  nullish req_body = true ->
  (forall req_ip st,
     exists message, IndexJs.import w req_body req_ip st
                     = (Ok (IndexJs.Reply500 message), st))
  /\ (forall forwarded_for remoteAddress st,
        exists message, Part000.import w req_body forwarded_for remoteAddress st
                        = (Ok (Part000.Reply500 message), st)).
Proof.
  intros Hn. split; intros.
  - unfold IndexJs.import, try_catch, bind, lift, member. rewrite Hn.
    eexists. reflexivity.
  - unfold Part000.import, try_catch, bind, lift, destructure. rewrite Hn.
    eexists. reflexivity.
Qed.

(** ** The bearer check *)

Lemma bearer_test (authHeader secret : value) :
  negb (truthy authHeader)
  || negb (is_string authHeader ("Bearer " ++ ToString secret)) = false
  <-> authHeader = VStr ("Bearer " ++ ToString secret).
Proof.
  split.
  - intros H. apply orb_false_iff in H. destruct H as [_ H].
    apply negb_false_iff, is_string_iff in H. exact H.
  - intros ->. unfold is_string. rewrite String.eqb_refl. reflexivity.
Qed.

Lemma IndexJs_import_replies (w : world) (req_body req_ip : value) (st : IndexJs.state) :
  exists r st', IndexJs.import w req_body req_ip st = (Ok r, st').
Proof.
  unfold IndexJs.import, try_catch.
  match goal with
  | |- context [match ?c with _ => _ end] => destruct c as [[r|message] st1]
  end; eexists; eexists; reflexivity.
Qed.

Lemma Part000_import_replies (w : world) (req_body forwarded_for remoteAddress : value)
    (st : Part000.state) :
  exists r st', Part000.import w req_body forwarded_for remoteAddress st = (Ok r, st').
Proof.
  unfold Part000.import, try_catch.
  match goal with
  | |- context [match ?c with _ => _ end] => destruct c as [[r|message] st1]
  end; eexists; eexists; reflexivity.
Qed.

(** X1: a request for [POST /import] whose Authorization header is not
    exactly "Bearer " followed by the configured secret is answered 401 with
    the state untouched: no clock reading, no upstream request, no change of
    the token cache; with the exact header the answer is that of the import
    handler.  In src/index.js the check also guards the health route unless
    the path is exactly "/health"; in the second variant the health route has
    no check. *)
Theorem unauthorized_import_does_nothing :
  (forall w secret req st,
     Req.path req <> "/health" ->
     (Req.authorization req <> VStr ("Bearer " ++ ToString secret) ->
      IndexJsApp.post_import w secret req st = (Ok IndexJsApp.Unauthorized, st)
      /\ IndexJsApp.get_health w secret req st = (Ok IndexJsApp.Unauthorized, st))
     /\ (Req.authorization req = VStr ("Bearer " ++ ToString secret) ->
         exists r st',
           IndexJs.import w (Req.body req) (Req.ip req) st = (Ok r, st')
           /\ IndexJsApp.post_import w secret req st
              = (Ok (IndexJsApp.Imported r), st')))
  /\ (forall w secret req st,
        Req.path req = "/health" ->
        IndexJsApp.get_health w secret req st
        = (Ok (IndexJsApp.Health (clock w (IndexJs.ticks st))), IndexJs.tick st))
  /\ (forall w secret req st,
        (Req.authorization req <> VStr ("Bearer " ++ ToString secret) ->
         Part000App.post_import w secret req st = (Ok Part000App.Unauthorized, st))
        /\ (Req.authorization req = VStr ("Bearer " ++ ToString secret) ->
            exists r st',
              Part000.import w (Req.body req) (Req.forwarded_for req)
                (Req.remoteAddress req) st = (Ok r, st')
              /\ Part000App.post_import w secret req st
                 = (Ok (Part000App.Imported r), st'))).
Proof.
  split; [|split].
  - intros w secret req st Hpath.
    apply String.eqb_neq in Hpath. split.
    + intros Hbad.
      assert (Htest : negb (truthy (Req.authorization req))
                      || negb (is_string (Req.authorization req)
                                 ("Bearer " ++ ToString secret)) = true).
      { destruct (negb _ || negb _) eqn:E; [reflexivity|].
        apply bearer_test in E. contradiction. }
      unfold IndexJsApp.post_import, IndexJsApp.get_health, IndexJsApp.guard.
      rewrite Hpath. cbv zeta. rewrite Htest. split; reflexivity.
    + intros Hgood.
      destruct (IndexJs_import_replies w (Req.body req) (Req.ip req) st) as [r [st' Hrun]].
      exists r, st'. split; [exact Hrun|].
      unfold IndexJsApp.post_import, IndexJsApp.guard.
      rewrite Hpath. cbv zeta. rewrite (proj2 (bearer_test _ _) Hgood).
      unfold bind. rewrite Hrun. reflexivity.
  - intros w secret req st Hpath.
    unfold IndexJsApp.get_health, IndexJsApp.guard.
    apply String.eqb_eq in Hpath. rewrite Hpath. reflexivity.
  - intros w secret req st. split.
    + intros Hbad.
      unfold Part000App.post_import, Part000App.authenticate. cbv zeta.
      destruct (negb _ || negb _) eqn:E; [reflexivity|].
      apply bearer_test in E. contradiction.
    + intros Hgood.
      destruct (Part000_import_replies w (Req.body req) (Req.forwarded_for req)
                  (Req.remoteAddress req) st) as [r [st' Hrun]].
      exists r, st'. split; [exact Hrun|].
      unfold Part000App.post_import, Part000App.authenticate. cbv zeta.
      rewrite (proj2 (bearer_test _ _) Hgood).
      unfold bind. rewrite Hrun. reflexivity.
Qed.

Lemma unauthorized_import_does_nothing_witness :
  IndexJsApp.post_import Sample.vendor (VStr "s3cret")
    {| Req.path := "/import"; Req.authorization := VStr "Bearer guess";
       Req.body := VObj []; Req.ip := VStr "10.0.0.1";
       Req.forwarded_for := VUndefined; Req.remoteAddress := VUndefined |}
    IndexJs.initial
  = (Ok IndexJsApp.Unauthorized, IndexJs.initial).
Proof.
  refine (proj1 (proj1 (proj1 unauthorized_import_does_nothing Sample.vendor
                          (VStr "s3cret") _ IndexJs.initial _) _)).
  - discriminate.
  - discriminate.
Defined.

(** ** Replies *)

(** What a successful reply of src/index.js went through. *)
Lemma IndexJs_import_success (w : world) (req_body req_ip : value)
    (st st' : IndexJs.state) (r : IndexJs.report) :
  IndexJs.import w req_body req_ip st = (Ok (IndexJs.Reply200 r), st') ->
  nullish req_body = false
  /\ exists token st1 resp propertiesData t st3,
       IndexJs.getToken w st = (Ok token, st1)
       /\ net w (List.length (IndexJs.requests st1)) (list_request w token)
          = Http.Resolved resp
       /\ Http.ok resp = true
       /\ parseString w (Http.body resp) = Ok propertiesData
       /\ IndexJs.loop w token (getProp req_body "agent_email") IndexJs_start
            (entries_of propertiesData)
            (IndexJs.add_request (list_request w token) st1) = (Ok t, st3)
       /\ IndexJs.Reply200 r
          = IndexJs_report t (List.length (entries_of propertiesData)) req_ip
              (clock w (IndexJs.ticks st3))
       /\ st' = IndexJs.tick st3.
Proof.
  intros Hrun. destruct (nullish req_body) eqn:Hn.
  - destruct (proj1 (import_without_body w req_body Hn) req_ip st) as [message H].
    rewrite H in Hrun. discriminate Hrun.
  - split; [reflexivity|].
    rewrite IndexJs_import_cases in Hrun by exact Hn.
    destruct (IndexJs.getToken w st) as [[token|message] st1]; [|discriminate Hrun].
    cbv zeta in Hrun.
    destruct (net w _ _) as [message|resp] eqn:Hnet; [discriminate Hrun|].
    destruct (Http.ok resp) eqn:Hok; [|discriminate Hrun].
    destruct (parseString w (Http.body resp)) as [propertiesData|message] eqn:Hparse;
      [|discriminate Hrun].
    destruct (IndexJs.loop w token _ _ _ _) as [[t|message] st3] eqn:Hloop;
      [|discriminate Hrun].
    injection Hrun as Hr <-.
    exists token, st1, resp, propertiesData, t, st3. repeat split; auto.
    rewrite <- Hr. reflexivity.
Qed.

Lemma Part000_import_success (w : world) (req_body forwarded_for remoteAddress : value)
    (st st' : Part000.state) (r : Part000.report) :
  Part000.import w req_body forwarded_for remoteAddress st
  = (Ok (Part000.Reply200 r), st') ->
  nullish req_body = false
  /\ exists token st1 resp propertiesData t,
       Part000.getToken w st = (Ok token, st1)
       /\ net w (List.length (Part000.requests st1)) (list_request w token)
          = Http.Resolved resp
       /\ Http.ok resp = true
       /\ parseString w (Http.body resp) = Ok propertiesData
       /\ Part000.loop w token (getProp req_body "agent_email") Part000_start
            (entries_of propertiesData)
            (Part000.add_request (list_request w token) st1) = (Ok t, st')
       /\ Part000.Reply200 r
          = Part000_report t (List.length (entries_of propertiesData))
              forwarded_for remoteAddress.
Proof.
  intros Hrun. destruct (nullish req_body) eqn:Hn.
  - destruct (proj2 (import_without_body w req_body Hn) forwarded_for remoteAddress st)
      as [message H].
    rewrite H in Hrun. discriminate Hrun.
  - split; [reflexivity|].
    rewrite Part000_import_cases in Hrun by exact Hn.
    destruct (Part000.getToken w st) as [[token|message] st1]; [|discriminate Hrun].
    cbv zeta in Hrun.
    destruct (net w _ _) as [message|resp] eqn:Hnet; [discriminate Hrun|].
    destruct (Http.ok resp) eqn:Hok; [|discriminate Hrun].
    destruct (parseString w (Http.body resp)) as [propertiesData|message] eqn:Hparse;
      [|discriminate Hrun].
    destruct (Part000.loop w token _ _ _ _) as [[t|message] st3] eqn:Hloop;
      [|discriminate Hrun].
    injection Hrun as Hr <-.
    exists token, st1, resp, propertiesData, t. repeat split; auto.
    rewrite <- Hr. reflexivity.
Qed.

(** X2: the import handlers never let an exception escape: every run ends in
    a reply.  A body that is null or undefined gives a 500 before any work; a
    failed token request gives a 500 carrying its message, with no request
    for the property list; a property list answered outside 2xx gives a 500
    naming the status, with no detail fetch. *)
Theorem import_failures_become_replies :
  (forall w req_body req_ip st,
     exists r st', IndexJs.import w req_body req_ip st = (Ok r, st'))
  /\ (forall w req_body forwarded_for remoteAddress st,
        exists r st',
          Part000.import w req_body forwarded_for remoteAddress st = (Ok r, st'))
  /\ (forall w req_body,
        nullish req_body = true ->
        (forall req_ip st,
           exists message, IndexJs.import w req_body req_ip st
                           = (Ok (IndexJs.Reply500 message), st))
        /\ (forall forwarded_for remoteAddress st,
              exists message,
                Part000.import w req_body forwarded_for remoteAddress st
                = (Ok (Part000.Reply500 message), st)))
  /\ (forall w req_body req_ip st message st1,
        nullish req_body = false ->
        IndexJs.getToken w st = (Throw message, st1) ->
        IndexJs.import w req_body req_ip st = (Ok (IndexJs.Reply500 message), st1))
  /\ (forall w req_body forwarded_for remoteAddress st message st1,
        nullish req_body = false ->
        Part000.getToken w st = (Throw message, st1) ->
        Part000.import w req_body forwarded_for remoteAddress st
        = (Ok (Part000.Reply500 message), st1))
  /\ (forall w req_body req_ip st token st1 resp,
        nullish req_body = false ->
        IndexJs.getToken w st = (Ok token, st1) ->
        net w (List.length (IndexJs.requests st1)) (list_request w token)
        = Http.Resolved resp ->
        Http.ok resp = false ->
        IndexJs.import w req_body req_ip st
        = (Ok (IndexJs.Reply500 ("Failed to fetch properties: "
                                 ++ JsNumber.digits_of_Z (Http.status resp))),
           IndexJs.add_request (list_request w token) st1))
  /\ (forall w req_body forwarded_for remoteAddress st token st1 resp,
        nullish req_body = false ->
        Part000.getToken w st = (Ok token, st1) ->
        net w (List.length (Part000.requests st1)) (list_request w token)
        = Http.Resolved resp ->
        Http.ok resp = false ->
        Part000.import w req_body forwarded_for remoteAddress st
        = (Ok (Part000.Reply500 ("Request failed with status code "
                                 ++ JsNumber.digits_of_Z (Http.status resp))),
           Part000.add_request (list_request w token) st1)).
Proof.
  split; [exact IndexJs_import_replies|].
  split; [exact Part000_import_replies|].
  split; [exact import_without_body|].
  split; [|split; [|split]].
  - intros w req_body req_ip st message st1 Hn Htok.
    rewrite IndexJs_import_cases by exact Hn. rewrite Htok. reflexivity.
  - intros w req_body forwarded_for remoteAddress st message st1 Hn Htok.
    rewrite Part000_import_cases by exact Hn. rewrite Htok. reflexivity.
  - intros w req_body req_ip st token st1 resp Hn Htok Hnet Hok.
    rewrite IndexJs_import_cases by exact Hn. rewrite Htok. cbv zeta.
    rewrite Hnet, Hok. reflexivity.
  - intros w req_body forwarded_for remoteAddress st token st1 resp Hn Htok Hnet Hok.
    rewrite Part000_import_cases by exact Hn. rewrite Htok. cbv zeta.
    rewrite Hnet, Hok. reflexivity.
Qed.

Lemma import_failures_become_replies_witness :
  IndexJs.import Sample.refusing (VObj []) VUndefined IndexJs.initial
  = (Ok (IndexJs.Reply500 "Failed to get token: 401"),
     IndexJs.add_request (token_request Sample.refusing) (IndexJs.tick IndexJs.initial)).
Proof.
  apply (proj1 (proj2 (proj2 (proj2 import_failures_become_replies)))); reflexivity.
Defined.

(** X3: the entries of a property list are read through optional lookups: a
    parse result without [properties.property] (or null itself) has no entry,
    an array has its items, any other value is one entry; and a list without
    entry gives a successful reply with every counter at zero after the single
    list request. *)
Theorem empty_property_list_is_reported :
  (forall propertiesData,
     let found := optMember (optMember propertiesData "properties") "property" in
     (truthy found = false -> entries_of propertiesData = [])
     /\ (forall items, found = VArr items -> entries_of propertiesData = items)
     /\ (truthy found = true -> (forall items, found <> VArr items) ->
         entries_of propertiesData = [found]))
  /\ (forall w req_body req_ip st token st1 resp propertiesData,
        nullish req_body = false ->
        IndexJs.getToken w st = (Ok token, st1) ->
        net w (List.length (IndexJs.requests st1)) (list_request w token)
        = Http.Resolved resp ->
        Http.ok resp = true ->
        parseString w (Http.body resp) = Ok propertiesData ->
        entries_of propertiesData = [] ->
        IndexJs.import w req_body req_ip st
        = (Ok (IndexJs_report IndexJs_start 0 req_ip (clock w (IndexJs.ticks st1))),
           IndexJs.tick (IndexJs.add_request (list_request w token) st1)))
  /\ (forall w req_body forwarded_for remoteAddress st token st1 resp propertiesData,
        nullish req_body = false ->
        Part000.getToken w st = (Ok token, st1) ->
        net w (List.length (Part000.requests st1)) (list_request w token)
        = Http.Resolved resp ->
        Http.ok resp = true ->
        parseString w (Http.body resp) = Ok propertiesData ->
        entries_of propertiesData = [] ->
        Part000.import w req_body forwarded_for remoteAddress st
        = (Ok (Part000_report Part000_start 0 forwarded_for remoteAddress),
           Part000.add_request (list_request w token) st1)).
Proof.
  split; [|split].
  - intros propertiesData found. unfold entries_of. fold found. repeat split.
    + intros H. unfold js_or. rewrite H. reflexivity.
    + intros items H. rewrite H. reflexivity.
    + intros Ht Hna. unfold js_or. rewrite Ht.
      destruct found; try reflexivity. exfalso. apply (Hna items). reflexivity.
  - intros w req_body req_ip st token st1 resp propertiesData Hn Htok Hnet Hok Hparse He.
    rewrite IndexJs_import_cases by exact Hn. rewrite Htok. cbv zeta.
    rewrite Hnet, Hok, Hparse, He. reflexivity.
  - intros w req_body forwarded_for remoteAddress st token st1 resp propertiesData
      Hn Htok Hnet Hok Hparse He.
    rewrite Part000_import_cases by exact Hn. rewrite Htok. cbv zeta.
    rewrite Hnet, Hok, Hparse, He. reflexivity.
Qed.

Lemma empty_property_list_is_reported_witness :
  entries_of VNull = [] /\ entries_of (VObj [("properties", VStr "")]) = [].
Proof.
  split.
  - apply (proj1 (proj1 empty_property_list_is_reported VNull)). reflexivity.
  - apply (proj1 (proj1 empty_property_list_is_reported
                    (VObj [("properties", VStr "")]))). reflexivity.
Defined.

(** ** Listings *)

Lemma IndexJs_import_listed (w : world) (req_body req_ip : value)
    (st st' : IndexJs.state) (r : IndexJs.report) :
  IndexJs.import w req_body req_ip st = (Ok (IndexJs.Reply200 r), st') ->
  exists calls,
    IndexJs.mapper_calls st' = (IndexJs.mapper_calls st ++ calls)%list
    /\ Forall IndexJs_passed calls
    /\ IndexJs.properties r = IndexJs_mapped (getProp req_body "agent_email") calls.
Proof.
  intros Hrun. apply IndexJs_import_success in Hrun.
  destruct Hrun as [_ [token [st1 [resp [data [t [st3 [Htok [_ [_ [_ [Hloop [Hr ->]]]]]]]]]]]]].
  apply IndexJs_getToken_effect in Htok. destruct Htok as [_ [Hmap _]].
  apply IndexJs_loop_effect in Hloop.
  destruct Hloop as [_ [_ [_ [details [calls [_ [_ [Hcalls [Hpass Hpp]]]]]]]]].
  injection Hr as ->. exists calls. split; [|split].
  - simpl. simpl in Hcalls. rewrite Hcalls, Hmap. reflexivity.
  - exact Hpass.
  - cbn [IndexJs.properties]. rewrite Hpp. reflexivity.
Qed.

Lemma Part000_import_listed (w : world) (req_body forwarded_for remoteAddress : value)
    (st st' : Part000.state) (r : Part000.report) :
  Part000.import w req_body forwarded_for remoteAddress st
  = (Ok (Part000.Reply200 r), st') ->
  exists calls,
    Part000.mapper_calls st' = (Part000.mapper_calls st ++ calls)%list
    /\ Forall Part000_passed calls
    /\ Part000.properties r = Part000_mapped (getProp req_body "agent_email") calls
    /\ Part000.total_found r = (Part000.report_skipped r + List.length calls)%nat
    /\ Part000.total r = List.length (Part000.properties r).
Proof.
  intros Hrun. apply Part000_import_success in Hrun.
  destruct Hrun as [_ [token [st1 [resp [data [t [Htok [_ [_ [_ [Hloop Hr]]]]]]]]]]].
  apply Part000_getToken_effect in Htok. destruct Htok as [Hmap _].
  apply Part000_loop_effect in Hloop.
  destruct Hloop
    as [_ [_ [_ [details [calls [_ [_ [Hcalls [Hpass [Hpp Hcount]]]]]]]]]].
  injection Hr as ->. exists calls. simpl in Hpp, Hcount.
  split; [|split; [|split; [|split]]].
  - simpl in Hcalls. rewrite Hcalls, Hmap. reflexivity.
  - exact Hpass.
  - cbn [Part000.properties]. exact Hpp.
  - cbn [Part000.total_found Part000.report_skipped]. lia.
  - reflexivity.
Qed.

(** X4: in both files the listings of a successful reply are, in order, the
    listings [mapProperty] made of the records it was called on during that
    import, a call that returned null leaving none; and each of these records
    passed both predicates, so no listing is made of a record that fails
    one. *)
Theorem listings_are_the_mapped_records :
  (forall w req_body req_ip st st' r,
     IndexJs.import w req_body req_ip st = (Ok (IndexJs.Reply200 r), st') ->
     exists calls,
       IndexJs.mapper_calls st' = (IndexJs.mapper_calls st ++ calls)%list
       /\ Forall IndexJs_passed calls
       /\ IndexJs.properties r = IndexJs_mapped (getProp req_body "agent_email") calls
       /\ forall l,
            In l (IndexJs.properties r) <->
            exists property,
              In property calls
              /\ IndexJs.mapProperty property (getProp req_body "agent_email") = Some l)
  /\ (forall w req_body forwarded_for remoteAddress st st' r,
        Part000.import w req_body forwarded_for remoteAddress st
        = (Ok (Part000.Reply200 r), st') ->
        exists calls,
          Part000.mapper_calls st' = (Part000.mapper_calls st ++ calls)%list
          /\ Forall Part000_passed calls
          /\ Part000.properties r
             = Part000_mapped (getProp req_body "agent_email") calls
          /\ forall l,
               In l (Part000.properties r) <->
               exists property,
                 In property calls
                 /\ Part000.mapProperty property (getProp req_body "agent_email") = Some l).
Proof.
  split.
  - intros w req_body req_ip st st' r Hrun.
    destruct (IndexJs_import_listed _ _ _ _ _ _ Hrun) as [calls [Hc [Hp Hl]]].
    exists calls. repeat split; auto; rewrite Hl; apply IndexJs_mapped_In.
  - intros w req_body forwarded_for remoteAddress st st' r Hrun.
    destruct (Part000_import_listed _ _ _ _ _ _ _ Hrun) as [calls [Hc [Hp [Hl _]]]].
    exists calls. repeat split; auto; rewrite Hl; apply Part000_mapped_In.
Qed.

Lemma listings_are_the_mapped_records_witness :
  exists r st',
    IndexJs.import Sample.vendor (VObj []) VUndefined IndexJs.initial
    = (Ok (IndexJs.Reply200 r), st')
    /\ IndexJs.mapper_calls st' = [Sample.house]
    /\ Forall IndexJs_passed (IndexJs.mapper_calls st')
    /\ IndexJs.properties r = IndexJs_mapped VUndefined (IndexJs.mapper_calls st')
    /\ List.length (IndexJs.properties r) = 1%nat.
Proof.
  destruct (IndexJs.import Sample.vendor (VObj []) VUndefined IndexJs.initial)
    as [[[r|message]|message] st'] eqn:E; try discriminate E.
  destruct (proj1 listings_are_the_mapped_records _ _ _ _ _ _ E)
    as [calls [Hc [Hp [Hl _]]]].
  simpl in Hc. subst calls.
  exists r, st'. split; [reflexivity|].
  vm_compute in E. injection E as <- <-.
  split; [reflexivity|]. split; [exact Hp|]. split; [exact Hl | reflexivity].
Defined.

(** X5: in the second variant every entry of the list is either skipped or
    handed to the mapper: a successful reply satisfies
    total_found = skipped + the number of records the mapper was called on,
    with total the number of listings.  The mapper makes at most one listing
    of a record, so total + skipped <= total_found, with equality exactly
    when it refused none of the records: an entry whose record it refuses is
    counted nowhere. *)
Theorem second_variant_accounts_for_every_entry
    (w : world) (req_body forwarded_for remoteAddress : value)
    (st st' : Part000.state) (r : Part000.report) :
  Part000.import w req_body forwarded_for remoteAddress st
  = (Ok (Part000.Reply200 r), st') ->
  exists calls,
    Part000.mapper_calls st' = (Part000.mapper_calls st ++ calls)%list
    /\ Part000.total_found r = (Part000.report_skipped r + List.length calls)%nat
    /\ Part000.total r = List.length (Part000.properties r)
    /\ (Part000.total r + Part000.report_skipped r <= Part000.total_found r)%nat
    /\ (Part000.total_found r = (Part000.total r + Part000.report_skipped r)%nat <->
        Forall (fun property => Part000_mappable property = true) calls).
Proof.
  intros Hrun.
  destruct (Part000_import_listed _ _ _ _ _ _ _ Hrun)
    as [calls [Hc [_ [Hl [Hfound Htotal]]]]].
  destruct (Part000_mapped_length (getProp req_body "agent_email") calls) as [Hle Heq].
  rewrite <- Hl, <- Htotal in Hle, Heq.
  exists calls. split; [exact Hc|]. split; [exact Hfound|]. split; [exact Htotal|].
  split; [lia|]. rewrite <- Heq. lia.
Qed.

Lemma second_variant_accounts_for_every_entry_witness :
  exists r st',
    Part000.import Sample.odd_vendor (VObj []) VUndefined VUndefined Part000.initial
    = (Ok (Part000.Reply200 r), st')
    /\ Part000.mapper_calls st' = [Sample.unmappable]
    /\ Part000.total_found r = 1%nat
    /\ Part000.total r = 0%nat
    /\ Part000.report_skipped r = 0%nat
    /\ (Part000.total r + Part000.report_skipped r <= Part000.total_found r)%nat.
Proof.
  destruct (Part000.import Sample.odd_vendor (VObj []) VUndefined VUndefined
              Part000.initial) as [[[r|message]|message] st'] eqn:E; try discriminate E.
  destruct (second_variant_accounts_for_every_entry _ _ _ _ _ _ _ E)
    as [calls [_ [_ [_ [Hle _]]]]].
  exists r, st'. split; [reflexivity|].
  vm_compute in E. injection E as <- <-.
  split; [reflexivity|]. split; [reflexivity|]. split; [reflexivity|].
  split; [reflexivity | exact Hle].
Defined.

(** The one record of [Sample.odd_vendor] passes both predicates and is
    refused by the mapper: src/index.js counts an error. *)
Example refused_record_is_an_error :
  exists r st',
    IndexJs.import Sample.odd_vendor (VObj []) VUndefined IndexJs.initial
    = (Ok (IndexJs.Reply200 r), st')
    /\ IndexJs.mapper_calls st' = [Sample.unmappable]
    /\ IndexJs.properties r = []
    /\ IndexJs.total_found r = 1%nat
    /\ IndexJs.report_skipped r = 0%nat
    /\ IndexJs.report_errors r = 1%nat.
Proof.
  eexists. eexists. split; [vm_compute; reflexivity|].
  repeat split; reflexivity.
Qed.

(** ** Upstream requests of an import *)

Lemma carries_list_request (w : world) (token : string) :
  carries token (list_request w token).
Proof. split; reflexivity. Qed.

(** After [getToken], an import only adds requests made with the token, the
    first of them for the property list, and leaves the cache alone. *)
Lemma IndexJs_import_frame (w : world) (req_body req_ip : value)
    (st st' : IndexJs.state) (rep : result IndexJs.reply) :
  nullish req_body = false ->
  IndexJs.import w req_body req_ip st = (rep, st') ->
  exists out st1,
    IndexJs.getToken w st = (out, st1)
    /\ IndexJs.cachedToken st' = IndexJs.cachedToken st1
    /\ IndexJs.tokenTimestamp st' = IndexJs.tokenTimestamp st1
    /\ match out with
       | Throw _ => IndexJs.requests st' = IndexJs.requests st1
       | Ok token =>
           exists details,
             IndexJs.requests st'
             = (IndexJs.requests st1 ++ list_request w token :: details)%list
             /\ Forall (carries token) details
       end.
Proof.
  intros Hn Hrun. rewrite IndexJs_import_cases in Hrun by exact Hn.
  destruct (IndexJs.getToken w st) as [[token|message] st1].
  - exists (Ok token), st1. split; [reflexivity|]. cbv zeta in Hrun.
    assert (Hstop : forall r,
               (r, IndexJs.add_request (list_request w token) st1) = (rep, st') ->
               IndexJs.cachedToken st' = IndexJs.cachedToken st1
               /\ IndexJs.tokenTimestamp st' = IndexJs.tokenTimestamp st1
               /\ exists details,
                    IndexJs.requests st'
                    = (IndexJs.requests st1 ++ list_request w token :: details)%list
                    /\ Forall (carries token) details).
    { intros r H. injection H as _ <-. repeat split. exists []. split; [reflexivity|constructor]. }
    destruct (net w _ _) as [message|resp]; [exact (Hstop _ Hrun)|].
    destruct (Http.ok resp); [|exact (Hstop _ Hrun)].
    destruct (parseString w (Http.body resp)) as [data|message]; [|exact (Hstop _ Hrun)].
    destruct (IndexJs.loop w token _ _ _ _) as [[t|message] st3] eqn:Hloop;
      apply IndexJs_loop_effect in Hloop;
      destruct Hloop as [Hc [Hts [_ [details [calls [Hreq [Hall _]]]]]]];
      injection Hrun as _ <-; (split; [exact Hc|]); (split; [exact Hts|]);
      exists details; (split; [|exact Hall]); simpl; simpl in Hreq;
      rewrite Hreq, <- app_assoc; reflexivity.
  - exists (Throw message), st1. injection Hrun as _ <-. repeat split.
Qed.

Lemma Part000_import_frame (w : world) (req_body forwarded_for remoteAddress : value)
    (st st' : Part000.state) (rep : result Part000.reply) :
  nullish req_body = false ->
  Part000.import w req_body forwarded_for remoteAddress st = (rep, st') ->
  exists out st1,
    Part000.getToken w st = (out, st1)
    /\ Part000.cachedToken st' = Part000.cachedToken st1
    /\ Part000.tokenExpiry st' = Part000.tokenExpiry st1
    /\ match out with
       | Throw _ => Part000.requests st' = Part000.requests st1
       | Ok token =>
           exists details,
             Part000.requests st'
             = (Part000.requests st1 ++ list_request w token :: details)%list
             /\ Forall (carries token) details
       end.
Proof.
  intros Hn Hrun. rewrite Part000_import_cases in Hrun by exact Hn.
  destruct (Part000.getToken w st) as [[token|message] st1].
  - exists (Ok token), st1. split; [reflexivity|]. cbv zeta in Hrun.
    assert (Hstop : forall r,
               (r, Part000.add_request (list_request w token) st1) = (rep, st') ->
               Part000.cachedToken st' = Part000.cachedToken st1
               /\ Part000.tokenExpiry st' = Part000.tokenExpiry st1
               /\ exists details,
                    Part000.requests st'
                    = (Part000.requests st1 ++ list_request w token :: details)%list
                    /\ Forall (carries token) details).
    { intros r H. injection H as _ <-. repeat split. exists []. split; [reflexivity|constructor]. }
    destruct (net w _ _) as [message|resp]; [exact (Hstop _ Hrun)|].
    destruct (Http.ok resp); [|exact (Hstop _ Hrun)].
    destruct (parseString w (Http.body resp)) as [data|message]; [|exact (Hstop _ Hrun)].
    destruct (Part000.loop w token _ _ _ _) as [[t|message] st3] eqn:Hloop;
      apply Part000_loop_effect in Hloop;
      destruct Hloop as [Hc [Hts [_ [details [calls [Hreq [Hall _]]]]]]];
      injection Hrun as _ <-; (split; [exact Hc|]); (split; [exact Hts|]);
      exists details; (split; [|exact Hall]); simpl; simpl in Hreq;
      rewrite Hreq, <- app_assoc; reflexivity.
  - exists (Throw message), st1. injection Hrun as _ <-. repeat split.
Qed.

(** X6: what an import sends upstream.  With a valid cached token it sends no
    token request: its requests are the property list request followed by
    detail requests, all made with the cached token.  Otherwise its first
    request is the single token request, the only one that carries the
    configured password; whatever follows is made with one token as user name
    and an empty password.  This holds in both files and whatever the
    outcome of the import. *)
Theorem import_requests_are_made_with_the_token :
  (forall w req_body req_ip st st' rep,
     nullish req_body = false ->
     IndexJs.import w req_body req_ip st = (rep, st') ->
     (exists token details,
        IndexJs_cache_valid st (clock w (IndexJs.ticks st)) token
        /\ IndexJs.requests st'
           = (IndexJs.requests st ++ list_request w token :: details)%list
        /\ Forall (carries token) details)
     \/ ((forall token, ~ IndexJs_cache_valid st (clock w (IndexJs.ticks st)) token)
         /\ exists token rest,
              IndexJs.requests st'
              = (IndexJs.requests st ++ token_request w :: rest)%list
              /\ Forall (carries token) rest))
  /\ (forall w req_body forwarded_for remoteAddress st st' rep,
        nullish req_body = false ->
        Part000.import w req_body forwarded_for remoteAddress st = (rep, st') ->
        (exists token details,
           Part000_cache_valid st (clock w (Part000.ticks st)) token
           /\ Part000.requests st'
              = (Part000.requests st ++ list_request w token :: details)%list
           /\ Forall (carries token) details)
        \/ ((forall token, ~ Part000_cache_valid st (clock w (Part000.ticks st)) token)
            /\ exists token rest,
                 Part000.requests st'
                 = (Part000.requests st ++ token_request w :: rest)%list
                 /\ Forall (carries token) rest)).
Proof.
  split.
  - intros w req_body req_ip st st' rep Hn Hrun.
    destruct (IndexJs_import_frame _ _ _ _ _ _ Hn Hrun)
      as [out [st1 [Htok [_ [_ Hreq]]]]].
    apply IndexJs_getToken_effect in Htok. destruct Htok as [_ [_ Htok]].
    destruct (IndexJs.cached st (clock w (IndexJs.ticks st))) as [token|] eqn:Hc.
    + left. destruct Htok as [-> [Hr1 _]]. destruct Hreq as [details [Hr Hall]].
      exists token, details. split; [apply IndexJs_cached_valid; exact Hc|].
      split; [|exact Hall]. rewrite Hr, Hr1. reflexivity.
    + right. split.
      { intros token Hv. apply IndexJs_cached_valid in Hv. congruence. }
      destruct Htok as [Hr1 _]. destruct out as [token|message].
      * destruct Hreq as [details [Hr Hall]].
        exists token, (list_request w token :: details). split.
        -- rewrite Hr, Hr1, <- app_assoc. reflexivity.
        -- constructor; [apply carries_list_request | exact Hall].
      * exists "", []. split; [|constructor]. rewrite Hreq, Hr1. reflexivity.
  - intros w req_body forwarded_for remoteAddress st st' rep Hn Hrun.
    destruct (Part000_import_frame _ _ _ _ _ _ _ Hn Hrun)
      as [out [st1 [Htok [_ [_ Hreq]]]]].
    apply Part000_getToken_effect in Htok. destruct Htok as [_ Htok].
    destruct Htok as [[token [Hv [-> [Hr1 _]]]] | [Hinv [Hr1 _]]].
    + left. destruct Hreq as [details [Hr Hall]].
      exists token, details. split; [exact Hv|].
      split; [|exact Hall]. rewrite Hr, Hr1. reflexivity.
    + right. split; [exact Hinv|]. destruct out as [token|message].
      * destruct Hreq as [details [Hr Hall]].
        exists token, (list_request w token :: details). split.
        -- rewrite Hr, Hr1, <- app_assoc. reflexivity.
        -- constructor; [apply carries_list_request | exact Hall].
      * exists "", []. split; [|constructor]. rewrite Hreq, Hr1. reflexivity.
Qed.

Lemma import_requests_are_made_with_the_token_witness :
  exists token rest,
    IndexJs.requests
      (snd (IndexJs.import Sample.vendor (VObj []) VUndefined IndexJs.initial))
    = token_request Sample.vendor :: rest
    /\ Forall (carries token) rest.
Proof.
  destruct (proj1 import_requests_are_made_with_the_token Sample.vendor (VObj [])
              VUndefined IndexJs.initial
              (snd (IndexJs.import Sample.vendor (VObj []) VUndefined IndexJs.initial))
              (fst (IndexJs.import Sample.vendor (VObj []) VUndefined IndexJs.initial))
              eq_refl (surjective_pairing _))
    as [[token [details [[timestamp [Hc _]] _]]] | [_ H]].
  - discriminate Hc.
  - exact H.
Defined.

(** ** The token cache *)

(** X7: in both files the token cache never holds an empty token, and never
    a token without its time: this holds at start and is kept by [getToken]
    and by the import handler, whatever their outcome; and a call that
    throws leaves the cache exactly as it was. *)
Theorem token_cache_stays_well_formed :
  IndexJs_cache_ok IndexJs.initial
  /\ Part000_cache_ok Part000.initial
  /\ (forall w st out st',
        IndexJs_cache_ok st -> IndexJs.getToken w st = (out, st') ->
        IndexJs_cache_ok st'
        /\ (forall message, out = Throw message ->
            IndexJs.cachedToken st' = IndexJs.cachedToken st
            /\ IndexJs.tokenTimestamp st' = IndexJs.tokenTimestamp st))
  /\ (forall w req_body req_ip st rep st',
        IndexJs_cache_ok st -> IndexJs.import w req_body req_ip st = (rep, st') ->
        IndexJs_cache_ok st')
  /\ (forall w st out st',
        Part000_cache_ok st -> Part000.getToken w st = (out, st') ->
        Part000_cache_ok st'
        /\ (forall message, out = Throw message ->
            Part000.cachedToken st' = Part000.cachedToken st
            /\ Part000.tokenExpiry st' = Part000.tokenExpiry st))
  /\ (forall w req_body forwarded_for remoteAddress st rep st',
        Part000_cache_ok st ->
        Part000.import w req_body forwarded_for remoteAddress st = (rep, st') ->
        Part000_cache_ok st').
Proof.
  assert (Hi : forall w st out st',
             IndexJs_cache_ok st -> IndexJs.getToken w st = (out, st') ->
             IndexJs_cache_ok st'
             /\ (forall message, out = Throw message ->
                 IndexJs.cachedToken st' = IndexJs.cachedToken st
                 /\ IndexJs.tokenTimestamp st' = IndexJs.tokenTimestamp st)).
  { intros w st out st' Hok Hrun.
    apply IndexJs_getToken_effect in Hrun. destruct Hrun as [_ [_ Hrun]].
    unfold IndexJs_cache_ok in *.
    destruct (IndexJs.cached st (clock w (IndexJs.ticks st))) as [token|].
    - destruct Hrun as [-> [_ [Hc Hts]]]. rewrite Hc, Hts. split; [exact Hok|].
      intros message H. discriminate H.
    - destruct Hrun as [_ Hrun]. destruct out as [token|message].
      + destruct Hrun as [Hg [Hc Hts]]. rewrite Hc, Hts. split.
        * split; [exact (granted_nonempty _ _ _ Hg) | discriminate].
        * intros message H. discriminate H.
      + destruct Hrun as [_ [Hc Hts]]. rewrite Hc, Hts. split; [exact Hok | auto]. }
  assert (Hp : forall w st out st',
             Part000_cache_ok st -> Part000.getToken w st = (out, st') ->
             Part000_cache_ok st'
             /\ (forall message, out = Throw message ->
                 Part000.cachedToken st' = Part000.cachedToken st
                 /\ Part000.tokenExpiry st' = Part000.tokenExpiry st)).
  { intros w st out st' Hok Hrun.
    apply Part000_getToken_effect in Hrun. destruct Hrun as [_ Hrun].
    unfold Part000_cache_ok in *.
    destruct Hrun as [[token [_ [-> [_ [Hc Hts]]]]] | [_ [_ Hrun]]].
    - rewrite Hc, Hts. split; [exact Hok|]. intros message H. discriminate H.
    - destruct out as [token|message].
      + destruct Hrun as [Hg [Hc Hts]]. rewrite Hc. split.
        * split; [exact (granted_nonempty _ _ _ Hg) | exact Hts].
        * intros message H. discriminate H.
      + destruct Hrun as [_ [Hc Hts]]. rewrite Hc, Hts. split; [exact Hok | auto]. }
  split; [exact I|]. split; [exact I|]. split; [exact Hi|].
  split; [|split; [exact Hp|]].
  - intros w req_body req_ip st rep st' Hok Hrun.
    destruct (nullish req_body) eqn:Hn.
    + destruct (proj1 (import_without_body w req_body Hn) req_ip st) as [message H].
      rewrite H in Hrun. injection Hrun as _ <-. exact Hok.
    + destruct (IndexJs_import_frame _ _ _ _ _ _ Hn Hrun)
        as [out [st1 [Htok [Hc [Hts _]]]]].
      destruct (Hi _ _ _ _ Hok Htok) as [Hok1 _].
      unfold IndexJs_cache_ok in *. rewrite Hc, Hts. exact Hok1.
  - intros w req_body forwarded_for remoteAddress st rep st' Hok Hrun.
    destruct (nullish req_body) eqn:Hn.
    + destruct (proj2 (import_without_body w req_body Hn) forwarded_for remoteAddress st)
        as [message H].
      rewrite H in Hrun. injection Hrun as _ <-. exact Hok.
    + destruct (Part000_import_frame _ _ _ _ _ _ _ Hn Hrun)
        as [out [st1 [Htok [Hc [Hts _]]]]].
      destruct (Hp _ _ _ _ Hok Htok) as [Hok1 _].
      unfold Part000_cache_ok in *. rewrite Hc, Hts. exact Hok1.
Qed.

Lemma token_cache_stays_well_formed_witness :
  IndexJs_cache_ok (snd (IndexJs.getToken Sample.vendor IndexJs.initial)).
Proof.
  exact (proj1 (proj1 (proj2 (proj2 token_cache_stays_well_formed))
                  Sample.vendor IndexJs.initial _ _
                  (proj1 token_cache_stays_well_formed) (surjective_pairing _))).
Defined.

(** ** Failed detail fetches *)




(** ** Paths *)

Lemma split_append (sep : ascii) (p q : string) :
  JsString.split sep (p ++ String sep q)
  = (JsString.split sep p ++ JsString.split sep q)%list.
Proof.
  induction p as [|c t IH]; simpl.
  - rewrite Ascii.eqb_refl. reflexivity.
  - destruct (Ascii.eqb c sep).
    + rewrite IH. reflexivity.
    + rewrite IH. destruct (JsString.split sep t) as [|h r] eqn:Ht.
      * exfalso. apply (split_nonempty sep t). exact Ht.
      * reflexivity.
Qed.

Lemma split_without_separator (sep : ascii) (key : string) :
  (forall c, In c (list_ascii_of_string key) -> c <> sep) ->
  JsString.split sep key = [key].
Proof.
  induction key as [|c t IH]; simpl; intros H; [reflexivity|].
  destruct (Ascii.eqb c sep) eqn:E.
  - apply Ascii.eqb_eq in E. exfalso. apply (H c); auto.
  - rewrite IH; [reflexivity|]. intros c' Hc'. apply H. right. exact Hc'.
Qed.

(** X10: reading a path made of two paths joined by a dot is reading the
    second path from the value the plain lookups of the first lead to (with
    no unwrapping of an array in between); and reading a key that has no dot
    is one optional lookup followed by the final rule (first element of a
    non-empty array, null for a falsy value). *)
Theorem get_composes_along_the_path :
  (forall obj p q,
     get obj (p ++ "." ++ q) = get (resolve obj (JsString.split "." p)) q)
  /\ (forall obj key,
        (forall c, In c (list_ascii_of_string key) -> c <> "."%char) ->
        get obj key = finish (optMember obj key)).
Proof.
  split.
  - intros obj p q. rewrite !get_finish_resolve.
    change (p ++ "." ++ q)%string with (p ++ String "." q)%string.
    rewrite split_append, resolve_app. reflexivity.
  - intros obj key H. apply get_single. apply split_without_separator. exact H.
Qed.

Lemma get_composes_along_the_path_witness :
  get Sample.house "prop_id" = finish (optMember Sample.house "prop_id").
Proof.
  apply (proj2 get_composes_along_the_path).
  simpl. intros c H. repeat (destruct H as [<- | H]; [discriminate|]). destruct H.
Defined.

(** ** Text fields of a listing *)

Lemma read_or_empty_js_or (read : value) : read_or_empty (js_or read (VStr "")) read.
Proof. unfold read_or_empty, js_or. split; intros H; rewrite H; reflexivity. Qed.

Lemma title_fallback (display street : value) :
  js_or (js_or display street) (VStr "Property")
  = (if truthy (js_or display (VStr "")) then js_or display (VStr "")
     else if truthy (js_or street (VStr "")) then js_or street (VStr "")
          else VStr "Property")
  /\ truthy (js_or (js_or display street) (VStr "Property")) = true.
Proof.
  unfold js_or.
  destruct (truthy display) eqn:Hd; simpl; rewrite ?Hd; [split; auto|].
  destruct (truthy street) eqn:Hs; simpl; rewrite ?Hs; split; auto.
Qed.

(** X11: in both files the text fields of a listing are the values [get]
    reads, with the empty string for a value that is missing or falsy:
    description from [description], street_address from the [street] of the
    address record, address from its [display], city from its [town],
    postcode from its [postcode] and, in src/index.js, available_from from
    [available].  The title is the address when that is not empty, else the
    street address when that is not empty, else the word "Property", so it is
    never empty; a record without address gets the title "Property" and empty
    address fields.  Every record that can be mapped gets such a listing. *)
Theorem text_fields_have_defaults :
  (forall property agentEmail,
     IndexJs_mappable property = true ->
     exists l,
       IndexJs.mapProperty property agentEmail = Some l
       /\ read_or_empty (IndexJs.description l) (get property "description")
       /\ read_or_empty (IndexJs.street_address l) (get (address_of property) "street")
       /\ read_or_empty (IndexJs.address l) (get (address_of property) "display")
       /\ read_or_empty (IndexJs.city l) (get (address_of property) "town")
       /\ read_or_empty (IndexJs.postcode l) (get (address_of property) "postcode")
       /\ read_or_empty (IndexJs.available_from l) (get property "available")
       /\ IndexJs.title l
          = (if truthy (IndexJs.address l) then IndexJs.address l
             else if truthy (IndexJs.street_address l) then IndexJs.street_address l
                  else VStr "Property")
       /\ truthy (IndexJs.title l) = true
       /\ (getProp property "address" = VUndefined ->
           IndexJs.title l = VStr "Property" /\ IndexJs.address l = VStr ""
           /\ IndexJs.street_address l = VStr "" /\ IndexJs.city l = VStr ""
           /\ IndexJs.postcode l = VStr ""))
  /\ (forall property agentEmail,
        Part000_mappable property = true ->
        exists l,
          Part000.mapProperty property agentEmail = Some l
          /\ read_or_empty (Part000.description l) (get property "description")
          /\ read_or_empty (Part000.street_address l) (get (address_of property) "street")
          /\ read_or_empty (Part000.address l) (get (address_of property) "display")
          /\ read_or_empty (Part000.city l) (get (address_of property) "town")
          /\ read_or_empty (Part000.postcode l) (get (address_of property) "postcode")
          /\ Part000.title l
             = (if truthy (Part000.address l) then Part000.address l
                else if truthy (Part000.street_address l) then Part000.street_address l
                     else VStr "Property")
          /\ truthy (Part000.title l) = true
          /\ (getProp property "address" = VUndefined ->
              Part000.title l = VStr "Property" /\ Part000.address l = VStr ""
              /\ Part000.street_address l = VStr "" /\ Part000.city l = VStr ""
              /\ Part000.postcode l = VStr "")).
Proof.
  split.
  - intros property agentEmail Hm.
    destruct (proj1 (IndexJs_mappable_iff property agentEmail) Hm) as [l H].
    exists l. split; [exact H|]. listing_of H.
    cbn [IndexJs.title IndexJs.address IndexJs.street_address IndexJs.description
         IndexJs.city IndexJs.postcode IndexJs.available_from].
    fold (address_of property).
    repeat (split; [apply read_or_empty_js_or|]).
    split; [apply title_fallback|]. split; [apply title_fallback|].
    intros Ha. unfold address_of. rewrite Ha. repeat split; reflexivity.
  - intros property agentEmail Hm.
    destruct (proj1 (Part000_mappable_iff property agentEmail) Hm) as [l H].
    exists l. split; [exact H|]. listing_of H.
    cbn [Part000.title Part000.address Part000.street_address Part000.description
         Part000.city Part000.postcode].
    fold (address_of property).
    repeat (split; [apply read_or_empty_js_or|]).
    split; [apply title_fallback|]. split; [apply title_fallback|].
    intros Ha. unfold address_of. rewrite Ha. repeat split; reflexivity.
Qed.

Lemma text_fields_have_defaults_witness :
  (exists l,
     IndexJs.mapProperty Sample.house VNull = Some l
     /\ IndexJs.city l = VStr "Leeds"
     /\ IndexJs.postcode l = VStr "LS1 1AA"
     /\ IndexJs.description l = VStr ""
     /\ IndexJs.title l = VStr "1 High Street, Leeds")
  /\ (exists l,
        Part000.mapProperty (VObj []) VNull = Some l
        /\ Part000.title l = VStr "Property").
Proof.
  split.
  - destruct (proj1 text_fields_have_defaults Sample.house VNull eq_refl)
      as [l [E [Hdesc [_ [Haddr [Hcity [Hpost [_ [Htitle _]]]]]]]]].
    exists l. split; [exact E|].
    split; [exact (proj1 Hcity eq_refl)|].
    split; [exact (proj1 Hpost eq_refl)|].
    split; [exact (proj2 Hdesc eq_refl)|].
    rewrite Htitle, (proj1 Haddr eq_refl). reflexivity.
  - destruct (proj2 text_fields_have_defaults (VObj []) VNull eq_refl)
      as [l [E [_ [_ [_ [_ [_ [_ [_ Habsent]]]]]]]]].
    exists l. split; [exact E|]. exact (proj1 (Habsent eq_refl)).
Defined.

(** ** Amenities and the agent's address *)

Lemma amenities_In (bulletList : list value) (a : value) :
  In a (filter truthy (map (fun b => get b "bullet") bulletList)) <->
  exists b, In b bulletList /\ get b "bullet" = a /\ truthy a = true.
Proof.
  rewrite filter_In, in_map_iff. split.
  - intros [[b [Hb Hin]] Ht]. exists b. auto.
  - intros [b [Hin [Hb Ht]]]. split; [exists b; auto | exact Ht].
Qed.

(** X12: in src/index.js the amenities of a listing are, in order, the
    non-empty [bullet] texts of the entries of the [bullets] field (one entry
    when the field is not an array): a text is among them exactly when an
    entry carries it, and when there is none the listing has no amenities key
    at all. *)
Theorem amenities_are_the_bullets (property agentEmail : value) (l : IndexJs.listing) :
  IndexJs.mapProperty property agentEmail = Some l ->
  let found := filter truthy (map (fun b => get b "bullet") (bullet_entries property)) in
  emitted found (IndexJs.amenities l) (assoc "amenities" (IndexJs.json_fields l))
  /\ (forall a,
        In a found <->
        exists b, In b (bullet_entries property) /\ get b "bullet" = a /\ truthy a = true)
  /\ (getProp property "bullets" = VUndefined -> IndexJs.amenities l = VUndefined).
Proof.
  intros H found. pose proof (IndexJs_json_field l) as Hjson.
  listing_of H. fold (bullet_entries property) in Hjson |- *. fold found in Hjson |- *.
  split; [|split].
  - apply emitted_nonempty_or_undefined. rewrite Hjson. reflexivity.
  - intros a. apply amenities_In.
  - intros Hb. cbn [IndexJs.amenities]. subst found. unfold bullet_entries.
    rewrite Hb. reflexivity.
Qed.

Lemma amenities_are_the_bullets_witness :
  option_map IndexJs.amenities
    (IndexJs.mapProperty
       (VObj [("bullets", VArr [VObj [("bullet", VArr [VStr "Garden"])];
                                VObj [("bullet", VArr [VStr ""])]])]) VNull)
  = Some (VArr [VStr "Garden"]).
Proof.
  destruct (IndexJs.mapProperty _ VNull) as [l|] eqn:E; [|discriminate E].
  destruct (proj1 (amenities_are_the_bullets _ _ _ E)) as [Hfield _].
  simpl. rewrite Hfield. reflexivity.
Defined.

Lemma truthy_is_defined (v : value) : truthy v = true -> is_undefined v = false.
Proof. destruct v; simpl; intros H; try reflexivity; discriminate H. Qed.

Lemma IndexJs_landlord_email (property agentEmail : value) (l : IndexJs.listing) :
  IndexJs.mapProperty property agentEmail = Some l ->
  assoc "landlord_email" (IndexJs.json_fields l)
  = (if truthy agentEmail then Some agentEmail else None)
  /\ IndexJs.landlord_account_type l = "agent"
  /\ IndexJs.status l = "available"
  /\ IndexJs.bills_included l = false.
Proof.
  intros H. rewrite IndexJs_json_field. listing_of H. simpl. unfold js_or.
  destruct (truthy agentEmail) eqn:Ht; repeat split.
  rewrite (truthy_is_defined _ Ht). reflexivity.
Qed.

Lemma Part000_landlord_email (property agent_email : value) (l : Part000.listing) :
  Part000.mapProperty property agent_email = Some l ->
  assoc "landlord_email" (Part000.json_fields l)
  = (if truthy agent_email then Some agent_email else None).
Proof.
  intros H. rewrite Part000_json_field. listing_of H. simpl. unfold js_or.
  destruct (truthy agent_email) eqn:Ht; [|reflexivity].
  rewrite (truthy_is_defined _ Ht). reflexivity.
Qed.

(** X13: every listing of a successful reply carries the [agent_email] of the
    request body as landlord_email when that is truthy, and has no
    landlord_email key at all when it is missing or empty; in src/index.js
    every listing also has the account type "agent", the status "available"
    and bills_included false. *)
Theorem listings_carry_the_agent_email :
  (forall w req_body req_ip st st' r l,
     IndexJs.import w req_body req_ip st = (Ok (IndexJs.Reply200 r), st') ->
     In l (IndexJs.properties r) ->
     let agentEmail := getProp req_body "agent_email" in
     (truthy agentEmail = true ->
      assoc "landlord_email" (IndexJs.json_fields l) = Some agentEmail)
     /\ (truthy agentEmail = false ->
         assoc "landlord_email" (IndexJs.json_fields l) = None)
     /\ IndexJs.landlord_account_type l = "agent"
     /\ IndexJs.status l = "available"
     /\ IndexJs.bills_included l = false)
  /\ (forall w req_body forwarded_for remoteAddress st st' r l,
        Part000.import w req_body forwarded_for remoteAddress st
        = (Ok (Part000.Reply200 r), st') ->
        In l (Part000.properties r) ->
        let agent_email := getProp req_body "agent_email" in
        (truthy agent_email = true ->
         assoc "landlord_email" (Part000.json_fields l) = Some agent_email)
        /\ (truthy agent_email = false ->
            assoc "landlord_email" (Part000.json_fields l) = None)).
Proof.
  split.
  - intros w req_body req_ip st st' r l Hrun Hin agentEmail.
    destruct (IndexJs_import_listed _ _ _ _ _ _ Hrun) as [calls [_ [_ Hl]]].
    rewrite Hl in Hin. apply IndexJs_mapped_In in Hin.
    destruct Hin as [property [_ Hmap]].
    destruct (IndexJs_landlord_email _ _ _ Hmap) as [Hjson Hrest].
    fold agentEmail in Hjson. rewrite Hjson.
    split; [intros Ht; rewrite Ht; reflexivity|].
    split; [intros Ht; rewrite Ht; reflexivity | exact Hrest].
  - intros w req_body forwarded_for remoteAddress st st' r l Hrun Hin agent_email.
    destruct (Part000_import_listed _ _ _ _ _ _ _ Hrun) as [calls [_ [_ [Hl _]]]].
    rewrite Hl in Hin. apply Part000_mapped_In in Hin.
    destruct Hin as [property [_ Hmap]].
    pose proof (Part000_landlord_email _ _ _ Hmap) as Hjson.
    fold agent_email in Hjson. rewrite Hjson.
    split; intros Ht; rewrite Ht; reflexivity.
Qed.

Lemma listings_carry_the_agent_email_witness :
  Forall (fun l => assoc "landlord_email" (IndexJs.json_fields l) = Some (VStr "a@b.c"))
    (match fst (IndexJs.import Sample.vendor (VObj [("agent_email", VStr "a@b.c")])
                  VUndefined IndexJs.initial) with
     | Ok (IndexJs.Reply200 r) => IndexJs.properties r
     | _ => []
     end).
Proof.
  destruct (IndexJs.import Sample.vendor (VObj [("agent_email", VStr "a@b.c")])
              VUndefined IndexJs.initial) as [[[r|message]|message] st'] eqn:E;
    try discriminate E.
  apply Forall_forall. intros l Hin.
  exact (proj1 (proj1 listings_carry_the_agent_email _ _ _ _ _ _ l E Hin) eq_refl).
Defined.

(** ** The two files side by side *)

Lemma mappers_agree (property agentEmail : value)
    (l1 : IndexJs.listing) (l2 : Part000.listing) :
  IndexJs.mapProperty property agentEmail = Some l1 ->
  Part000.mapProperty property agentEmail = Some l2 ->
  Part000.title l2 = IndexJs.title l1
  /\ Part000.description l2 = IndexJs.description l1
  /\ Part000.property_type l2 = IndexJs.property_type l1
  /\ Part000.street_address l2 = IndexJs.street_address l1
  /\ Part000.address l2 = IndexJs.address l1
  /\ Part000.city l2 = IndexJs.city l1
  /\ Part000.postcode l2 = IndexJs.postcode l1
  /\ Part000.bedrooms l2 = IndexJs.bedrooms l1
  /\ Part000.bathrooms l2 = IndexJs.bathrooms l1
  /\ Part000.price_monthly l2 = IndexJs.price_monthly l1
  /\ Part000.images l2 = IndexJs.images l1
  /\ Part000.floorplans l2 = IndexJs.floorplans l1
  /\ Part000.virtual_tours l2 = IndexJs.virtual_tours l1
  /\ Part000.landlord_email l2 = IndexJs.landlord_email l1
  /\ Part000.external_id l2 = IndexJs.external_id l1.
Proof.
  intros H1 H2. listing_of H1. listing_of H2. repeat split.
Qed.

Lemma assoc_included (small large : list (string * value)) :
  Forall (fun kv => assoc (fst kv) large = Some (snd kv)) small ->
  forall key x, assoc key small = Some x -> assoc key large = Some x.
Proof.
  induction 1 as [|[k x0] rest Hhead _ IH]; intros key x; simpl; [discriminate|].
  destruct (String.eqb k key) eqn:E.
  - apply String.eqb_eq in E. subst key. intros H. injection H as <-. exact Hhead.
  - apply IH.
Qed.

(** X14: the two files agree wherever they overlap: a record the second
    variant takes for a student letting is one for src/index.js too, the
    availability test is the same, and whenever src/index.js makes a listing
    of a record the second variant makes one too, every key of whose JSON is
    a key of the listing of src/index.js with the same value.  The converse
    fails: of a record the second variant maps, src/index.js makes no listing
    exactly when its latitude, longitude or deposit cannot be converted. *)
Theorem second_variant_listing_is_part_of_the_first :
  (forall property,
     (Part000.isStudent property = true -> IndexJs.isStudent property = true)
     /\ Part000.isAvailable property = IndexJs.isAvailable property)
  /\ (forall property agentEmail l1,
        IndexJs.mapProperty property agentEmail = Some l1 ->
        exists l2,
          Part000.mapProperty property agentEmail = Some l2
          /\ forall key v,
               assoc key (Part000.json_fields l2) = Some v ->
               assoc key (IndexJs.json_fields l1) = Some v)
  /\ (forall property agentEmail l2,
        Part000.mapProperty property agentEmail = Some l2 ->
        (IndexJs.mapProperty property agentEmail = None <->
         exists v,
           In v [ get property "latitude"; get property "longitude";
                  get property "deposit" ]
           /\ convertible v = false)).
Proof.
  split; [|split].
  - intros property. split; [|reflexivity].
    unfold Part000.isStudent, IndexJs.isStudent.
    change (Part000.classification_text property)
      with (IndexJs.classification_text property).
    change (Part000.bedroom_count property) with (IndexJs.bedroom_count property).
    intros H. apply orb_true_iff in H. rewrite !orb_true_iff. tauto.
  - intros property agentEmail l1 H1.
    assert (Hm : Part000_mappable property = true).
    { apply mappable_in_both. apply (IndexJs_mappable_iff property agentEmail).
      exists l1. exact H1. }
    destruct (proj1 (Part000_mappable_iff property agentEmail) Hm) as [l2 H2].
    exists l2. split; [exact H2|].
    destruct (mappers_agree _ _ _ _ H1 H2)
      as [E1 [E2 [E3 [E4 [E5 [E6 [E7 [E8 [E9 [E10 [E11 [E12 [E13 [E14 E15]]]]]]]]]]]]]].
    intros key v. rewrite Part000_json_field, IndexJs_json_field.
    rewrite E1, E2, E3, E4, E5, E6, E7, E8, E9, E10, E11, E12, E13, E14, E15.
    match goal with
    | |- match assoc key ?small with _ => _ end = _ ->
         match assoc key ?large with _ => _ end = _ =>
        pose proof (assoc_included small large) as Hinc
    end.
    destruct (assoc key _) as [x|] eqn:Hsmall at 1; [|discriminate].
    rewrite (Hinc ltac:(repeat (apply Forall_cons; [reflexivity|]); apply Forall_nil)
               key x Hsmall).
    intros H. exact H.
  - intros property agentEmail l2 H2.
    apply Part000_mapProperty_some in H2. destruct H2 as [Hn Hc].
    rewrite IndexJs_mapProperty_none, <- forallb_false.
    unfold IndexJs_numeric_inputs, Part000_numeric_inputs in *.
    cbn [forallb] in *. rewrite !andb_true_iff in Hc.
    destruct Hc as [H1 [H2 [H3 [H4 _]]]].
    rewrite Hn, H1, H2, H3, H4.
    destruct (convertible (get property "latitude"));
      destruct (convertible (get property "longitude"));
      destruct (convertible (get property "deposit")); cbn;
      (split;
       [ intros [H | H]; try discriminate H; reflexivity
       | intros H; try discriminate H; right; reflexivity ]).
Qed.

Lemma second_variant_listing_is_part_of_the_first_witness :
  IndexJs.mapProperty Sample.unlocated VNull = None
  /\ Part000.mapProperty Sample.unlocated VNull <> None.
Proof.
  destruct (Part000.mapProperty Sample.unlocated VNull) as [l2|] eqn:E;
    [|discriminate E].
  split; [|discriminate].
  apply (proj2 (proj2 (proj2 second_variant_listing_is_part_of_the_first)
                  Sample.unlocated VNull l2 E)).
  exists (VObj [("toString", VArr [VStr "1"])]).
  split; [left; reflexivity | reflexivity].
Defined.
